(** * Thinking Tool: the generation pipeline and its wizard

    A shallow embedding of [src/main.ts]: the provider clients, the retry
    wrapper [callAI], the topic synthesizer, the article composer, the note
    writer [createArticleNote] and the four-step [GenerateArticleModal].
    ([src/unnamed/part_000] is an earlier revision of the same file, without
    the retry wrapper and the outline step; the model follows [main.ts].)

    - Strings.  JavaScript strings are sequences of UTF-16 code units, so a
      string is a [list N]; [.length], [.slice] and the regular expressions
      of the source count code units.  Literals are written as UTF-8 text
      and decoded by [js].
    - Effects.  The asynchronous code runs in a state-and-exception monad
      [M] over the outside world: the vault, the outcomes of the requests to
      come, the clock and a log of what was done to the collaborators.  An
      [await] is a bind, a thrown [Error] is kept as its message, and a
      computation that does not end has no result.
    - The wizard.  A handler of the modal runs to its end as one step, the
      calls it awaits included; clicks made while a call is in flight are
      not modelled.  [render] calls [loadTopics], which calls [render]:
      the recursion is bounded by a fuel, and [None] stands for a run that
      needs more.
    - The synthesizer as the wizard sees it.  [generateTopicSuggestions]
      returns what [JSON.parse] gave under an unchecked cast; the wizard is
      modelled against any synthesizer of the declared type
      [Promise<TopicSuggestion[]>] (the section variable [suggest]). *)

From Stdlib Require Import Strings.String Strings.Ascii.
From Stdlib Require Import DecimalString DecimalN.
From stdpp Require Import base option list gmap.

Set Warnings "-register-all".
Open Scope N_scope.

(* ================================================================== *)
(** ** JavaScript strings *)
(* ================================================================== *)

Module JS.

Abbreviation jsstring := (list N).

(** A code unit given by an ASCII character. *)
Definition ch (a : ascii) : N := N_of_ascii a.

Definition bytes (s : string) : list N := map N_of_ascii (list_ascii_of_string s).

(** The UTF-16 code units of a code point. *)
Definition units (cp : N) : jsstring :=
  if cp <? 65536 then [cp]
  else [55296 + (cp - 65536) / 1024; 56320 + (cp - 65536) mod 1024].

(** Source literals are UTF-8 text; [utf16] gives the code units the
    JavaScript engine holds for them. *)
Fixpoint utf16 (bs : list N) : jsstring :=
  match bs with
  | [] => []
  | b :: t =>
      if b <? 128 then b :: utf16 t
      else if b <? 224 then
        match t with
        | b1 :: t1 => units ((b - 192) * 64 + (b1 - 128)) ++ utf16 t1
        | _ => [65533]
        end
      else if b <? 240 then
        match t with
        | b1 :: b2 :: t2 =>
            units ((b - 224) * 4096 + (b1 - 128) * 64 + (b2 - 128)) ++ utf16 t2
        | _ => [65533]
        end
      else
        match t with
        | b1 :: b2 :: b3 :: t3 =>
            units ((b - 240) * 262144 + (b1 - 128) * 4096
                   + (b2 - 128) * 64 + (b3 - 128)) ++ utf16 t3
        | _ => [65533]
        end
  end.

Definition js (s : string) : jsstring := utf16 (bytes s).

(** A literal in which the grave accent stands for the double quote. *)
Definition jq (s : string) : jsstring :=
  map (λ c, if c =? 96 then 34 else c) (js s).

(** [String(n)] for a non-negative integer. *)
Definition showN (n : N) : jsstring :=
  bytes (NilEmpty.string_of_uint (N.to_uint n)).

Definition eqs (a b : jsstring) : bool := bool_decide (a = b).

(** [s.startsWith(p)], returning what follows the prefix. *)
Fixpoint strip_prefix (p s : jsstring) : option jsstring :=
  match p, s with
  | [], _ => Some s
  | a :: p', b :: s' => if a =? b then strip_prefix p' s' else None
  | _ :: _, [] => None
  end.

(** [s.includes(p)]. *)
Fixpoint includes (p s : jsstring) : bool :=
  match strip_prefix p s with
  | Some _ => true
  | None => match s with [] => false | _ :: t => includes p t end
  end.

(** White space and line terminators, the class [\s] of a regular
    expression and the characters removed by [trim]. *)
Definition is_space (c : N) : bool :=
  (9 <=? c) && (c <=? 13) || (c =? 32) || (c =? 160) || (c =? 5760)
  || (8192 <=? c) && (c <=? 8202) || (c =? 8232) || (c =? 8233)
  || (c =? 8239) || (c =? 8287) || (c =? 12288) || (c =? 65279).

Fixpoint trimStart (s : jsstring) : jsstring :=
  match s with
  | c :: t => if is_space c then trimStart t else s
  | [] => []
  end.

Definition trim (s : jsstring) : jsstring :=
  reverse (trimStart (reverse (trimStart s))).

(** [s.slice(0, n)]. *)
Definition slice0 (n : nat) (s : jsstring) : jsstring := take n s.

(** [s.split(sep)] for a one-unit separator. *)
Fixpoint split (sep : N) (s : jsstring) : list jsstring :=
  match s with
  | [] => [[]]
  | c :: t =>
      if c =? sep then [] :: split sep t
      else match split sep t with
           | seg :: segs => (c :: seg) :: segs
           | [] => [[c]]
           end
  end.

(** [xs.join(sep)]. *)
Fixpoint join (sep : jsstring) (xs : list jsstring) : jsstring :=
  match xs with
  | [] => []
  | [x] => x
  | x :: t => x ++ sep ++ join sep t
  end.

(** [s.replace(/\.md$/, empty)]: a final [.md] is removed. *)
Definition strip_md (s : jsstring) : jsstring :=
  match strip_prefix (reverse (js ".md")) (reverse s) with
  | Some r => reverse r
  | None => s
  end.

(** Truthiness of a string: only the empty string is falsy, so
    [s || d] is [d] exactly when [s] is empty. *)
Definition or_else (s d : jsstring) : jsstring :=
  match s with [] => d | _ => s end.

End JS.
Export JS.

(* ================================================================== *)
(** ** JSON values and [JSON.parse] *)
(* ================================================================== *)

Module Json.

Inductive JSON : Type :=
| JNull
| JBool (b : bool)
| JNumber (lexeme : jsstring)
| JString (s : jsstring)
| JArray (xs : list JSON)
| JObject (fields : list (jsstring * JSON)).

(** Outcome of a parser: a value and the unread input, a [SyntaxError],
    or not enough fuel to decide. *)
Inductive PR (A : Type) : Type :=
| POk (a : A) (rest : jsstring)
| PSyntax
| PFuel.
Arguments POk {A} a rest.
Arguments PSyntax {A}.
Arguments PFuel {A}.

Definition is_ws (c : N) : bool :=
  (c =? 32) || (c =? 9) || (c =? 10) || (c =? 13).

Fixpoint skip_ws (s : jsstring) : jsstring :=
  match s with
  | c :: t => if is_ws c then skip_ws t else s
  | [] => []
  end.

Definition is_digit (c : N) : bool := (48 <=? c) && (c <=? 57).

Definition hex_val (c : N) : option N :=
  if is_digit c then Some (c - 48)
  else if (97 <=? c) && (c <=? 102) then Some (c - 87)
  else if (65 <=? c) && (c <=? 70) then Some (c - 55)
  else None.

Fixpoint digits (s : jsstring) : jsstring * jsstring :=
  match s with
  | c :: t => if is_digit c then let '(d, r) := digits t in (c :: d, r)
              else ([], s)
  | [] => ([], [])
  end.

(** The character an escape stands for, after the backslash. *)
Definition escape (e : N) : option N :=
  if e =? 34 then Some 34
  else if e =? 92 then Some 92
  else if e =? 47 then Some 47
  else if e =? 98 then Some 8
  else if e =? 102 then Some 12
  else if e =? 110 then Some 10
  else if e =? 114 then Some 13
  else if e =? 116 then Some 9
  else None.

Definition prepend (c : N) (o : option (jsstring * jsstring))
  : option (jsstring * jsstring) :=
  match o with
  | Some (r, rest) => Some (c :: r, rest)
  | None => None
  end.

(** The body of a string literal, after its opening quote: up to the
    closing quote, with escapes read and control characters refused. *)
Fixpoint parse_chars (s : jsstring) : option (jsstring * jsstring) :=
  match s with
  | [] => None
  | c :: t =>
      if c =? 34 then Some ([], t)
      else if c =? 92 then
        match t with
        | [] => None
        | e :: t' =>
            match escape e with
            | Some c' => prepend c' (parse_chars t')
            | None =>
                if e =? 117 then
                  match t' with
                  | h1 :: h2 :: h3 :: h4 :: t4 =>
                      match hex_val h1, hex_val h2, hex_val h3, hex_val h4 with
                      | Some a, Some b, Some c, Some d =>
                          prepend (a * 4096 + b * 256 + c * 16 + d) (parse_chars t4)
                      | _, _, _, _ => None
                      end
                  | _ => None
                  end
                else None
            end
        end
      else if c <? 32 then None
      else prepend c (parse_chars t)
  end.

(** The parts of a number literal: an optional minus sign; [0] or a
    non-zero digit and digits; optionally a point and digits; optionally an
    exponent. *)
Definition sign_of (s : jsstring) : jsstring * jsstring :=
  match s with
  | c :: t => if c =? 45 then ([c], t) else ([], s)
  | [] => ([], s)
  end.

Definition integer (s : jsstring) : option (jsstring * jsstring) :=
  let '(int, r) := digits s in
  match int with
  | [] => None
  | [_] => Some (int, r)
  | c :: _ => if c =? 48 then None else Some (int, r)
  end.

Definition fraction (s : jsstring) : option (jsstring * jsstring) :=
  match s with
  | c :: t =>
      if c =? 46 then
        let '(f, r) := digits t in
        match f with [] => None | _ => Some (c :: f, r) end
      else Some ([], s)
  | [] => Some ([], s)
  end.

Definition exponent (s : jsstring) : option (jsstring * jsstring) :=
  match s with
  | e :: t =>
      if (e =? 101) || (e =? 69) then
        let '(sg, t') := match t with
                         | c :: u => if (c =? 43) || (c =? 45) then ([c], u) else ([], t)
                         | [] => ([], t)
                         end in
        let '(d, r) := digits t' in
        match d with [] => None | _ => Some (e :: sg ++ d, r) end
      else Some ([], s)
  | [] => Some ([], s)
  end.

Definition parse_number (s : jsstring) : option (jsstring * jsstring) :=
  let '(sign, s1) := sign_of s in
  match integer s1 with
  | None => None
  | Some (int, s2) =>
      match fraction s2 with
      | None => None
      | Some (f, s3) =>
          match exponent s3 with
          | None => None
          | Some (x, s4) => Some (sign ++ int ++ f ++ x, s4)
          end
      end
  end.

Definition lift_opt {A B} (o : option (A * jsstring)) (f : A -> B) : PR B :=
  match o with Some (a, r) => POk (f a) r | None => PSyntax end.

Definition pr_map {A B} (f : A -> B) (r : PR A) : PR B :=
  match r with
  | POk a rest => POk (f a) rest
  | PSyntax => PSyntax
  | PFuel => PFuel
  end.

(** The next code unit that is not white space, and what follows it. *)
Definition next (s : jsstring) : option (N * jsstring) :=
  match skip_ws s with
  | c :: t => Some (c, t)
  | [] => None
  end.

(** What follows the next code unit, when that is [c]. *)
Definition closes (c : N) (s : jsstring) : option jsstring :=
  match next s with
  | Some (c', t) => if c' =? c then Some t else None
  | None => None
  end.

Fixpoint parse_value (fuel : nat) (s : jsstring) : PR JSON :=
  match fuel with
  | O => PFuel
  | S f =>
      match next s with
      | None => PSyntax
      | Some (c, t) =>
          if c =? 91 then
            match closes 93 t with
            | Some t' => POk (JArray []) t'
            | None => pr_map JArray (parse_elems f t)
            end
          else if c =? 123 then
            match closes 125 t with
            | Some t' => POk (JObject []) t'
            | None => pr_map JObject (parse_members f t)
            end
          else if c =? 34 then lift_opt (parse_chars t) JString
          else if (c =? 45) || is_digit c then
            lift_opt (parse_number (c :: t)) JNumber
          else
            match strip_prefix (js "true") (c :: t) with
            | Some r => POk (JBool true) r
            | None =>
            match strip_prefix (js "false") (c :: t) with
            | Some r => POk (JBool false) r
            | None =>
            match strip_prefix (js "null") (c :: t) with
            | Some r => POk JNull r
            | None => PSyntax
            end end end
      end
  end
with parse_elems (fuel : nat) (s : jsstring) : PR (list JSON) :=
  match fuel with
  | O => PFuel
  | S f =>
      match parse_value f s with
      | POk v r =>
          match closes 44 r with
          | Some r' => pr_map (cons v) (parse_elems f r')
          | None =>
              match closes 93 r with
              | Some r' => POk [v] r'
              | None => PSyntax
              end
          end
      | PSyntax => PSyntax
      | PFuel => PFuel
      end
  end
with parse_members (fuel : nat) (s : jsstring) : PR (list (jsstring * JSON)) :=
  match fuel with
  | O => PFuel
  | S f =>
      match closes 34 s with
      | None => PSyntax
      | Some t =>
          match parse_chars t with
          | None => PSyntax
          | Some (k, r) =>
              match closes 58 r with
              | None => PSyntax
              | Some r1 =>
                  match parse_value f r1 with
                  | POk v r2 =>
                      match closes 44 r2 with
                      | Some r3 => pr_map (cons (k, v)) (parse_members f r3)
                      | None =>
                          match closes 125 r2 with
                          | Some r3 => POk [(k, v)] r3
                          | None => PSyntax
                          end
                      end
                  | PSyntax => PSyntax
                  | PFuel => PFuel
                  end
              end
          end
      end
  end.

(** [JSON.parse(s)]: one value, then only white space.  Every recursive
    call reads at least one code unit, so the fuel given is enough
    ([JSON_parse_decides] below). *)
Definition JSON_parse (s : jsstring) : PR JSON :=
  match parse_value (2 * length s + 2) s with
  | POk v r => match skip_ws r with [] => POk v [] | _ => PSyntax end
  | PSyntax => PSyntax
  | PFuel => PFuel
  end.

(** [o.k] on a parsed object: a repeated key keeps its last value. *)
Fixpoint field (k : jsstring) (fs : list (jsstring * JSON)) : option JSON :=
  match fs with
  | [] => None
  | (k', v) :: t =>
      match field k t with
      | Some v' => Some v'
      | None => if eqs k k' then Some v else None
      end
  end.

(** [v?.k]: [undefined] and [null] short-circuit; arrays and primitives
    have none of the properties the clients read. *)
Definition get (k : string) (v : option JSON) : option JSON :=
  match v with
  | Some (JObject fs) => field (js k) fs
  | _ => None
  end.

(** [v?.[0]]. *)
Definition first (v : option JSON) : option JSON :=
  match v with
  | Some (JArray (x :: _)) => Some x
  | Some (JObject fs) => field (js "0") fs
  | Some (JString (c :: _)) => Some (JString [c])
  | _ => None
  end.

End Json.
Export Json.

(* ================================================================== *)
(** ** The two regular expressions of the source *)
(* ================================================================== *)

Module Regex.

(** [[\s\S]*?\]] at the head of [s]: the lazy star stops at the first
    closing bracket. *)
Fixpoint until_close (s : jsstring) : option jsstring :=
  match s with
  | [] => None
  | c :: t => if c =? 93 then Some [c] else (c ::.) <$> until_close t
  end.

(** [s.match(/\[[\s\S]*?\]/)]: the leftmost position at which the
    pattern matches, and there the text matched. *)
Fixpoint match_brackets (s : jsstring) : option jsstring :=
  match s with
  | [] => None
  | c :: t =>
      match (if c =? 91 then until_close t else None) with
      | Some m => Some (c :: m)
      | None => match_brackets t
      end
  end.

(** [>\s*\[!quote\]] at the head of [s]: the number of code units the
    match takes. *)
Fixpoint quote_after_spaces (s : jsstring) : option nat :=
  match s with
  | c :: t =>
      if is_space c then S <$> quote_after_spaces t
      else (λ _, length (js "[!quote]")) <$> strip_prefix (js "[!quote]") s
  | [] => None
  end.

Definition quote_at (s : jsstring) : option nat :=
  match s with
  | 62 :: t => S <$> quote_after_spaces t
  | _ => None
  end.

(** The matches of [/>\s*\[!quote\]/g], left to right and without
    overlap: [skip] code units of the last match are still to pass. *)
Fixpoint count_quotes (skip : nat) (s : jsstring) : N :=
  match s with
  | [] => 0
  | _ :: t =>
      match skip with
      | S k => count_quotes k t
      | O => match quote_at s with
             | Some len => 1 + count_quotes (Nat.pred len) t
             | None => count_quotes 0 t
             end
      end
  end.

End Regex.
Export Regex.

(* ================================================================== *)
(** ** The outside world and the monad of the asynchronous code *)
(* ================================================================== *)

Inductive Provider : Set := gemini | openai | anthropic.

Record ThinkingToolSettings : Type := {
  aiProvider : Provider;
  openaiApiKey : jsstring;
  anthropicApiKey : jsstring;
  geminiApiKey : jsstring;
  openaiModel : jsstring;
  anthropicModel : jsstring;
  geminiModel : jsstring;
  outputLanguage : jsstring
}.

Record ThinkingSession : Type := {
  materialNotePath : option jsstring
}.

Record TopicSuggestion : Type := {
  title : jsstring;
  description : jsstring;
  outline : list jsstring
}.

Inductive Persona : Set :=
  essay | blog | academic | twitter | newsletter | storytelling | custom.

Inductive ArticleLength : Set := short | medium | long.

Record GenerationOptions : Type := {
  topic : TopicSuggestion;
  persona : Persona;
  length_ : ArticleLength;
  customInstructions : option jsstring
}.

Definition API_TIMEOUT : N := 60000.
Definition MAX_RETRIES : N := 3.
Definition RETRY_DELAY : N := 1000.

(** What [requestUrl] resolves to. *)
Record Response : Type := {
  status : N;
  text : jsstring;
  json : option JSON
}.

(** The fate of one request: it resolves, it rejects with an error, or it
    is still pending when the timer of [withTimeout] fires. *)
Inductive HttpOutcome : Type :=
| Responded (r : Response)
| Rejected (message : jsstring)
| Pending.

(** An entry of the vault: a file with the path of its parent folder and
    its text, or a folder. *)
Inductive Entry : Type :=
| TFile (parent : option jsstring) (content : jsstring)
| TFolder.

(** What the code does to its collaborators, in the order it does it. *)
Inductive Event : Type :=
| Progress (status : jsstring)
| Requested (provider : Provider) (prompt : jsstring)
| Slept (ms : N)
| ConsoleError (args : list jsstring)
| Noticed (message : jsstring)
| Opened (path : jsstring).

Record World : Type := {
  vault : gmap jsstring Entry;
  writable : bool;
  network : list HttpOutcome;
  now : jsstring;
  log : list Event
}.

(** A thrown [Error], kept as its [message]. *)
Inductive Res (A : Type) : Type :=
| Ok (a : A)
| Throw (message : jsstring).
Arguments Ok {A} a.
Arguments Throw {A} message.

(** An asynchronous computation run to its end: [None] when it has none. *)
Definition M (A : Type) : Type := World -> option (Res A * World).

Definition ret {A} (a : A) : M A := λ w, Some (Ok a, w).
Definition throw {A} (message : jsstring) : M A := λ w, Some (Throw message, w).
Definition diverge {A} : M A := λ _, None.

Definition bind {A B} (m : M A) (k : A -> M B) : M B :=
  λ w, match m w with
       | Some (Ok a, w') => k a w'
       | Some (Throw e, w') => Some (Throw e, w')
       | None => None
       end.

(** [try { m } catch (error) { h error }]. *)
Definition try_catch {A} (m : M A) (h : jsstring -> M A) : M A :=
  λ w, match m w with
       | Some (Ok a, w') => Some (Ok a, w')
       | Some (Throw e, w') => h e w'
       | None => None
       end.

(** The outcome of [m] as a value: an [await] under a [try] whose two
    branches go on outside of it (the calls of [render] that follow are not
    awaited, so the [catch] does not cover them). *)
Definition settle {A} (m : M A) : M (Res A) :=
  λ w, match m w with
       | Some (r, w') => Some (Ok r, w')
       | None => None
       end.

Declare Scope async_scope.
Delimit Scope async_scope with async.
Notation "x <- m ;; k" := (bind m (λ x, k))
  (at level 100, m at next level, right associativity) : async_scope.
Notation "m ;; k" := (bind m (λ _, k))
  (at level 100, right associativity) : async_scope.
Open Scope async_scope.

Definition emit (e : Event) : M unit :=
  λ w, Some (Ok (), {| vault := vault w; writable := writable w;
                       network := network w; now := now w;
                       log := log w ++ [e] |}).

Definition sleep (ms : N) : M unit := emit (Slept ms).

(** [requestUrl(...)]: the request goes out and the next outcome of the
    network comes back. *)
Definition requestUrl (p : Provider) (prompt : jsstring) : M HttpOutcome :=
  emit (Requested p prompt) ;;
  λ w, Some (Ok (hd Pending (network w)),
             {| vault := vault w; writable := writable w;
                network := tl (network w); now := now w; log := log w |}).

Definition getAbstractFileByPath (path : jsstring) : M (option Entry) :=
  λ w, Some (Ok (vault w !! path), w).

(** The folder part of a path; the root folder has path [/]. *)
Definition dirname (path : jsstring) : jsstring :=
  match removelast (split (ch "/") path) with
  | [] => js "/"
  | segs => join (js "/") segs
  end.

(** [vault.create(path, data)] refuses a path that is taken, and may fail
    for reasons of the host. *)
Definition vault_create (path data : jsstring) : M unit :=
  λ w, if negb (writable w) then Some (Throw (js "Failed to write file."), w)
       else match vault w !! path with
            | Some _ => Some (Throw (js "File already exists."), w)
            | None =>
                Some (Ok (), {| vault := <[path := TFile (Some (dirname path)) data]> (vault w);
                                writable := writable w; network := network w;
                                now := now w; log := log w |})
            end.

Definition toISOString : M jsstring := λ w, Some (Ok (now w), w).

(* ================================================================== *)
(** ** [ThinkingToolPlugin]: AI integration *)
(* ================================================================== *)

Section Plugin.

Variable settings : ThinkingToolSettings.
Variable session : ThinkingSession.

(** [withTimeout(promise, timeoutMs)]: the race of the request against
    the timer. *)
Definition withTimeout (promise : M HttpOutcome) (timeoutMs : N) : M Response :=
  o <- promise ;;
  match o with
  | Responded r => ret r
  | Rejected e => throw e
  | Pending => throw (js "요청 시간 초과 (" ++ showN (timeoutMs / 1000) ++ js "초)")
  end.

(** [if (!content) throw ...; return content]: the text read from the
    response, when it is a non-empty string.  The clients declare
    [content] a string; a truthy value of another JSON type is outside
    that declaration and takes the branch of the missing text here. *)
Definition text_of (content : option JSON) : option jsstring :=
  match content with
  | Some (JString (c :: s)) => Some (c :: s)
  | _ => None
  end.

Definition callOpenAIWithTimeout (prompt : jsstring) : M jsstring :=
  match openaiApiKey settings with
  | [] => throw (js "OpenAI API 키가 설정되지 않았습니다. 설정에서 API 키를 입력해주세요.")
  | _ =>
      response <- withTimeout (requestUrl openai prompt) API_TIMEOUT ;;
      if status response =? 401 then
        throw (js "OpenAI API 키가 유효하지 않습니다.")
      else if status response =? 429 then
        throw (js "OpenAI API 사용량 한도 초과. 잠시 후 다시 시도해주세요.")
      else if negb (status response =? 200) then
        throw (js "OpenAI API 오류 (" ++ showN (status response) ++ js "): "
               ++ or_else (text response) (js "알 수 없는 오류"))
      else
        match text_of (get "content" (get "message" (first (get "choices" (json response))))) with
        | None => throw (js "OpenAI 응답 형식이 올바르지 않습니다.")
        | Some content => ret content
        end
  end.

Definition callAnthropicWithTimeout (prompt : jsstring) : M jsstring :=
  match anthropicApiKey settings with
  | [] => throw (js "Anthropic API 키가 설정되지 않았습니다. 설정에서 API 키를 입력해주세요.")
  | _ =>
      response <- withTimeout (requestUrl anthropic prompt) API_TIMEOUT ;;
      if status response =? 401 then
        throw (js "Anthropic API 키가 유효하지 않습니다.")
      else if status response =? 429 then
        throw (js "Anthropic API 사용량 한도 초과. 잠시 후 다시 시도해주세요.")
      else if negb (status response =? 200) then
        throw (js "Anthropic API 오류 (" ++ showN (status response) ++ js "): "
               ++ or_else (text response) (js "알 수 없는 오류"))
      else
        match text_of (get "text" (first (get "content" (json response)))) with
        | None => throw (js "Anthropic 응답 형식이 올바르지 않습니다.")
        | Some content => ret content
        end
  end.

Definition callGeminiWithTimeout (prompt : jsstring) : M jsstring :=
  match geminiApiKey settings with
  | [] => throw (js "Gemini API 키가 설정되지 않았습니다. 설정에서 API 키를 입력해주세요.")
  | _ =>
      response <- withTimeout (requestUrl gemini prompt) API_TIMEOUT ;;
      if status response =? 400 then
        throw (js "Gemini API 키가 유효하지 않거나 요청 형식이 잘못되었습니다.")
      else if status response =? 429 then
        throw (js "Gemini API 사용량 한도 초과. 잠시 후 다시 시도해주세요.")
      else if negb (status response =? 200) then
        throw (js "Gemini API 오류 (" ++ showN (status response) ++ js "): "
               ++ or_else (text response) (js "알 수 없는 오류"))
      else
        let result := json response in
        match text_of (get "text" (first (get "parts" (get "content"
                         (first (get "candidates" result)))))) with
        | None =>
            let blockReason := get "finishReason" (first (get "candidates" result)) in
            match blockReason with
            | Some (JString r) =>
                if eqs r (js "SAFETY") then
                  throw (js "안전 필터에 의해 응답이 차단되었습니다. 다른 소재로 시도해주세요.")
                else throw (js "Gemini 응답 형식이 올바르지 않습니다.")
            | _ => throw (js "Gemini 응답 형식이 올바르지 않습니다.")
            end
        | Some content => ret content
        end
  end.

(** The provider chosen in the settings. *)
Definition callProvider (prompt : jsstring) : M jsstring :=
  match aiProvider settings with
  | gemini => callGeminiWithTimeout prompt
  | openai => callOpenAIWithTimeout prompt
  | anthropic => callAnthropicWithTimeout prompt
  end.

(** The message of the error thrown once the attempts are used up:
    [lastError?.message || ...]. *)
Definition exhausted (lastError : option jsstring) : jsstring :=
  js "AI 호출 실패 (" ++ showN MAX_RETRIES ++ js "회 시도): "
  ++ or_else (default [] lastError) (js "알 수 없는 오류").

(** The [for] loop of [callAI] with [k] iterations to go, the next one
    numbered [attempt]. *)
Fixpoint callAI_from (k : nat) (attempt : N) (lastError : option jsstring)
         (prompt : jsstring) : M jsstring :=
  match k with
  | O => throw (exhausted lastError)
  | S k' =>
      try_catch
        (emit (Progress (js "AI 호출 중... (시도 " ++ showN attempt ++ js "/"
                         ++ showN MAX_RETRIES ++ js ")")) ;;
         callProvider prompt)
        (λ error,
           emit (ConsoleError [js "AI call attempt " ++ showN attempt ++ js " failed:";
                               error]) ;;
           (if attempt <? MAX_RETRIES then
              let delay := RETRY_DELAY * 2 ^ (attempt - 1) in
              emit (Progress (js "재시도 대기 중... (" ++ showN (delay / 1000) ++ js "초)")) ;;
              sleep delay
            else ret ()) ;;
           callAI_from k' (attempt + 1) (Some error) prompt)
  end.

Definition callAI (prompt : jsstring) : M jsstring :=
  callAI_from (N.to_nat MAX_RETRIES) 1 None prompt.

Definition topicsPrompt (language materialsContent : jsstring) : jsstring :=
  js "You are a creative writing assistant helping a writer craft compelling articles from their collected materials.

**CRITICAL: All output must be written in "
  ++ language
  ++ js ".**

## Collected Materials:
"
  ++ materialsContent
  ++ jq "

## Your Task:
Analyze the materials deeply and suggest **5 unique topic angles** for an article. Each suggestion should offer a distinct perspective:

1. **Mainstream Angle**: A conventional, accessible approach that most readers would expect
2. **Contrarian Angle**: A perspective that challenges common assumptions or conventional wisdom
3. **Personal/Emotional Angle**: A deeply personal, story-driven approach
4. **Analytical/Deep-dive Angle**: A thorough, research-oriented perspective
5. **Provocative/Bold Angle**: A daring, attention-grabbing take that sparks discussion

For each suggestion, provide:
- **title**: An engaging, click-worthy title (10-15 words max)
- **description**: A 2-3 sentence description of the angle and why it's compelling
- **outline**: 4-6 key points that structure the article

Respond ONLY with valid JSON (no markdown, no explanation):
[
  {
    `title`: `제목`,
    `description`: `설명`,
    `outline`: [`포인트1`, `포인트2`, `포인트3`, `포인트4`]
  }
]".

(** The synthesizer returns what [JSON.parse] gave: the cast to
    [TopicSuggestion[]] checks nothing, so the elements are JSON values. *)
Definition generateTopicSuggestions (materialsContent : jsstring) : M (list JSON) :=
  let language := or_else (outputLanguage settings) (js "한국어") in
  let prompt := topicsPrompt language materialsContent in
  emit (Progress (js "소재 분석 중...")) ;;
  response <- callAI prompt ;;
  try_catch
    (match match_brackets response with
     | Some jsonMatch =>
         match JSON_parse jsonMatch with
         | POk (JArray (t :: ts)) _ => ret (take 5 (t :: ts))
         | POk _ _ => throw (js "유효한 주제를 생성하지 못했습니다.")
         | PSyntax => throw (js "SyntaxError")
         | PFuel => diverge
         end
     | None => throw (js "유효한 주제를 생성하지 못했습니다.")
     end)
    (λ error,
       emit (ConsoleError [js "Failed to parse topic suggestions:"; error; response]) ;;
       throw (js "주제 제안 파싱 실패: AI 응답 형식이 올바르지 않습니다.")).

Definition personaPrompts (p : Persona) : jsstring :=
  match p with
  | essay => js "깊이 있는 성찰적 에세이 스타일. 문학적 기법과 개인적 통찰을 활용하세요. 은유, 비유를 적절히 사용하고 독자의 감정에 호소하세요."
  | blog => js "친근하고 대화하듯 쓰는 블로그 스타일. 접근하기 쉽지만 내용은 충실하게. 독자에게 직접 말을 거는 듯한 톤을 유지하세요."
  | academic => js "학술적이고 논증적인 스타일. 명확한 논리 구조와 근거 제시. 객관적인 톤을 유지하며 체계적으로 서술하세요."
  | twitter => js "트위터/X 스레드 형식. 짧고 강렬한 문장. 각 트윗은 번호를 매기고, 훅(hook)으로 시작해 긴장감을 유지하세요. 이모지 적절히 활용."
  | newsletter => js "뉴스레터 스타일. 독자에게 가치 있는 인사이트 전달. 핵심 포인트를 명확히 하고, 실행 가능한 조언을 포함하세요."
  | storytelling => js "스토리텔링 스타일. 이야기로 시작해 독자를 끌어들이세요. 구체적인 사례와 생생한 묘사를 활용하세요."
  | custom => js "명확하고 전문적인 스타일. 접근성과 깊이의 균형을 맞추세요."
  end.

Definition lengthGuides (l : ArticleLength) : jsstring :=
  match l with
  | short => js "800-1200자 분량의 간결한 글. 핵심만 명확하게 전달하세요."
  | medium => js "2000-3000자 분량의 적당한 길이. 충분한 설명과 예시를 포함하세요."
  | long => js "4000-5000자 분량의 심층 글. 자세한 분석, 다양한 관점, 풍부한 예시를 포함하세요."
  end.

(** [outline.map((p, i) => `  ${i + 1}. ${p}`)], from index [i] on. *)
Fixpoint numbered (i : N) (outline : list jsstring) : list jsstring :=
  match outline with
  | [] => []
  | p :: t => (js "  " ++ showN (i + 1) ++ js ". " ++ p) :: numbered (i + 1) t
  end.

Definition articlePrompt (language materialsContent : jsstring)
           (options : GenerationOptions) : jsstring :=
  js "당신은 "
  ++ language
  ++ js "로 글을 쓰는 숙련된 작가입니다.

## 글 정보
- **제목**: "
  ++ title (topic options)
  ++ js "
- **접근 방식**: "
  ++ description (topic options)
  ++ js "
- **아웃라인**:
"
  ++ join [10] (numbered 0 (outline (topic options)))
  ++ js "

## 참고 소재
"
  ++ materialsContent
  ++ js "

## 작성 지침
- **스타일**: "
  ++ personaPrompts (persona options)
  ++ js "
- **분량**: "
  ++ lengthGuides (length_ options)
  ++ js "
"
  ++ match customInstructions options with
     | Some (c :: i) => js "- **추가 지시**: " ++ (c :: i)
     | _ => []
     end
  ++ js "

## 중요 규칙
1. 반드시 "
  ++ language
  ++ js "로 작성하세요
2. 수집된 소재의 내용과 작성자의 생각을 자연스럽게 녹여내세요
3. 소재와 모순되는 내용을 추가하지 마세요
4. 작성자의 고유한 관점과 목소리를 유지하세요
5. 아웃라인 구조를 따르되, 자연스러운 흐름을 만드세요
6. 도입부에서 독자의 관심을 사로잡고, 결론에서 여운을 남기세요

지금 바로 완성된 글을 작성하세요:".

Definition generateArticle (materialsContent : jsstring)
           (options : GenerationOptions) : M jsstring :=
  let language := or_else (outputLanguage settings) (js "한국어") in
  let prompt := articlePrompt language materialsContent options in
  emit (Progress (js "글 생성 중...")) ;;
  callAI prompt.

(* ---------------------------------------------------------------- *)
(** *** Article creation *)

(** The character class of the file-name pattern: backslash, slash,
    colon, asterisk, question mark, double quote, the two angle brackets
    and the bar. *)
Definition forbidden (c : N) : bool :=
  (c =? 92) || (c =? 47) || (c =? 58) || (c =? 42) || (c =? 63)
  || (c =? 34) || (c =? 60) || (c =? 62) || (c =? 124).

(** [title.replace(/[...]/g, '-').slice(0, 50)] over that class. *)
Definition baseNameOf (title : jsstring) : jsstring :=
  slice0 50 (map (λ c, if forbidden c then ch "-" else c) title).

Definition pathIn (folder name : jsstring) : jsstring :=
  match folder with
  | [] => name ++ js ".md"
  | _ => folder ++ js "/" ++ name ++ js ".md"
  end.

(** The [while] loop that looks for an unused path, run for at most
    [fuel] tests of a path. *)
Fixpoint unusedPath (fuel : nat) (folder baseName fileName : jsstring)
         (counter : N) : M jsstring :=
  match fuel with
  | O => diverge
  | S fuel' =>
      taken <- getAbstractFileByPath fileName ;;
      match taken with
      | Some _ =>
          unusedPath fuel' folder baseName
                     (pathIn folder (baseName ++ js " " ++ showN counter))
                     (counter + 1)
      | None => ret fileName
      end
  end.

Definition noteBody (topic : TopicSuggestion)
           (materialBasename date content : jsstring) : jsstring :=
  js "# "
  ++ title topic
  ++ js "

> [!info] Generated with Thinking Tool
> Materials: [["
  ++ materialBasename
  ++ js "]]
> Generated: "
  ++ date
  ++ js "

---

"
  ++ content
  ++ js "

---

## Sources

- Materials: [["
  ++ materialBasename
  ++ js "]]
".

(** [createArticleNote(content, topic)]: the path of the file created,
    or [None] for [null].  A vault of [n] entries leaves one of the first
    [n + 1] candidate paths unused, which bounds the loop. *)
Definition createArticleNote (content : jsstring) (topic : TopicSuggestion)
  : M (option jsstring) :=
  match materialNotePath session with
  | None | Some [] => ret None
  | Some notePath =>
      materialFile <- getAbstractFileByPath notePath ;;
      match materialFile with
      | Some (TFile parent _) =>
          let folder := default [] parent in
          let baseName := baseNameOf (title topic) in
          fileName <- (λ w, unusedPath (S (size (vault w))) folder baseName
                                       (pathIn folder baseName) 1 w) ;;
          let materialBasename :=
            default [] (last (split (ch "/") (strip_md notePath))) in
          iso <- toISOString ;;
          let date := default [] (head (split (ch "T") iso)) in
          let fullContent := noteBody topic materialBasename date content in
          try_catch
            (vault_create fileName fullContent ;; ret (Some fileName))
            (λ error,
               emit (ConsoleError [js "Failed to create article note:"; error]) ;;
               ret None)
      | _ => ret None
      end
  end.

End Plugin.

(* ================================================================== *)
(** ** [GenerateArticleModal]: the wizard *)
(* ================================================================== *)

(** The topic chosen: [origin] is its index in [topics] when it is one of
    the suggested objects, which [selectedTopic] then aliases. *)
Record Selection : Type := {
  origin : option nat;
  chosen : TopicSuggestion
}.

Record GenerateArticleModal : Type := {
  step : N;
  topics : list TopicSuggestion;
  selectedTopic : option Selection;
  editedOutline : list jsstring;
  selectedPersona : Persona;
  selectedLength : ArticleLength;
  customInstructionsText : jsstring;
  isLoading : bool;
  loadingStatus : jsstring;
  lastError : option jsstring;
  materialsContent : option jsstring;
  materialCount : N;
  closed : bool
}.

(** The field initialisers of the class. *)
Definition newModal : GenerateArticleModal :=
  {| step := 1; topics := []; selectedTopic := None; editedOutline := [];
     selectedPersona := essay; selectedLength := medium;
     customInstructionsText := []; isLoading := false; loadingStatus := [];
     lastError := None; materialsContent := None; materialCount := 0;
     closed := false |}.

(** Assignments to the fields of [this]. *)
Definition with_step v (m : GenerateArticleModal) : GenerateArticleModal :=
  Build_GenerateArticleModal
    v (topics m) (selectedTopic m) (editedOutline m) (selectedPersona m)
    (selectedLength m) (customInstructionsText m) (isLoading m) (loadingStatus m)
    (lastError m) (materialsContent m) (materialCount m) (closed m).
Definition with_topics v (m : GenerateArticleModal) : GenerateArticleModal :=
  Build_GenerateArticleModal
    (step m) v (selectedTopic m) (editedOutline m) (selectedPersona m)
    (selectedLength m) (customInstructionsText m) (isLoading m) (loadingStatus m)
    (lastError m) (materialsContent m) (materialCount m) (closed m).
Definition with_selectedTopic v (m : GenerateArticleModal) : GenerateArticleModal :=
  Build_GenerateArticleModal
    (step m) (topics m) v (editedOutline m) (selectedPersona m)
    (selectedLength m) (customInstructionsText m) (isLoading m) (loadingStatus m)
    (lastError m) (materialsContent m) (materialCount m) (closed m).
Definition with_editedOutline v (m : GenerateArticleModal) : GenerateArticleModal :=
  Build_GenerateArticleModal
    (step m) (topics m) (selectedTopic m) v (selectedPersona m)
    (selectedLength m) (customInstructionsText m) (isLoading m) (loadingStatus m)
    (lastError m) (materialsContent m) (materialCount m) (closed m).
Definition with_selectedPersona v (m : GenerateArticleModal) : GenerateArticleModal :=
  Build_GenerateArticleModal
    (step m) (topics m) (selectedTopic m) (editedOutline m) v
    (selectedLength m) (customInstructionsText m) (isLoading m) (loadingStatus m)
    (lastError m) (materialsContent m) (materialCount m) (closed m).
Definition with_selectedLength v (m : GenerateArticleModal) : GenerateArticleModal :=
  Build_GenerateArticleModal
    (step m) (topics m) (selectedTopic m) (editedOutline m) (selectedPersona m) v (customInstructionsText m) (isLoading m) (loadingStatus m)
    (lastError m) (materialsContent m) (materialCount m) (closed m).
Definition with_customInstructionsText v (m : GenerateArticleModal) : GenerateArticleModal :=
  Build_GenerateArticleModal
    (step m) (topics m) (selectedTopic m) (editedOutline m) (selectedPersona m)
    (selectedLength m) v (isLoading m) (loadingStatus m)
    (lastError m) (materialsContent m) (materialCount m) (closed m).
Definition with_isLoading v (m : GenerateArticleModal) : GenerateArticleModal :=
  Build_GenerateArticleModal
    (step m) (topics m) (selectedTopic m) (editedOutline m) (selectedPersona m)
    (selectedLength m) (customInstructionsText m) v (loadingStatus m)
    (lastError m) (materialsContent m) (materialCount m) (closed m).
Definition with_loadingStatus v (m : GenerateArticleModal) : GenerateArticleModal :=
  Build_GenerateArticleModal
    (step m) (topics m) (selectedTopic m) (editedOutline m) (selectedPersona m)
    (selectedLength m) (customInstructionsText m) (isLoading m) v
    (lastError m) (materialsContent m) (materialCount m) (closed m).
Definition with_lastError v (m : GenerateArticleModal) : GenerateArticleModal :=
  Build_GenerateArticleModal
    (step m) (topics m) (selectedTopic m) (editedOutline m) (selectedPersona m)
    (selectedLength m) (customInstructionsText m) (isLoading m) (loadingStatus m) v (materialsContent m) (materialCount m) (closed m).
Definition with_materialsContent v (m : GenerateArticleModal) : GenerateArticleModal :=
  Build_GenerateArticleModal
    (step m) (topics m) (selectedTopic m) (editedOutline m) (selectedPersona m)
    (selectedLength m) (customInstructionsText m) (isLoading m) (loadingStatus m)
    (lastError m) v (materialCount m) (closed m).
Definition with_materialCount v (m : GenerateArticleModal) : GenerateArticleModal :=
  Build_GenerateArticleModal
    (step m) (topics m) (selectedTopic m) (editedOutline m) (selectedPersona m)
    (selectedLength m) (customInstructionsText m) (isLoading m) (loadingStatus m)
    (lastError m) (materialsContent m) v (closed m).
Definition with_closed v (m : GenerateArticleModal) : GenerateArticleModal :=
  Build_GenerateArticleModal
    (step m) (topics m) (selectedTopic m) (editedOutline m) (selectedPersona m)
    (selectedLength m) (customInstructionsText m) (isLoading m) (loadingStatus m)
    (lastError m) (materialsContent m) (materialCount m) v.

(** What the user can do to the modal: the controls it renders. *)
Inductive Action : Type :=
| ClickRetry
| ClickClose
| ClickTopic (i : nat)
| ClickCustom (value : jsstring)
| ClickRefresh
| ClickCancel
| ClickNext
| InputOutline (index : nat) (value : jsstring)
| ClickDelete (index : nat)
| ClickAdd
| ClickBack
| ClickPersona (key : Persona)
| ClickLength (key : ArticleLength)
| InputInstructions (value : jsstring)
| ClickGenerate.

(** [x !== null] and [xs.length === 0]. *)
Definition present {A} (x : option A) : bool :=
  match x with Some _ => true | None => false end.
Definition isEmpty {A} (xs : list A) : bool :=
  match xs with [] => true | _ => false end.

(** [countMaterials(content)]. *)
Definition countMaterials (content : option jsstring) : N :=
  match content with
  | None | Some [] => 0
  | Some c => count_quotes 0 c
  end.

(** The last status given to the progress callback since the log had
    [n] events, or [status] when there was none: the callback of the modal
    assigns [loadingStatus] and does nothing else. *)
Definition statusSince (n : nat) (status : jsstring) : M jsstring :=
  λ w, Some (Ok (default status
                   (last (omap (λ e, match e with Progress s => Some s | _ => None end)
                               (drop n (log w))))), w).

Definition logLength : M nat := λ w, Some (Ok (length (log w)), w).

Section Wizard.

Variable settings : ThinkingToolSettings.
Variable session : ThinkingSession.

(** [this.plugin.generateTopicSuggestions] at its declared type
    [Promise<TopicSuggestion[]>]. *)
Variable suggest : jsstring -> M (list TopicSuggestion).

Definition getMaterialsContent : M (option jsstring) :=
  match materialNotePath session with
  | None | Some [] => ret None
  | Some notePath =>
      file <- getAbstractFileByPath notePath ;;
      match file with
      | Some (TFile _ content) => ret (Some content)
      | _ => ret None
      end
  end.

(** The methods below take [render] as a parameter; [render] itself
    ties the knot, on a bound for the depth of the calls. *)
Section Methods.

Variable render : GenerateArticleModal -> M GenerateArticleModal.

Definition loadTopics (this : GenerateArticleModal) : M GenerateArticleModal :=
  match materialsContent this with
  | None | Some [] => ret this
  | Some content =>
      let this := with_loadingStatus (js "소재 분석 중...") (with_isLoading true this) in
      this <- render this ;;
      n <- logLength ;;
      outcome <- settle (suggest content) ;;
      status <- statusSince n (loadingStatus this) ;;
      match outcome with
      | Ok found =>
          render (with_lastError None (with_isLoading false
                   (with_topics found (with_loadingStatus status this))))
      | Throw error =>
          render (with_lastError (Some error) (with_isLoading false
                   (with_loadingStatus status this)))
      end
  end.

Definition renderStep1Topics (this : GenerateArticleModal) : M GenerateArticleModal :=
  if materialCount this <? 1 then ret this
  else match topics this with
       | [] => loadTopics this
       | _ => ret this
       end.

Definition renderStep4Generate (this : GenerateArticleModal) : M GenerateArticleModal :=
  match selectedTopic this, materialsContent this with
  | Some selected, Some (c :: content) =>
      let this := with_loadingStatus (js "글 생성 준비 중...") (with_isLoading true this) in
      this <- render this ;;
      n <- logLength ;;
      try_catch
        (let options :=
           {| topic := chosen selected;
              persona := selectedPersona this;
              length_ := selectedLength this;
              customInstructions :=
                match customInstructionsText this with
                | [] => None
                | i => Some i
                end |} in
         article <- generateArticle settings (c :: content) options ;;
         file <- createArticleNote session article (chosen selected) ;;
         match file with
         | Some path =>
             emit (Noticed (js "✅ 글이 생성되었습니다!")) ;;
             emit (Opened path) ;;
             status <- statusSince n (loadingStatus this) ;;
             ret (with_closed true (with_loadingStatus status this))
         | None => throw (js "노트 생성에 실패했습니다.")
         end)
        (λ error,
           status <- statusSince n (loadingStatus this) ;;
           render (with_step 3 (with_lastError (Some error)
                    (with_isLoading false (with_loadingStatus status this)))))
  | _, _ => ret this
  end.

(** The body of [render]: the loading state draws a spinner and
    stops; steps 2 and 3 only draw. *)
Definition renderBody (this : GenerateArticleModal) : M GenerateArticleModal :=
  if isLoading this then ret this
  else if step this =? 1 then renderStep1Topics this
  else if step this =? 4 then renderStep4Generate this
  else ret this.

End Methods.

Fixpoint render (fuel : nat) (this : GenerateArticleModal) : M GenerateArticleModal :=
  match fuel with
  | O => diverge
  | S fuel' => renderBody (render fuel') this
  end.

Definition onOpen (fuel : nat) (this : GenerateArticleModal) : M GenerateArticleModal :=
  content <- getMaterialsContent ;;
  render fuel (with_materialCount (countMaterials content)
                 (with_materialsContent content this)).

(** The list of topics is drawn once the materials are counted and the
    suggestions are in. *)
Definition topicsShown (this : GenerateArticleModal) : bool :=
  negb (materialCount this <? 1) && negb (isEmpty (topics this)).

(** Whether the last [render] of a modal in this state drew the screen
    of step [k]: the modal is open and not loading. *)
Definition drawn (this : GenerateArticleModal) (k : N) : bool :=
  negb (closed this) && negb (isLoading this) && (step this =? k).

(** Whether the control of an action is on screen, and enabled.  The
    banner with the retry button is drawn before the loading state is
    looked at; every other control belongs to the screen of a step. *)
Definition enabled (this : GenerateArticleModal) (a : Action) : bool :=
  match a with
  | ClickRetry => negb (closed this) && present (lastError this)
  | ClickClose => drawn this 1 && (materialCount this <? 1)
  | ClickTopic i =>
      drawn this 1 && topicsShown this && present (topics this !! i)
  | ClickCustom _ | ClickRefresh | ClickCancel =>
      drawn this 1 && topicsShown this
  | ClickNext =>
      drawn this 1 && topicsShown this && present (selectedTopic this)
      || drawn this 2 && present (selectedTopic this)
  | InputOutline i _ | ClickDelete i =>
      drawn this 2 && present (selectedTopic this)
      && present (editedOutline this !! i)
  | ClickAdd => drawn this 2 && present (selectedTopic this)
  | ClickBack => drawn this 2 && present (selectedTopic this) || drawn this 3
  | ClickPersona key =>
      drawn this 3 && match key with custom => false | _ => true end
  | ClickLength _ | InputInstructions _ | ClickGenerate => drawn this 3
  end.

(** [this.selectedTopic!.outline = [...this.editedOutline]]: the write
    goes to the object, so to the entry of [topics] it aliases too. *)
Definition commitOutline (this : GenerateArticleModal) : GenerateArticleModal :=
  match selectedTopic this with
  | None => this
  | Some selected =>
      let t := {| title := title (chosen selected);
                  description := description (chosen selected);
                  outline := editedOutline this |} in
      let this := with_selectedTopic (Some {| origin := origin selected; chosen := t |}) this in
      match origin selected with
      | Some i => with_topics (<[i := t]> (topics this)) this
      | None => this
      end
  end.

(** The handlers, one per control. *)
Definition handle (fuel : nat) (a : Action) (this : GenerateArticleModal)
  : M GenerateArticleModal :=
  match a with
  | ClickRetry =>
      let cleared := with_lastError None this in
      this' <- render fuel cleared ;;
      if (step cleared =? 1) && isEmpty (topics cleared)
      then loadTopics (render fuel) this'
      else ret this'
  | ClickClose | ClickCancel => ret (with_closed true this)
  | ClickTopic i =>
      match topics this !! i with
      | Some t =>
          render fuel (with_editedOutline (outline t)
                        (with_selectedTopic (Some {| origin := Some i; chosen := t |}) this))
      | None => ret this
      end
  | ClickCustom value =>
      match trim value with
      | [] => emit (Noticed (js "주제를 입력해주세요.")) ;; ret this
      | title =>
          let t := {| title := title;
                      description := js "사용자 직접 입력 주제";
                      outline := [js "서론"; js "본론 1"; js "본론 2"; js "결론"] |} in
          render fuel (with_step 2 (with_editedOutline (outline t)
                        (with_selectedTopic (Some {| origin := None; chosen := t |}) this)))
      end
  | ClickRefresh =>
      render fuel (with_selectedTopic None (with_topics [] this))
  | ClickNext =>
      if step this =? 1 then
        match selectedTopic this with
        | Some _ => render fuel (with_step 2 this)
        | None => ret this
        end
      else render fuel (with_step 3 (commitOutline this))
  | InputOutline index value =>
      ret (with_editedOutline (<[index := value]> (editedOutline this)) this)
  | ClickDelete index =>
      if (2 <? length (editedOutline this))%nat then
        render fuel (with_editedOutline (delete index (editedOutline this)) this)
      else emit (Noticed (js "최소 2개 이상의 항목이 필요합니다.")) ;; ret this
  | ClickAdd =>
      render fuel (with_editedOutline (editedOutline this ++ [js "새 항목"]) this)
  | ClickBack =>
      render fuel (with_step (if step this =? 2 then 1 else 2) this)
  | ClickPersona key => render fuel (with_selectedPersona key this)
  | ClickLength key => render fuel (with_selectedLength key this)
  | InputInstructions value => ret (with_customInstructionsText value this)
  | ClickGenerate => render fuel (with_step 4 this)
  end.

(** A click reaches its handler only if the control is on screen. *)
Definition dispatch (fuel : nat) (a : Action) (this : GenerateArticleModal)
  : M GenerateArticleModal :=
  if enabled this a then handle fuel a this else ret this.

Fixpoint run (fuel : nat) (actions : list Action) (this : GenerateArticleModal)
  : M GenerateArticleModal :=
  match actions with
  | [] => ret this
  | a :: rest => this' <- dispatch fuel a this ;; run fuel rest this'
  end.

End Wizard.

(* ================================================================== *)
(** * Vocabulary of the statements *)
(* ================================================================== *)

(** ** Worlds after an effect *)

Definition logged (es : list Event) (w : World) : World :=
  {| vault := vault w; writable := writable w; network := network w;
     now := now w; log := log w ++ es |}.

Definition answered (w : World) : World :=
  {| vault := vault w; writable := writable w; network := tl (network w);
     now := now w; log := log w |}.

(** The requests sent and the waits made, read off a log. *)
Definition requests (es : list Event) : nat :=
  length (omap (λ e, match e with Requested p _ => Some p | _ => None end) es).

Definition waits (es : list Event) : list N :=
  omap (λ e, match e with Slept ms => Some ms | _ => None end) es.

Section CallAIVocabulary.

Variable settings : ThinkingToolSettings.

Definition keyOf : jsstring :=
  match aiProvider settings with
  | gemini => geminiApiKey settings
  | openai => openaiApiKey settings
  | anthropic => anthropicApiKey settings
  end.

(** A world in which the next request meets outcome [o], and what the
    configured client makes of that outcome. *)
Definition probe (o : HttpOutcome) : World :=
  {| vault := ∅; writable := true; network := [o]; now := []; log := [] |}.

Definition attemptOn (prompt : jsstring) (o : HttpOutcome) : Res jsstring :=
  match callProvider settings prompt (probe o) with
  | Some (r, _) => r
  | None => Throw []
  end.

(** The world after one call of the client. *)
Definition called (prompt : jsstring) (w : World) : World :=
  match keyOf with
  | [] => w
  | _ => answered (logged [Requested (aiProvider settings) prompt] w)
  end.

(** The events of attempt number [attempt], before and after a failed
    call of the client. *)
Definition announced (attempt : N) : list Event :=
  [Progress (js "AI 호출 중... (시도 " ++ showN attempt ++ js "/"
             ++ showN MAX_RETRIES ++ js ")")].

Definition backoff (attempt : N) : list Event :=
  if attempt <? MAX_RETRIES then
    [Progress (js "재시도 대기 중... ("
               ++ showN (RETRY_DELAY * 2 ^ (attempt - 1) / 1000) ++ js "초)");
     Slept (RETRY_DELAY * 2 ^ (attempt - 1))]
  else [].

Definition failed (attempt : N) (error : jsstring) : list Event :=
  ConsoleError [js "AI call attempt " ++ showN attempt ++ js " failed:"; error]
  :: backoff attempt.

(** The outcome that the request number [k] from now will meet. *)
Definition outcome (k : nat) (w : World) : HttpOutcome :=
  hd Pending (drop k (network w)).

(** The world after a turn of the loop of [callAI] that failed. *)
Definition turn (prompt : jsstring) (attempt : N) (error : jsstring)
           (w : World) : World :=
  logged (failed attempt error) (called prompt (logged (announced attempt) w)).

End CallAIVocabulary.

(** The failures the clients raise for a missing or rejected credential,
    and for a response stopped by the safety filter.  The source has no
    error classes: a failure is known by its message. *)
Definition AuthError (e : jsstring) : Prop :=
  e ∈ [js "OpenAI API 키가 설정되지 않았습니다. 설정에서 API 키를 입력해주세요.";
       js "OpenAI API 키가 유효하지 않습니다.";
       js "Anthropic API 키가 설정되지 않았습니다. 설정에서 API 키를 입력해주세요.";
       js "Anthropic API 키가 유효하지 않습니다.";
       js "Gemini API 키가 설정되지 않았습니다. 설정에서 API 키를 입력해주세요.";
       js "Gemini API 키가 유효하지 않거나 요청 형식이 잘못되었습니다."].

Definition ContentBlockedError (e : jsstring) : Prop :=
  e = js "안전 필터에 의해 응답이 차단되었습니다. 다른 소재로 시도해주세요.".

(** ** Fixtures *)

Definition settingsFor (p : Provider) (key : jsstring) : ThinkingToolSettings :=
  {| aiProvider := p; openaiApiKey := key; anthropicApiKey := key;
     geminiApiKey := key; openaiModel := js "gpt-4o";
     anthropicModel := js "claude-sonnet-4-20250514";
     geminiModel := js "gemini-2.5-flash-preview-05-20";
     outputLanguage := js "한국어" |}.

Definition worldWith (files : gmap jsstring Entry) (net : list HttpOutcome) : World :=
  {| vault := files; writable := true; network := net;
     now := js "2026-01-02T03:04:05.678Z"; log := [] |}.

(** A bare response with a status, and the successful responses of
    OpenAI and of Gemini stopped by the safety filter. *)
Definition statusOnly (n : N) : HttpOutcome :=
  Responded {| status := n; text := []; json := None |}.

Definition openaiSays (s : jsstring) : HttpOutcome :=
  Responded {| status := 200; text := [];
               json := Some (JObject [(js "choices",
                         JArray [JObject [(js "message",
                           JObject [(js "content", JString s)])]])]) |}.

Definition geminiBlocked : HttpOutcome :=
  Responded {| status := 200; text := [];
               json := Some (JObject [(js "candidates",
                         JArray [JObject [(js "finishReason",
                                           JString (js "SAFETY"))]])]) |}.


(** ** The parser *)

(** A parser decided, and what it left unread is shorter than what it
    was given. *)
Definition progresses {A} (s : jsstring) (r : PR A) : Prop :=
  match r with
  | POk _ rest => (length rest < length s)%nat
  | PSyntax => True
  | PFuel => False
  end.

(** ** The topic synthesizer *)

(** Following the words of the specification, not the source: the first
    substring that opens with a bracket and ends where that bracket is
    closed, [depth] brackets being open. *)
Fixpoint balancedFrom (depth : nat) (s : jsstring) : option jsstring :=
  match s with
  | [] => None
  | c :: t =>
      if c =? 91 then (c ::.) <$> balancedFrom (S depth) t
      else if c =? 93 then
        match depth with
        | O => None
        | 1%nat => Some [c]
        | S d => (c ::.) <$> balancedFrom d t
        end
      else (c ::.) <$> balancedFrom depth t
  end.

Fixpoint firstBalanced (s : jsstring) : option jsstring :=
  match s with
  | [] => None
  | c :: t =>
      match (if c =? 91 then balancedFrom 1 t else None) with
      | Some m => Some (c :: m)
      | None => firstBalanced t
      end
  end.

(** A response in the format the prompt of the synthesizer asks for: one
    topic, its outline an array of two points. *)
Definition oneTopicResponse : jsstring :=
  jq "[{`title`:`T`,`description`:`D`,`outline`:[`a`,`b`]}]".

Definition parseFailure : jsstring :=
  js "주제 제안 파싱 실패: AI 응답 형식이 올바르지 않습니다.".

(** ** The note writer *)

(** The paths the loop of [createArticleNote] tries, in order. *)
Definition candidate (folder baseName : jsstring) (k : nat) : jsstring :=
  match k with
  | O => pathIn folder baseName
  | S _ => pathIn folder (baseName ++ js " " ++ showN (N.of_nat k))
  end.

(** The world after [vault.create(path, data)] went through. *)
Definition created (path data : jsstring) (w : World) : World :=
  {| vault := <[path := TFile (Some (dirname path)) data]> (vault w);
     writable := writable w; network := network w; now := now w; log := log w |}.

(** [materialBasename] and the date of the note, as [createArticleNote]
    computes them. *)
Definition materialBasenameOf (notePath : jsstring) : jsstring :=
  default [] (last (split (ch "/") (strip_md notePath))).

Definition dateOf (iso : jsstring) : jsstring :=
  default [] (head (split (ch "T") iso)).

(** ** Fixtures for the note writer and the wizard *)

Definition sessionAt (path : jsstring) : ThinkingSession :=
  {| materialNotePath := Some path |}.

(** A material note with two collected quotes. *)
Definition materialsNote : jsstring :=
  js "# Materials from [[Source]]

> [!quote] [[Source]]
> Quote A
>
> **My Thought**: first

> [!quote] [[Source]]
> Quote B
>
> **My Thought**: second

".

Definition notesVault : gmap jsstring Entry :=
  {[ js "Notes/Source - Materials.md" := TFile (Some (js "Notes")) materialsNote;
     js "Notes/A-B- why-.md" := TFile (Some (js "Notes")) (js "an older article") ]}.

Definition topicAB : TopicSuggestion :=
  {| title := js "A/B: why?";
     description := js "D";
     outline := [js "one"; js "two"; js "three"] |}.

(** The options [renderStep4Generate] builds from the state. *)
Definition optionsOf (this : GenerateArticleModal) (selected : Selection)
  : GenerationOptions :=
  {| topic := chosen selected;
     persona := selectedPersona this;
     length_ := selectedLength this;
     customInstructions :=
       match customInstructionsText this with
       | [] => None
       | i => Some i
       end |}.

(** A synthesizer stub: it reports progress and returns the given topics. *)
Definition suggestFixed (found : list TopicSuggestion) (_ : jsstring)
  : M (list TopicSuggestion) :=
  emit (Progress (js "소재 분석 중...")) ;; ret found.

Definition topicShort : TopicSuggestion :=
  {| title := js "Short"; description := js "D"; outline := [js "only"] |}.

(** ** Invariants of the wizard *)

(** A run of the modal came to an end, did not throw, and left a modal
    with property [P]. *)
Definition kept (P : GenerateArticleModal → Prop)
           (r : option (Res GenerateArticleModal * World)) : Prop :=
  match r with
  | Some (Ok m', _) => P m'
  | Some (Throw _, _) => False
  | None => True
  end.

(** Past step 1 a topic is selected. *)
Definition selectedPastStep1 (m : GenerateArticleModal) : Prop :=
  1 < step m → is_Some (selectedTopic m).

(** The count is that of the materials read, and past step 1 there is at
    least one. *)
Definition materialsCounted (m : GenerateArticleModal) : Prop :=
  materialCount m = countMaterials (materialsContent m)
  ∧ (1 < step m → 1 ≤ materialCount m).

(** The outline being edited, and every suggested outline, has at least
    two entries. *)
Definition outlineFloor (m : GenerateArticleModal) : Prop :=
  (is_Some (selectedTopic m) → (2 ≤ length (editedOutline m))%nat)
  ∧ Forall (λ t, (2 ≤ length (outline t))%nat) (topics m).

(** ** Fixtures for runs of the wizard *)

Definition materialsSession : ThinkingSession :=
  sessionAt (js "Notes/Source - Materials.md").

Definition openaiSettings : ThinkingToolSettings :=
  settingsFor openai (js "sk-test").

(* ================================================================== *)
(** * Further vocabulary *)
(* ================================================================== *)

(** ** The retry loop *)

(** The request one call of the configured client sends: none without a
    key, since the client throws before it builds the request. *)
Definition sent (settings : ThinkingToolSettings) (prompt : jsstring) : list Event :=
  match keyOf settings with
  | [] => []
  | _ => [Requested (aiProvider settings) prompt]
  end.

(** What a caller of [callAI] can observe of the world: the events logged
    since the call began. *)
Definition since (w w' : World) : list Event := drop (length (log w)) (log w').

(** The message a client throws when the key of its provider is missing. *)
Definition missingKey (p : Provider) : jsstring :=
  match p with
  | gemini => js "Gemini API 키가 설정되지 않았습니다. 설정에서 API 키를 입력해주세요."
  | openai => js "OpenAI API 키가 설정되지 않았습니다. 설정에서 API 키를 입력해주세요."
  | anthropic => js "Anthropic API 키가 설정되지 않았습니다. 설정에서 API 키를 입력해주세요."
  end.

(** ** The topic synthesizer *)

(** The closing brackets of a text, and the arrays of a JSON value. *)
Definition closings (s : jsstring) : nat := length (filter (λ c, c = 93) s).

Fixpoint arrays (v : JSON) : nat :=
  match v with
  | JArray xs => S (list_sum (map arrays xs))
  | JObject fs => list_sum (map (λ kv, match kv with (_, x) => arrays x end) fs)
  | _ => 0
  end.

(** ** Fixtures *)

(** A world whose vault refuses every write. *)
Definition readOnly (w : World) : World :=
  {| vault := vault w; writable := false; network := network w;
     now := now w; log := log w |}.

(* ================================================================== *)
(** * [ThinkingToolPlugin]: material notes *)
(* ================================================================== *)

(** [vault.read(file)] and [vault.modify(file, data)], on the file at a
    path: a write may fail for reasons of the host. *)
Definition vault_read (path : jsstring) : M jsstring :=
  λ w, match vault w !! path with
       | Some (TFile _ content) => Some (Ok content, w)
       | _ => Some (Throw (js "File not found."), w)
       end.

Definition vault_modify (path data : jsstring) : M unit :=
  λ w, if negb (writable w) then Some (Throw (js "Failed to write file."), w)
       else match vault w !! path with
            | Some (TFile parent _) =>
                Some (Ok (), {| vault := <[path := TFile parent data]> (vault w);
                                writable := writable w; network := network w;
                                now := now w; log := log w |})
            | _ => Some (Throw (js "File not found."), w)
            end.

(** [path.replace(/\.md$/, empty).split("/").pop()]. *)
Definition basenameOf (path : jsstring) : jsstring :=
  default [] (last (split (ch "/") (strip_md path))).

(** The block [appendMaterial] builds for a quote and a thought. *)
Definition materialBlock (quote sourcePath thought : jsstring) : jsstring :=
  js "
> [!quote] [["
  ++ basenameOf sourcePath
  ++ js "]]
> "
  ++ join (js "
> ") (split 10 quote)
  ++ js "
>
> **My Thought**: "
  ++ or_else thought (js "_No thought added_")
  ++ js "

---

".

Section Materials.

Variable session : ThinkingSession.

Definition appendMaterial (quote sourcePath thought : jsstring) : M unit :=
  match materialNotePath session with
  | None | Some [] => ret ()
  | Some notePath =>
      materialFile <- getAbstractFileByPath notePath ;;
      match materialFile with
      | Some (TFile _ _) =>
          currentContent <- vault_read notePath ;;
          vault_modify notePath (currentContent ++ materialBlock quote sourcePath thought) ;;
          emit (Noticed (js "Material added!"))
      | _ => ret ()
      end
  end.

End Materials.

(* ================================================================== *)
(** * [ThoughtModal] *)
(* ================================================================== *)

Module ThoughtModal.

(** The preview of the selected text that [onOpen] draws. *)
Definition preview (selectedText : jsstring) : jsstring :=
  if (200 <? length selectedText)%nat then slice0 200 selectedText ++ js "..."
  else selectedText.

(** [sourcePath.split("/").pop()?.replace(/\.md$/, empty)], shown after
    [From: ]. *)
Definition sourceBasename (sourcePath : jsstring) : jsstring :=
  strip_md (default [] (last (split (ch "/") sourcePath))).

(** The Add button: the modal closes once [appendMaterial] has returned;
    [value] is the text of the thought input.  The result tells whether
    the modal was closed. *)
Definition clickAdd (session : ThinkingSession)
           (selectedText sourcePath value : jsstring) : M bool :=
  appendMaterial session selectedText sourcePath value ;;
  ret true.

End ThoughtModal.

(** A session without a material note. *)
Definition noSession : ThinkingSession := {| materialNotePath := None |}.

(* ================================================================== *)
(** * Properties *)
(* ================================================================== *)

Lemma logged_nil w : logged [] w = w.
Proof. destruct w; unfold logged; simpl. by rewrite app_nil_r. Qed.

Lemma logged_logged es es' w : logged es' (logged es w) = logged (es ++ es') w.
Proof. unfold logged; simpl. by rewrite app_assoc. Qed.

Lemma emit_logged e w : emit e w = Some (Ok (), logged [e] w).
Proof. reflexivity. Qed.

(** ** The string and JSON primitives on examples *)

Example js_korean : js "한국어" = [54620; 44397; 50612].
Proof. vm_compute. reflexivity. Qed.

Example showN_120 : showN 120 = js "120".
Proof. vm_compute. reflexivity. Qed.

Example split_path : split (ch "/") (js "a/b/c") = [js "a"; js "b"; js "c"].
Proof. vm_compute. reflexivity. Qed.

Example strip_md_path : strip_md (js "Notes/x.md") = js "Notes/x".
Proof. vm_compute. reflexivity. Qed.

Example trim_spaces : trim (js "  a b  ") = js "a b".
Proof. vm_compute. reflexivity. Qed.

Example JSON_parse_nested :
  JSON_parse (jq "[{ `a` : [1, true, null], `b`: `xA\n` }, -1.5e3]")
  = POk (JArray [JObject [(js "a", JArray [JNumber (js "1"); JBool true; JNull]);
                          (js "b", JString (js "xA" ++ [10]))];
                 JNumber (js "-1.5e3")]) [].
Proof. vm_compute. reflexivity. Qed.

Example JSON_parse_unclosed : JSON_parse (js "[1, [2]") = PSyntax.
Proof. vm_compute. reflexivity. Qed.

Example match_brackets_lazy :
  match_brackets (js "xx [a [b] c] d") = Some (js "[a [b]").
Proof. vm_compute. reflexivity. Qed.

Example countMaterials_two :
  countMaterials (Some (js "> [!quote] a >[!quote] >  x [!quote]")) = 2.
Proof. vm_compute. reflexivity. Qed.

(** ** The retry wrapper *)

Section CallAI.

Variable settings : ThinkingToolSettings.

Lemma callProvider_spec prompt w :
  callProvider settings prompt w
  = Some (attemptOn settings prompt (hd Pending (network w)),
          called settings prompt w).
Proof.
  unfold attemptOn, called, keyOf, callProvider,
    callGeminiWithTimeout, callOpenAIWithTimeout, callAnthropicWithTimeout.
  destruct (aiProvider settings); simpl.
  all: match goal with |- context [match ?k with [] => _ | _ :: _ => _ end] =>
         destruct k; [reflexivity|] end.
  all: unfold bind, withTimeout, requestUrl, bind, emit; simpl.
  all: destruct (hd Pending (network w)) as [r| |]; simpl; try reflexivity.
  all: unfold throw, ret.
  all: repeat case_match; reflexivity.
Qed.

Lemma attemptOn_no_key prompt o :
  keyOf settings = [] → ∃ e, attemptOn settings prompt o = Throw e.
Proof.
  unfold attemptOn, keyOf, callProvider,
    callGeminiWithTimeout, callOpenAIWithTimeout, callAnthropicWithTimeout.
  destruct (aiProvider settings); intros ->; eauto.
Qed.

Lemma called_with_key prompt w :
  keyOf settings ≠ [] →
  called settings prompt w
  = answered (logged [Requested (aiProvider settings) prompt] w).
Proof. unfold called. by destruct (keyOf settings). Qed.

(** One turn of the loop: a result is returned at once, an error of any
    kind is logged, waited out and followed by the next turn. *)
Lemma callAI_from_step k attempt lastError prompt w :
  callAI_from settings (S k) attempt lastError prompt w
  = match attemptOn settings prompt (hd Pending (network w)) with
    | Ok r => Some (Ok r, called settings prompt (logged (announced attempt) w))
    | Throw e =>
        callAI_from settings k (attempt + 1) (Some e) prompt
          (logged (failed attempt e)
             (called settings prompt (logged (announced attempt) w)))
    end.
Proof.
  cbn [callAI_from]. unfold try_catch at 1, bind at 1.
  rewrite emit_logged, callProvider_spec. cbn [network logged].
  destruct (attemptOn settings prompt (hd Pending (network w))) as [r|e];
    [reflexivity|].
  unfold failed, backoff, bind at 1. rewrite emit_logged.
  unfold bind at 1. destruct (attempt <? MAX_RETRIES).
  - unfold bind at 1. rewrite emit_logged. unfold sleep. rewrite emit_logged.
    by rewrite !logged_logged.
  - reflexivity.
Qed.

Lemma callAI_from_done attempt lastError prompt w :
  callAI_from settings 0 attempt lastError prompt w
  = Some (Throw (exhausted lastError), w).
Proof. reflexivity. Qed.

Lemma attemptOn_next prompt w :
  attemptOn settings prompt (hd Pending (network (called settings prompt w)))
  = attemptOn settings prompt (hd Pending (tl (network w))).
Proof.
  unfold called. destruct (keyOf settings) eqn:Hk; [|reflexivity].
  unfold attemptOn, callProvider, keyOf,
    callGeminiWithTimeout, callOpenAIWithTimeout, callAnthropicWithTimeout in *.
  destruct (aiProvider settings); rewrite Hk; reflexivity.
Qed.

Lemma outcome_turn prompt attempt e k w :
  attemptOn settings prompt (outcome k (turn settings prompt attempt e w))
  = attemptOn settings prompt (outcome (S k) w).
Proof.
  unfold outcome, turn, called. cbn [network logged].
  destruct (keyOf settings) eqn:Hk.
  - unfold attemptOn, callProvider, keyOf,
      callGeminiWithTimeout, callOpenAIWithTimeout, callAnthropicWithTimeout in *.
    destruct (aiProvider settings); rewrite Hk; reflexivity.
  - cbn [network answered logged].
    destruct (network w); simpl; [by destruct k | reflexivity].
Qed.

(** A failed turn, whatever the failure, leads to the next turn. *)
Lemma callAI_from_failure k attempt lastError prompt w e :
  attemptOn settings prompt (outcome 0 w) = Throw e →
  callAI_from settings (S k) attempt lastError prompt w
  = callAI_from settings k (attempt + 1) (Some e) prompt (turn settings prompt attempt e w).
Proof.
  intros He. rewrite callAI_from_step.
  unfold outcome in He. rewrite drop_0 in He. by rewrite He.
Qed.

Lemma callAI_from_success k attempt lastError prompt w r :
  attemptOn settings prompt (outcome 0 w) = Ok r →
  callAI_from settings (S k) attempt lastError prompt w
  = Some (Ok r, called settings prompt (logged (announced attempt) w)).
Proof.
  intros He. rewrite callAI_from_step.
  unfold outcome in He. rewrite drop_0 in He. by rewrite He.
Qed.

Lemma callAI_three_failures prompt w e1 e2 e3 :
  attemptOn settings prompt (outcome 0 w) = Throw e1 →
  attemptOn settings prompt (outcome 1 w) = Throw e2 →
  attemptOn settings prompt (outcome 2 w) = Throw e3 →
  callAI settings prompt w
  = Some (Throw (exhausted (Some e3)),
          turn settings prompt 3 e3 (turn settings prompt 2 e2 (turn settings prompt 1 e1 w))).
Proof.
  intros H1 H2 H3. unfold callAI.
  change (N.to_nat MAX_RETRIES) with 3%nat.
  rewrite (callAI_from_failure _ _ _ _ _ e1) by done.
  rewrite (callAI_from_failure _ _ _ _ _ e2) by (by rewrite outcome_turn).
  rewrite (callAI_from_failure _ _ _ _ _ e3) by (by rewrite !outcome_turn).
  reflexivity.
Qed.

End CallAI.

Lemma waits_app es es' : waits (es ++ es') = waits es ++ waits es'.
Proof. apply omap_app. Qed.

Lemma requests_app es es' : (requests (es ++ es') = requests es + requests es')%nat.
Proof. unfold requests. by rewrite omap_app, length_app. Qed.

Lemma log_turn settings prompt attempt e w :
  keyOf settings ≠ [] →
  log (turn settings prompt attempt e w)
  = log w ++ announced attempt ++ [Requested (aiProvider settings) prompt]
      ++ failed attempt e.
Proof.
  intros Hk. unfold turn. rewrite called_with_key by done.
  cbn [log logged answered]. by rewrite <- !app_assoc.
Qed.

Lemma network_turn settings prompt attempt e w :
  keyOf settings ≠ [] →
  network (turn settings prompt attempt e w) = drop 1 (network w).
Proof.
  intros Hk. unfold turn. rewrite called_with_key by done.
  cbn [network logged answered]. by destruct (network w).
Qed.

Lemma vault_turn settings prompt attempt e w :
  vault (turn settings prompt attempt e w) = vault w.
Proof. unfold turn, called. by destruct (keyOf settings). Qed.

(** C2 (retry law).  When the provider fails on attempts 1 and 2, with any
    error, and answers on attempt 3, [callAI] returns the answer of attempt
    3 after exactly three requests, with exactly two waits between them, of
    1000 ms and then 2000 ms. *)
Theorem callAI_retry_law settings prompt w e1 e2 r :
  attemptOn settings prompt (outcome 0 w) = Throw e1 →
  attemptOn settings prompt (outcome 1 w) = Throw e2 →
  attemptOn settings prompt (outcome 2 w) = Ok r →
  ∃ w', callAI settings prompt w = Some (Ok r, w')
        ∧ log w' = log w
                   ++ announced 1 ++ [Requested (aiProvider settings) prompt]
                   ++ failed 1 e1
                   ++ announced 2 ++ [Requested (aiProvider settings) prompt]
                   ++ failed 2 e2
                   ++ announced 3 ++ [Requested (aiProvider settings) prompt]
        ∧ requests (drop (length (log w)) (log w')) = 3%nat
        ∧ waits (drop (length (log w)) (log w'))
          = [RETRY_DELAY * 2 ^ 0; RETRY_DELAY * 2 ^ 1]
        ∧ waits (drop (length (log w)) (log w')) = [1000; 2000]
        ∧ network w' = drop 3 (network w)
        ∧ vault w' = vault w.
Proof.
  intros H1 H2 H3.
  assert (Hk : keyOf settings ≠ []).
  { intros Hk. destruct (attemptOn_no_key settings prompt (outcome 2 w) Hk).
    congruence. }
  eexists. split.
  { unfold callAI. change (N.to_nat MAX_RETRIES) with 3%nat.
    rewrite (callAI_from_failure _ _ _ _ _ _ e1) by done.
    rewrite (callAI_from_failure _ _ _ _ _ _ e2) by (by rewrite outcome_turn).
    rewrite (callAI_from_success _ _ _ _ _ _ r) by (by rewrite !outcome_turn).
    reflexivity. }
  assert (Hlog : ∀ w0 : World,
    log (called settings prompt (logged (announced 3) w0))
    = log w0 ++ announced 3 ++ [Requested (aiProvider settings) prompt]).
  { intros w0. rewrite called_with_key by done.
    cbn [log logged answered]. by rewrite <- app_assoc. }
  rewrite Hlog, !log_turn by done.
  rewrite <- !app_assoc.
  rewrite !drop_app_length.
  repeat split; try reflexivity.
  - rewrite called_with_key by done. cbn [network logged answered].
    rewrite !network_turn by done.
    rewrite !drop_drop. by destruct (network w) as [|? [|? [|? ?]]].
  - unfold called. destruct (keyOf settings); cbn [vault logged answered];
      by rewrite !vault_turn.
Qed.


Lemma callAI_retry_law_witness :
  let settings := settingsFor openai (js "sk-test") in
  let w := worldWith ∅ [Pending; statusOnly 500; openaiSays (js "draft")] in
  attemptOn settings (js "prompt") (outcome 0 w) = Throw (js "요청 시간 초과 (60초)")
  ∧ attemptOn settings (js "prompt") (outcome 1 w)
    = Throw (js "OpenAI API 오류 (500): 알 수 없는 오류")
  ∧ attemptOn settings (js "prompt") (outcome 2 w) = Ok (js "draft")
  ∧ ∃ w', callAI settings (js "prompt") w = Some (Ok (js "draft"), w')
          ∧ requests (drop (length (log w)) (log w')) = 3%nat
          ∧ waits (drop (length (log w)) (log w')) = [1000; 2000].
Proof.
  intros settings w.
  assert (H1 : attemptOn settings (js "prompt") (outcome 0 w)
               = Throw (js "요청 시간 초과 (60초)")) by (vm_compute; reflexivity).
  assert (H2 : attemptOn settings (js "prompt") (outcome 1 w)
               = Throw (js "OpenAI API 오류 (500): 알 수 없는 오류"))
    by (vm_compute; reflexivity).
  assert (H3 : attemptOn settings (js "prompt") (outcome 2 w) = Ok (js "draft"))
    by (vm_compute; reflexivity).
  split; [exact H1|]. split; [exact H2|]. split; [exact H3|].
  destruct (callAI_retry_law settings (js "prompt") w _ _ _ H1 H2 H3)
    as (w' & Hcall & _ & Hreq & _ & Hwait & _).
  exists w'. split; [exact Hcall|]. split; [exact Hreq | exact Hwait].
Defined.

Lemma exhausted_message e :
  exhausted (Some e) = js "AI 호출 실패 (3회 시도): " ++ or_else e (js "알 수 없는 오류").
Proof. vm_compute. reflexivity. Qed.

(** C4 (exhausted retries).  When all three attempts fail, [callAI] raises
    one error; its message is the fixed prefix followed by the message of
    the error of attempt 3 (by a fixed text when that message is empty). *)
Theorem callAI_exhausted settings prompt w e1 e2 e3 :
  attemptOn settings prompt (outcome 0 w) = Throw e1 →
  attemptOn settings prompt (outcome 1 w) = Throw e2 →
  attemptOn settings prompt (outcome 2 w) = Throw e3 →
  ∃ w', callAI settings prompt w = Some (Throw (exhausted (Some e3)), w')
        ∧ exhausted (Some e3)
          = js "AI 호출 실패 (3회 시도): " ++ or_else e3 (js "알 수 없는 오류")
        ∧ (e3 ≠ [] → exhausted (Some e3) = js "AI 호출 실패 (3회 시도): " ++ e3)
        ∧ vault w' = vault w.
Proof.
  intros H1 H2 H3. eexists. split; [exact (callAI_three_failures _ _ _ _ _ _ H1 H2 H3)|].
  split; [apply exhausted_message|]. split.
  - intros Hne. rewrite exhausted_message. by destruct e3.
  - rewrite !vault_turn. reflexivity.
Qed.

Lemma callAI_exhausted_witness :
  let settings := settingsFor anthropic (js "sk-test") in
  let w := worldWith ∅ [statusOnly 429; Rejected (js "net::ERR_FAILED"); statusOnly 503] in
  attemptOn settings (js "prompt") (outcome 0 w)
  = Throw (js "Anthropic API 사용량 한도 초과. 잠시 후 다시 시도해주세요.")
  ∧ attemptOn settings (js "prompt") (outcome 1 w) = Throw (js "net::ERR_FAILED")
  ∧ attemptOn settings (js "prompt") (outcome 2 w)
    = Throw (js "Anthropic API 오류 (503): 알 수 없는 오류")
  ∧ ∃ w', callAI settings (js "prompt") w
          = Some (Throw (exhausted (Some (js "Anthropic API 오류 (503): 알 수 없는 오류"))), w')
          ∧ exhausted (Some (js "Anthropic API 오류 (503): 알 수 없는 오류"))
            = js "AI 호출 실패 (3회 시도): Anthropic API 오류 (503): 알 수 없는 오류".
Proof.
  intros settings w.
  assert (H1 : attemptOn settings (js "prompt") (outcome 0 w)
               = Throw (js "Anthropic API 사용량 한도 초과. 잠시 후 다시 시도해주세요."))
    by (vm_compute; reflexivity).
  assert (H2 : attemptOn settings (js "prompt") (outcome 1 w)
               = Throw (js "net::ERR_FAILED")) by (vm_compute; reflexivity).
  assert (H3 : attemptOn settings (js "prompt") (outcome 2 w)
               = Throw (js "Anthropic API 오류 (503): 알 수 없는 오류"))
    by (vm_compute; reflexivity).
  split; [exact H1|]. split; [exact H2|]. split; [exact H3|].
  destruct (callAI_exhausted settings (js "prompt") w _ _ _ H1 H2 H3)
    as (w' & Hcall & _).
  exists w'. split; [exact Hcall|]. vm_compute. reflexivity.
Defined.

(** C1, as the code has it.  An [AuthError] or a [ContentBlockedError] on
    the first attempt is handled as any other failure: it is logged, a wait
    of 1000 ms follows and the loop goes on with attempt 2; if attempts 2
    and 3 fail as well, the caller gets the aggregated error of the three
    attempts. *)
Theorem callAI_retries_auth_and_blocked settings prompt w e1 :
  attemptOn settings prompt (outcome 0 w) = Throw e1 →
  AuthError e1 ∨ ContentBlockedError e1 →
  callAI settings prompt w
  = callAI_from settings 2 2 (Some e1) prompt (turn settings prompt 1 e1 w)
  ∧ waits (failed 1 e1) = [1000]
  ∧ ∀ e2 e3,
      attemptOn settings prompt (outcome 1 w) = Throw e2 →
      attemptOn settings prompt (outcome 2 w) = Throw e3 →
      callAI settings prompt w
      = Some (Throw (exhausted (Some e3)),
              turn settings prompt 3 e3
                (turn settings prompt 2 e2 (turn settings prompt 1 e1 w))).
Proof.
  intros H1 _. split; [|split].
  - unfold callAI. change (N.to_nat MAX_RETRIES) with 3%nat.
    exact (callAI_from_failure _ _ _ _ _ _ e1 H1).
  - reflexivity.
  - intros e2 e3 H2 H3. exact (callAI_three_failures _ _ _ _ _ _ H1 H2 H3).
Qed.

Lemma callAI_retries_auth_and_blocked_witness :
  let settings := settingsFor openai [] in
  let w := worldWith ∅ [] in
  let e := js "OpenAI API 키가 설정되지 않았습니다. 설정에서 API 키를 입력해주세요." in
  attemptOn settings (js "prompt") (outcome 0 w) = Throw e
  ∧ (AuthError e ∨ ContentBlockedError e)
  ∧ callAI settings (js "prompt") w
    = callAI_from settings 2 2 (Some e) (js "prompt") (turn settings (js "prompt") 1 e w).
Proof.
  intros settings w e.
  assert (H1 : attemptOn settings (js "prompt") (outcome 0 w) = Throw e)
    by (vm_compute; reflexivity).
  assert (H2 : AuthError e ∨ ContentBlockedError e).
  { left. unfold AuthError, e. apply list_elem_of_here. }
  split; [exact H1|]. split; [exact H2|].
  exact (proj1 (callAI_retries_auth_and_blocked settings (js "prompt") w e H1 H2)).
Defined.

(** C1 fails on the code: with a rejected key (status 401 on every request)
    three requests are sent, with waits of 1000 ms and 2000 ms, and the
    caller gets the aggregated error; a response stopped by the safety
    filter of Gemini is retried in the same way; a missing key sends no
    request and still costs the two waits. *)
Lemma callAI_auth_counterexample :
  (let settings := settingsFor openai (js "sk-bad") in
   let w := worldWith ∅ [statusOnly 401; statusOnly 401; statusOnly 401] in
   AuthError (js "OpenAI API 키가 유효하지 않습니다.")
   ∧ attemptOn settings (js "prompt") (outcome 0 w)
     = Throw (js "OpenAI API 키가 유효하지 않습니다.")
   ∧ ∃ w', callAI settings (js "prompt") w
           = Some (Throw (js "AI 호출 실패 (3회 시도): OpenAI API 키가 유효하지 않습니다."), w')
           ∧ requests (log w') = 3%nat
           ∧ waits (log w') = [1000; 2000])
  ∧ (let settings := settingsFor gemini (js "key") in
     let w := worldWith ∅ [geminiBlocked; geminiBlocked; geminiBlocked] in
     ContentBlockedError (js "안전 필터에 의해 응답이 차단되었습니다. 다른 소재로 시도해주세요.")
     ∧ attemptOn settings (js "prompt") (outcome 0 w)
       = Throw (js "안전 필터에 의해 응답이 차단되었습니다. 다른 소재로 시도해주세요.")
     ∧ ∃ w', callAI settings (js "prompt") w
             = Some (Throw (js "AI 호출 실패 (3회 시도): 안전 필터에 의해 응답이 차단되었습니다. 다른 소재로 시도해주세요."), w')
             ∧ requests (log w') = 3%nat
             ∧ waits (log w') = [1000; 2000])
  ∧ (let settings := settingsFor openai [] in
     ∃ w', callAI settings (js "prompt") (worldWith ∅ [])
           = Some (Throw (js "AI 호출 실패 (3회 시도): OpenAI API 키가 설정되지 않았습니다. 설정에서 API 키를 입력해주세요."), w')
           ∧ requests (log w') = 0%nat
           ∧ waits (log w') = [1000; 2000]).
Proof.
  split; [|split].
  - split; [apply list_elem_of_further, list_elem_of_here|].
    split; [vm_compute; reflexivity|].
    eexists. split; [vm_compute; reflexivity|]. split; vm_compute; reflexivity.
  - split; [reflexivity|].
    split; [vm_compute; reflexivity|].
    eexists. split; [vm_compute; reflexivity|]. split; vm_compute; reflexivity.
  - eexists. split; [vm_compute; reflexivity|]. split; vm_compute; reflexivity.
Qed.

(** ** The parser *)

Lemma skip_ws_length s : (length (skip_ws s) ≤ length s)%nat.
Proof.
  induction s as [|c t IH]; simpl; [lia|].
  destruct (is_ws c); simpl; lia.
Qed.

Lemma next_shorter s c t : next s = Some (c, t) → (length t < length s)%nat.
Proof.
  unfold next. pose proof (skip_ws_length s) as H.
  destruct (skip_ws s) as [|c' t']; [done|].
  intros [= _ <-]. simpl in H. lia.
Qed.

Lemma closes_shorter c s t : closes c s = Some t → (length t < length s)%nat.
Proof.
  unfold closes. destruct (next s) as [[c' t']|] eqn:Hn; [|done].
  destruct (c' =? c); [|done]. intros [= <-]. by eapply next_shorter.
Qed.

Lemma strip_prefix_length p s r :
  strip_prefix p s = Some r → (length r + length p = length s)%nat.
Proof.
  revert s. induction p as [|a p IH]; intros [|b s]; simpl; try done.
  - intros [= <-]. simpl. lia.
  - intros [= <-]. simpl. lia.
  - destruct (a =? b); [|done]. intros H%IH. lia.
Qed.

Lemma prepend_shorter c o x r n :
  prepend c o = Some (x, r) →
  (∀ x' r', o = Some (x', r') → (length r' < n)%nat) →
  (length r < n)%nat.
Proof.
  destruct o as [[x' r']|]; simpl; [|done].
  intros [= _ <-] H. by eapply H.
Qed.

Lemma parse_chars_shorter s x r :
  parse_chars s = Some (x, r) → (length r < length s)%nat.
Proof.
  remember (length s) as n eqn:Hn. revert s x r Hn.
  induction n as [n IH] using lt_wf_ind. intros s x r Hn.
  destruct s as [|c t]; [done|]. cbn [parse_chars].
  destruct (c =? 34).
  { intros [= _ <-]. subst n. simpl. lia. }
  destruct (c =? 92).
  - destruct t as [|e t']; [done|].
    destruct (escape e).
    + intros H. eapply prepend_shorter; [exact H|].
      intros x' r' H'. subst n.
      pose proof (IH (length t') ltac:(simpl; lia) t' x' r' eq_refl H'). simpl. lia.
    + destruct (e =? 117); [|done].
      destruct t' as [|h1 [|h2 [|h3 [|h4 t4]]]]; try done.
      destruct (hex_val h1), (hex_val h2), (hex_val h3), (hex_val h4); try done.
      intros H. eapply prepend_shorter; [exact H|].
      intros x' r' H'. subst n.
      pose proof (IH (length t4) ltac:(simpl; lia) t4 x' r' eq_refl H'). simpl. lia.
  - destruct (c <? 32); [done|].
    intros H. eapply prepend_shorter; [exact H|].
    intros x' r' H'. subst n.
    pose proof (IH (length t) ltac:(simpl; lia) t x' r' eq_refl H'). simpl. lia.
Qed.

Lemma digits_length s d r : digits s = (d, r) → (length d + length r = length s)%nat.
Proof.
  revert d r. induction s as [|c t IH]; intros d r; simpl.
  - intros [= <- <-]. reflexivity.
  - destruct (is_digit c).
    + destruct (digits t) as [d' r'] eqn:Ht. intros [= <- <-].
      specialize (IH d' r' eq_refl). simpl. lia.
    + intros [= <- <-]. simpl. lia.
Qed.

Lemma sign_of_length s sign s1 :
  sign_of s = (sign, s1) → (length s1 ≤ length s)%nat.
Proof.
  unfold sign_of. destruct s as [|c t]; [by intros [= _ <-]|].
  destruct (c =? 45); intros [= _ <-]; simpl; lia.
Qed.

Lemma integer_shorter s int r :
  integer s = Some (int, r) → (length r < length s)%nat.
Proof.
  unfold integer. destruct (digits s) as [d r'] eqn:Hd.
  apply digits_length in Hd.
  destruct d as [|c [|c' d]]; [done| |].
  - intros [= _ <-]. simpl in Hd. lia.
  - destruct (c =? 48); [done|]. intros [= _ <-]. simpl in Hd. lia.
Qed.

Lemma fraction_length s f r :
  fraction s = Some (f, r) → (length r ≤ length s)%nat.
Proof.
  unfold fraction. destruct s as [|c t]; [by intros [= _ <-]|].
  destruct (c =? 46); [|by intros [= _ <-]].
  destruct (digits t) as [d r'] eqn:Hd. apply digits_length in Hd.
  destruct d; [done|]. intros [= _ <-]. simpl in *. lia.
Qed.

Lemma exponent_length s x r :
  exponent s = Some (x, r) → (length r ≤ length s)%nat.
Proof.
  unfold exponent. destruct s as [|e t]; [by intros [= _ <-]|].
  destruct ((e =? 101) || (e =? 69)); [|by intros [= _ <-]].
  destruct (match t with
            | c :: u => if (c =? 43) || (c =? 45) then ([c], u) else ([], t)
            | [] => ([], t)
            end) as [sg t'] eqn:Hsg.
  assert (Ht : (length t' ≤ length t)%nat).
  { destruct t as [|c u]; [by injection Hsg as _ <-|].
    destruct ((c =? 43) || (c =? 45)); injection Hsg as _ <-; simpl; lia. }
  destruct (digits t') as [d r'] eqn:Hd. apply digits_length in Hd.
  destruct d; [done|]. intros [= _ <-]. simpl in *. lia.
Qed.

Lemma parse_number_shorter s x r :
  parse_number s = Some (x, r) → (length r < length s)%nat.
Proof.
  unfold parse_number.
  destruct (sign_of s) as [sign s1] eqn:H1. apply sign_of_length in H1.
  destruct (integer s1) as [[int s2]|] eqn:H2; [|done]. apply integer_shorter in H2.
  destruct (fraction s2) as [[f s3]|] eqn:H3; [|done]. apply fraction_length in H3.
  destruct (exponent s3) as [[e s4]|] eqn:H4; [|done]. apply exponent_length in H4.
  intros [= _ <-]. lia.
Qed.

Lemma lift_opt_progresses {A B} (o : option (A * jsstring)) (f : A → B) s :
  (∀ a r, o = Some (a, r) → (length r < length s)%nat) →
  progresses s (lift_opt o f).
Proof. destruct o as [[a r]|]; simpl; [|done]. intros H. by eapply H. Qed.

Lemma pr_map_progresses {A B} (f : A → B) (r : PR A) s t :
  progresses t r → (length t ≤ length s)%nat → progresses s (pr_map f r).
Proof. destruct r; simpl; [lia|done|done]. Qed.

(** With the fuel [JSON_parse] gives, the three parsers decide. *)
Lemma parsers_progress fuel :
  (∀ s, (2 * length s + 2 ≤ fuel)%nat → progresses s (parse_value fuel s))
  ∧ (∀ s, (2 * length s + 3 ≤ fuel)%nat → progresses s (parse_elems fuel s))
  ∧ (∀ s, (2 * length s + 3 ≤ fuel)%nat → progresses s (parse_members fuel s)).
Proof.
  induction fuel as [|f (IHv & IHe & IHm)].
  { repeat split; intros s Hs; lia. }
  split; [|split]; intros s Hs.
  - cbn [parse_value].
    destruct (next s) as [[c t]|] eqn:Hn; [|done].
    apply next_shorter in Hn.
    destruct (c =? 91).
    { destruct (closes 93 t) as [t'|] eqn:Hc.
      - apply closes_shorter in Hc. simpl. lia.
      - eapply pr_map_progresses; [apply IHe; lia | lia]. }
    destruct (c =? 123).
    { destruct (closes 125 t) as [t'|] eqn:Hc.
      - apply closes_shorter in Hc. simpl. lia.
      - eapply pr_map_progresses; [apply IHm; lia | lia]. }
    destruct (c =? 34).
    { apply lift_opt_progresses. intros a r H%parse_chars_shorter. lia. }
    destruct ((c =? 45) || is_digit c).
    { apply lift_opt_progresses. intros a r H%parse_number_shorter.
      simpl in H. lia. }
    destruct (strip_prefix (js "true") (c :: t)) as [r|] eqn:H1.
    { apply strip_prefix_length in H1. simpl in *. lia. }
    destruct (strip_prefix (js "false") (c :: t)) as [r|] eqn:H2.
    { apply strip_prefix_length in H2. simpl in *. lia. }
    destruct (strip_prefix (js "null") (c :: t)) as [r|] eqn:H3; [|done].
    apply strip_prefix_length in H3. simpl in *. lia.
  - cbn [parse_elems].
    pose proof (IHv s ltac:(lia)) as Hv.
    destruct (parse_value f s) as [v r| |]; [|done|done]. simpl in Hv.
    destruct (closes 44 r) as [r'|] eqn:Hc.
    { apply closes_shorter in Hc.
      eapply pr_map_progresses; [apply IHe; lia | lia]. }
    destruct (closes 93 r) as [r'|] eqn:Hc'; [|done].
    apply closes_shorter in Hc'. simpl. lia.
  - cbn [parse_members].
    destruct (closes 34 s) as [t|] eqn:H1; [|done]. apply closes_shorter in H1.
    destruct (parse_chars t) as [[k r]|] eqn:H2; [|done].
    apply parse_chars_shorter in H2.
    destruct (closes 58 r) as [r1|] eqn:H3; [|done]. apply closes_shorter in H3.
    pose proof (IHv r1 ltac:(lia)) as Hv.
    destruct (parse_value f r1) as [v r2| |]; [|done|done]. simpl in Hv.
    destruct (closes 44 r2) as [r3|] eqn:H4.
    { apply closes_shorter in H4.
      eapply pr_map_progresses; [apply IHm; lia | lia]. }
    destruct (closes 125 r2) as [r3|] eqn:H5; [|done].
    apply closes_shorter in H5. simpl. lia.
Qed.

(** [JSON.parse] always decides: a value or a [SyntaxError]. *)
Theorem JSON_parse_decides s : JSON_parse s ≠ PFuel.
Proof.
  unfold JSON_parse.
  pose proof (proj1 (parsers_progress (2 * length s + 2)) s ltac:(lia)) as H.
  destruct (parse_value (2 * length s + 2) s) as [v r| |]; [|done|done].
  by destruct (skip_ws r).
Qed.

(** ** The topic synthesizer *)

(** The text the pattern of the synthesizer matches opens with a bracket,
    ends with a bracket and has no closing bracket in between: it is cut at
    the first closing bracket, whatever was open. *)
Lemma until_close_shape s m :
  until_close s = Some m → ∃ body, m = body ++ [93] ∧ 93 ∉ body.
Proof.
  revert m. induction s as [|c t IH]; intros m; simpl; [done|].
  destruct (c =? 93) eqn:Hc.
  - intros [= <-]. apply N.eqb_eq in Hc as ->. exists []. split; [done|].
    apply not_elem_of_nil.
  - destruct (until_close t) as [m'|]; simpl; [|done].
    intros [= <-]. destruct (IH m' eq_refl) as (body & -> & Hb).
    exists (c :: body). split; [done|].
    apply N.eqb_neq in Hc. rewrite elem_of_cons.
    intros [Heq|Hin]; [congruence | done].
Qed.

Lemma match_brackets_shape s m :
  match_brackets s = Some m → ∃ body, m = 91 :: body ++ [93] ∧ 93 ∉ body.
Proof.
  induction s as [|c t IH]; simpl; [done|].
  destruct (c =? 91) eqn:Hc.
  - destruct (until_close t) as [m'|] eqn:Hm; [|exact IH].
    intros [= <-]. apply N.eqb_eq in Hc as ->.
    destruct (until_close_shape _ _ Hm) as (body & -> & Hb). eauto.
  - exact IH.
Qed.

(** C3 fails on the code.  On a response in the very format the prompt asks
    for, the first balanced bracketed substring is the whole response and
    parses to an array of one topic; the pattern of the source stops at the
    closing bracket of the outline, [JSON.parse] rejects what it matched,
    and the synthesizer throws its parse failure. *)
Theorem generateTopicSuggestions_nested_outline :
  firstBalanced oneTopicResponse = Some oneTopicResponse
  ∧ JSON_parse oneTopicResponse
    = POk (JArray [JObject [(js "title", JString (js "T"));
                            (js "description", JString (js "D"));
                            (js "outline", JArray [JString (js "a"); JString (js "b")])]]) []
  ∧ match_brackets oneTopicResponse
    = Some (jq "[{`title`:`T`,`description`:`D`,`outline`:[`a`,`b`]")
  ∧ JSON_parse (jq "[{`title`:`T`,`description`:`D`,`outline`:[`a`,`b`]") = PSyntax
  ∧ ∃ w', generateTopicSuggestions (settingsFor openai (js "sk-test")) (js "materials")
            (worldWith ∅ [openaiSays oneTopicResponse])
          = Some (Throw parseFailure, w')
          ∧ requests (log w') = 1%nat.
Proof.
  split; [vm_compute; reflexivity|]. split; [vm_compute; reflexivity|].
  split; [vm_compute; reflexivity|]. split; [vm_compute; reflexivity|].
  eexists. split; vm_compute; reflexivity.
Qed.

(** ** The note writer *)

Lemma bytes_inj s s' : bytes s = bytes s' → s = s'.
Proof.
  unfold bytes. intros H.
  rewrite <- (string_of_list_ascii_of_string s),
          <- (string_of_list_ascii_of_string s').
  f_equal. revert H. generalize (list_ascii_of_string s') as l'.
  induction (list_ascii_of_string s) as [|a l IH]; intros [|a' l']; simpl;
    try done.
  intros [= Ha Hl]. f_equal; [|by apply IH].
  rewrite <- (ascii_N_embedding a), <- (ascii_N_embedding a'). by rewrite Ha.
Qed.

Lemma showN_inj a b : showN a = showN b → a = b.
Proof.
  unfold showN. intros H%bytes_inj.
  assert (Hu : N.to_uint a = N.to_uint b).
  { apply (f_equal NilEmpty.uint_of_string) in H.
    rewrite !NilEmpty.usu in H. congruence. }
  rewrite <- (DecimalN.Unsigned.of_to a), <- (DecimalN.Unsigned.of_to b).
  by rewrite Hu.
Qed.

Lemma pathIn_inj folder a b : pathIn folder a = pathIn folder b → a = b.
Proof.
  unfold pathIn. destruct folder as [|c f].
  - by intros H%(inj (.++ js ".md")).
  - intros H. rewrite !(app_assoc (c :: f)), !(app_assoc _ a), !(app_assoc _ b) in H.
    apply (inj (.++ js ".md")) in H. by apply (inj ((c :: f) ++ js "/" ++.)) in H.
Qed.

Lemma candidate_inj folder baseName i j :
  candidate folder baseName i = candidate folder baseName j → i = j.
Proof.
  destruct i as [|i], j as [|j]; unfold candidate; intros H%pathIn_inj; try done.
  - apply (f_equal length) in H. rewrite length_app in H. simpl in H. lia.
  - apply (f_equal length) in H. rewrite length_app in H. simpl in H. lia.
  - apply (inj (baseName ++.)) in H. apply (inj (js " " ++.)) in H.
    apply showN_inj in H. lia.
Qed.

#[local] Instance candidate_Inj folder baseName :
  Inj (=) (=) (candidate folder baseName).
Proof. intros i j. apply candidate_inj. Qed.

(** A vault cannot hold more of the candidate paths than it has entries. *)
Lemma taken_bound (m : gmap jsstring Entry) folder baseName j :
  (∀ i, (i < j)%nat → is_Some (m !! candidate folder baseName i)) →
  (j ≤ size m)%nat.
Proof.
  intros Htaken.
  set (l := candidate folder baseName <$> seq 0 j).
  assert (Hnd : NoDup l) by (apply (NoDup_fmap_2 _), NoDup_seq).
  assert (Hsub : list_to_set (C := gset jsstring) l ⊆ dom m).
  { intros p Hp. rewrite elem_of_list_to_set in Hp.
    apply list_elem_of_fmap in Hp as (i & -> & Hi).
    apply elem_of_seq in Hi. apply elem_of_dom, Htaken. lia. }
  apply subseteq_size in Hsub.
  rewrite size_list_to_set, size_dom in Hsub by done.
  unfold l in Hsub. by rewrite length_fmap, length_seq in Hsub.
Qed.

(** The loop ends on the first candidate the vault does not hold. *)
Lemma unusedPath_spec fuel folder baseName j w :
  (∀ i, (i < j)%nat → is_Some (vault w !! candidate folder baseName i)) →
  (size (vault w) < j + fuel)%nat →
  ∃ k, (j ≤ k)%nat
       ∧ unusedPath fuel folder baseName (candidate folder baseName j)
                    (N.of_nat (S j)) w
         = Some (Ok (candidate folder baseName k), w)
       ∧ vault w !! candidate folder baseName k = None
       ∧ ∀ i, (i < k)%nat → is_Some (vault w !! candidate folder baseName i).
Proof.
  revert j. induction fuel as [|fuel IH]; intros j Htaken Hfuel.
  - apply taken_bound in Htaken. lia.
  - cbn [unusedPath]. unfold bind at 1, getAbstractFileByPath at 1.
    destruct (vault w !! candidate folder baseName j) as [entry|] eqn:Hj.
    + destruct (IH (S j)) as (k & Hk & Hrun & Hfree & Hbelow).
      * intros i Hi. destruct (decide (i = j)) as [->|]; [by rewrite Hj|].
        apply Htaken. lia.
      * lia.
      * exists k. split; [lia|]. split; [|done].
        rewrite <- Hrun. f_equal. lia.
    + exists j. done.
Qed.

(** What [createArticleNote] does when the session has its material note. *)
Lemma createArticleNote_spec session content topic w notePath parent text :
  materialNotePath session = Some notePath → notePath ≠ [] →
  vault w !! notePath = Some (TFile parent text) →
  ∃ k, let path := candidate (default [] parent) (baseNameOf (title topic)) k in
       let body := noteBody topic (materialBasenameOf notePath) (dateOf (now w)) content in
       vault w !! path = None
       ∧ (∀ i, (i < k)%nat →
               is_Some (vault w !! candidate (default [] parent) (baseNameOf (title topic)) i))
       ∧ createArticleNote session content topic w
         = if writable w then Some (Ok (Some path), created path body w)
           else Some (Ok None,
                      logged [ConsoleError [js "Failed to create article note:";
                                            js "Failed to write file."]] w).
Proof.
  intros Hs Hne Hfile.
  destruct (unusedPath_spec (S (size (vault w))) (default [] parent)
              (baseNameOf (title topic)) 0 w) as (k & _ & Hrun & Hfree & Hbelow);
    [intros i Hi; lia | lia |].
  exists k. cbn zeta. split; [done|]. split; [done|].
  unfold createArticleNote. rewrite Hs.
  destruct notePath as [|c notePath]; [done|].
  unfold bind at 1, getAbstractFileByPath at 1. rewrite Hfile.
  unfold bind at 1. cbn [candidate] in Hrun.
  change (N.of_nat 1) with 1 in Hrun. cbv beta. rewrite Hrun.
  unfold bind at 1, toISOString at 1.
  unfold try_catch, bind, vault_create, created, materialBasenameOf, dateOf.
  destruct (writable w) eqn:Hw; cbn [negb].
  - rewrite Hfree. reflexivity.
  - reflexivity.
Qed.

Lemma baseNameOf_safe title c :
  c ∈ baseNameOf title → forbidden c = false.
Proof.
  unfold baseNameOf, slice0. intros Hc%(subseteq_take 50).
  apply list_elem_of_fmap in Hc as (c0 & -> & _).
  destruct (forbidden c0) eqn:H0; [reflexivity | exact H0].
Qed.

(** C10 (file name of the article note).  The base name is the title with
    every character of the forbidden class replaced by a hyphen, cut to at
    most 50 code units; the path handed to [vault.create] is the first of
    [base.md], [base 1.md], [base 2.md], ... that the vault does not hold,
    so an existing path is never the target, and the search always ends. *)
Theorem createArticleNote_unused_path session content topic w notePath parent text :
  materialNotePath session = Some notePath → notePath ≠ [] →
  vault w !! notePath = Some (TFile parent text) →
  let folder := default [] parent in
  let baseName := baseNameOf (title topic) in
  baseName = take 50 (map (λ c, if forbidden c then ch "-" else c) (title topic))
  ∧ (length baseName ≤ 50)%nat
  ∧ (∀ c, c ∈ baseName →
          c ∉ [ch "\"; ch "/"; ch ":"; ch "*"; ch "?"; 34; ch "<"; ch ">"; ch "|"])
  ∧ candidate folder baseName 0 = pathIn folder baseName
  ∧ (∀ k, candidate folder baseName (S k)
          = pathIn folder (baseName ++ js " " ++ showN (N.of_nat (S k))))
  ∧ ∃ k, let path := candidate folder baseName k in
         vault w !! path = None
         ∧ (∀ i, (i < k)%nat → is_Some (vault w !! candidate folder baseName i))
         ∧ createArticleNote session content topic w
           = if writable w
             then Some (Ok (Some path),
                        created path (noteBody topic (materialBasenameOf notePath)
                                                (dateOf (now w)) content) w)
             else Some (Ok None,
                        logged [ConsoleError [js "Failed to create article note:";
                                              js "Failed to write file."]] w).
Proof.
  intros Hs Hne Hfile folder baseName.
  split; [reflexivity|]. split.
  { unfold baseName, baseNameOf, slice0. rewrite length_take. lia. }
  split.
  { intros c Hc%baseNameOf_safe Hin.
    rewrite !elem_of_cons in Hin. rewrite elem_of_nil in Hin.
    destruct Hin as [->|[->|[->|[->|[->|[->|[->|[->|[->|[]]]]]]]]]]; discriminate Hc. }
  split; [reflexivity|]. split; [reflexivity|].
  exact (createArticleNote_spec session content topic w notePath parent text
           Hs Hne Hfile).
Qed.

Lemma dateOf_iso d rest : ch "T" ∉ d → dateOf (d ++ ch "T" :: rest) = d.
Proof.
  unfold dateOf. induction d as [|c d IH]; intros Hd.
  - reflexivity.
  - rewrite not_elem_of_cons in Hd. destruct Hd as [Hc Hd].
    specialize (IH Hd). cbn [app split].
    apply N.eqb_neq in Hc. rewrite N.eqb_sym in Hc. rewrite Hc.
    destruct (split (ch "T") (d ++ ch "T" :: rest)) as [|seg segs]; simpl in *;
      congruence.
Qed.

(** C9 (body of the article note).  Whenever [createArticleNote] creates a
    note, the text it hands to [vault.create] is, in order: the heading
    with the title, the info callout with the backlink to the material note
    and the date, a rule, the article as given, a rule, and the Sources
    section with the backlink again.  The date is the part of the ISO
    time stamp before its T. *)
Theorem createArticleNote_body session content topic w path w' :
  createArticleNote session content topic w = Some (Ok (Some path), w') →
  ∃ notePath body,
    materialNotePath session = Some notePath
    ∧ vault w !! path = None
    ∧ vault w' !! path = Some (TFile (Some (dirname path)) body)
    ∧ body = js "# " ++ title topic ++ [10; 10]
             ++ js "> [!info] Generated with Thinking Tool" ++ [10]
             ++ js "> Materials: [[" ++ materialBasenameOf notePath ++ js "]]" ++ [10]
             ++ js "> Generated: " ++ dateOf (now w) ++ [10; 10]
             ++ js "---" ++ [10; 10]
             ++ content ++ [10; 10]
             ++ js "---" ++ [10; 10]
             ++ js "## Sources" ++ [10; 10]
             ++ js "- Materials: [[" ++ materialBasenameOf notePath ++ js "]]" ++ [10]
    ∧ (∀ d rest, now w = d ++ ch "T" :: rest → ch "T" ∉ d → dateOf (now w) = d).
Proof.
  intros Hrun.
  destruct (materialNotePath session) as [[|c notePath]|] eqn:Hs;
    try (unfold createArticleNote in Hrun; rewrite Hs in Hrun; discriminate Hrun).
  destruct (vault w !! (c :: notePath)) as [[parent text|]|] eqn:Hfile;
    try (unfold createArticleNote in Hrun; rewrite Hs in Hrun;
         unfold bind, getAbstractFileByPath in Hrun; rewrite Hfile in Hrun;
         discriminate Hrun).
  destruct (createArticleNote_spec session content topic w (c :: notePath)
              parent text Hs ltac:(done) Hfile) as (k & Hfree & _ & Heq).
  cbn zeta in *. rewrite Heq in Hrun.
  destruct (writable w); [|discriminate Hrun].
  injection Hrun as <- <-.
  exists (c :: notePath), (noteBody topic (materialBasenameOf (c :: notePath))
                             (dateOf (now w)) content).
  split; [reflexivity|]. split; [exact Hfree|]. split.
  { unfold created. cbn [vault]. apply lookup_insert_eq. }
  split.
  { unfold noteBody. vm_compute. reflexivity. }
  intros d rest -> Hd. by apply dateOf_iso.
Qed.

Lemma createArticleNote_unused_path_witness :
  let session := sessionAt (js "Notes/Source - Materials.md") in
  let w := worldWith notesVault [] in
  materialNotePath session = Some (js "Notes/Source - Materials.md")
  ∧ js "Notes/Source - Materials.md" ≠ []
  ∧ vault w !! js "Notes/Source - Materials.md"
    = Some (TFile (Some (js "Notes")) materialsNote)
  ∧ baseNameOf (title topicAB) = js "A-B- why-"
  ∧ candidate (js "Notes") (js "A-B- why-") 1 = js "Notes/A-B- why- 1.md"
  ∧ ∃ k, vault w !! candidate (js "Notes") (baseNameOf (title topicAB)) k = None.
Proof.
  intros session w.
  assert (H1 : materialNotePath session = Some (js "Notes/Source - Materials.md"))
    by reflexivity.
  assert (H2 : js "Notes/Source - Materials.md" ≠ []) by (vm_compute; discriminate).
  assert (H3 : vault w !! js "Notes/Source - Materials.md"
               = Some (TFile (Some (js "Notes")) materialsNote))
    by (vm_compute; reflexivity).
  split; [exact H1|]. split; [exact H2|]. split; [exact H3|].
  split; [vm_compute; reflexivity|]. split; [vm_compute; reflexivity|].
  destruct (createArticleNote_unused_path session (js "text") topicAB w _ _ _ H1 H2 H3)
    as (_ & _ & _ & _ & _ & k & Hfree & _ & _).
  exists k. exact Hfree.
Defined.

Lemma createArticleNote_body_witness :
  let session := sessionAt (js "Notes/Source - Materials.md") in
  let w := worldWith notesVault [] in
  let content := js "ARTICLE:" ++ title topicAB in
  let path := js "Notes/A-B- why- 1.md" in
  let w' := created path (noteBody topicAB (js "Source - Materials") (js "2026-01-02")
                                   content) w in
  createArticleNote session content topicAB w = Some (Ok (Some path), w')
  ∧ ∃ body, vault w' !! path = Some (TFile (Some (dirname path)) body)
            ∧ body = js "# A/B: why?

> [!info] Generated with Thinking Tool
> Materials: [[Source - Materials]]
> Generated: 2026-01-02

---

ARTICLE:A/B: why?

---

## Sources

- Materials: [[Source - Materials]]
".
Proof.
  intros session w content path w'.
  assert (H : createArticleNote session content topicAB w = Some (Ok (Some path), w'))
    by (vm_compute; reflexivity).
  split; [exact H|].
  destruct (createArticleNote_body session content topicAB w path w' H)
    as (notePath & body & Hs & _ & Hlook & Hbody & _).
  exists body. split; [exact Hlook|].
  vm_compute in Hs. injection Hs as <-. rewrite Hbody. vm_compute. reflexivity.
Defined.

(** ** The plugin methods return *)

Lemma callAI_from_returns settings k attempt lastError prompt w :
  ∃ r w', callAI_from settings k attempt lastError prompt w = Some (r, w').
Proof.
  revert attempt lastError w. induction k as [|k IH]; intros attempt lastError w.
  - rewrite callAI_from_done. by eexists _, _.
  - rewrite callAI_from_step.
    destruct (attemptOn settings prompt (hd Pending (network w))); [by eexists _, _|].
    apply IH.
Qed.

Lemma generateArticle_returns settings content options w :
  ∃ r w', generateArticle settings content options w = Some (r, w').
Proof.
  unfold generateArticle, bind. rewrite emit_logged. apply callAI_from_returns.
Qed.

Lemma generateTopicSuggestions_returns settings content w :
  ∃ r w', generateTopicSuggestions settings content w = Some (r, w').
Proof.
  unfold generateTopicSuggestions, bind at 1. rewrite emit_logged.
  unfold bind at 1, callAI.
  destruct (callAI_from_returns settings (N.to_nat MAX_RETRIES) 1 None
              (topicsPrompt (or_else (outputLanguage settings) (js "한국어")) content)
              (logged [Progress (js "소재 분석 중...")] w)) as ([response|e] & w' & ->);
    [|by eexists _, _].
  unfold try_catch.
  destruct (match_brackets response) as [jsonMatch|]; [|by eexists _, _].
  pose proof (JSON_parse_decides jsonMatch) as Hdec.
  destruct (JSON_parse jsonMatch) as [v rest| |]; [|by eexists _, _|done].
  destruct v as [| | | |[|t ts]|]; by eexists _, _.
Qed.

Lemma createArticleNote_returns session content topic w :
  ∃ r w', createArticleNote session content topic w = Some (Ok r, w').
Proof.
  destruct (materialNotePath session) as [[|c notePath]|] eqn:Hs;
    try (unfold createArticleNote; rewrite Hs; by eexists _, _).
  destruct (vault w !! (c :: notePath)) as [[parent text|]|] eqn:Hfile;
    try (unfold createArticleNote; rewrite Hs;
         unfold bind, getAbstractFileByPath; rewrite Hfile; by eexists _, _).
  destruct (createArticleNote_spec session content topic w (c :: notePath)
              parent text Hs ltac:(done) Hfile) as (k & _ & _ & ->).
  destruct (writable w); by eexists _, _.
Qed.

(** ** The wizard *)

Section WizardFacts.

Variable settings : ThinkingToolSettings.
Variable session : ThinkingSession.
Variable suggest : jsstring -> M (list TopicSuggestion).

(** A property of the modal that every assignment [render] can make
    keeps, is kept by [render]; and [render] never throws. *)
Section RenderPreserves.

Variable P : GenerateArticleModal → Prop.
Hypothesis P_status : ∀ m s, P m → P (with_loadingStatus s m).
Hypothesis P_loading : ∀ m b, P m → P (with_isLoading b m).
Hypothesis P_error : ∀ m e, P m → P (with_lastError e m).
Hypothesis P_closed : ∀ m, P m → P (with_closed true m).
Hypothesis P_step3 :
  ∀ m, P m → step m = 4 → is_Some (selectedTopic m) → P (with_step 3 m).
Hypothesis P_topics :
  ∀ m content w found w',
    P m → suggest content w = Some (Ok found, w') → P (with_topics found m).

Lemma loadTopics_preserves (render1 : GenerateArticleModal → M GenerateArticleModal) :
  (∀ m w, P m → kept P (render1 m w)) →
  ∀ m w, P m → kept P (loadTopics suggest render1 m w).
Proof.
  intros IH m w HP. unfold loadTopics.
  destruct (materialsContent m) as [[|c content]|]; [exact HP| |exact HP].
  unfold bind at 1.
  pose proof (IH (with_loadingStatus (js "소재 분석 중...") (with_isLoading true m)) w
                (P_status _ _ (P_loading _ _ HP))) as H1.
  destruct (render1 _ w) as [[[m1|e1] w1]|]; [|done|done].
  unfold bind at 1, logLength at 1, bind at 1, settle at 1.
  destruct (suggest (c :: content) w1) as [[[found|e] w2]|] eqn:Hs; [| |done].
  - unfold bind, statusSince. apply IH.
    apply P_error, P_loading, (P_topics _ _ _ _ _ (P_status _ _ H1) Hs).
  - unfold bind, statusSince. apply IH.
    apply P_error, P_loading, P_status, H1.
Qed.

Lemma renderStep4Generate_preserves
      (render1 : GenerateArticleModal → M GenerateArticleModal) :
  (∀ m w, P m → kept P (render1 m w)) →
  (∀ m w, isLoading m = true →
          render1 m w = Some (Ok m, w) ∨ render1 m w = None) →
  ∀ m w, step m = 4 → P m →
         kept P (renderStep4Generate settings session render1 m w).
Proof.
  intros IH Hloading m w Hstep HP. unfold renderStep4Generate.
  destruct (selectedTopic m) as [selected|] eqn:Hsel; [|exact HP].
  destruct (materialsContent m) as [[|c content]|]; [exact HP| |exact HP].
  set (m0 := with_loadingStatus (js "글 생성 준비 중...") (with_isLoading true m)).
  assert (HP0 : P m0) by apply P_status, P_loading, HP.
  unfold bind at 1.
  destruct (Hloading m0 w eq_refl) as [-> | ->]; [|done].
  unfold bind at 1, logLength at 1, try_catch, bind at 1.
  destruct (generateArticle settings (c :: content) _ w) as [[[article|e] w1]|];
    [| |done].
  - unfold bind at 1.
    destruct (createArticleNote session article (chosen selected) w1)
      as [[[[path|]|e] w2]|]; [| | |done].
    + unfold bind, emit, statusSince, ret. apply P_closed, P_status, HP0.
    + unfold throw, bind, statusSince. apply IH.
      apply P_step3;
        [apply P_error, P_loading, P_status, HP0 | exact Hstep
        |change (is_Some (selectedTopic m)); by rewrite Hsel].
    + unfold bind, statusSince. apply IH.
      apply P_step3;
        [apply P_error, P_loading, P_status, HP0 | exact Hstep
        |change (is_Some (selectedTopic m)); by rewrite Hsel].
  - unfold bind, statusSince. apply IH.
    apply P_step3;
        [apply P_error, P_loading, P_status, HP0 | exact Hstep
        |change (is_Some (selectedTopic m)); by rewrite Hsel].
Qed.

Lemma render_loading fuel m w :
  isLoading m = true →
  render settings session suggest fuel m w = Some (Ok m, w)
  ∨ render settings session suggest fuel m w = None.
Proof.
  intros Hl. destruct fuel; [by right|left].
  cbn [render]. unfold renderBody. by rewrite Hl.
Qed.

Lemma render_preserves fuel m w :
  P m → kept P (render settings session suggest fuel m w).
Proof.
  revert m w. induction fuel as [|fuel IH]; intros m w HP; [done|].
  cbn [render]. unfold renderBody.
  destruct (isLoading m); [exact HP|].
  destruct (step m =? 1).
  - unfold renderStep1Topics.
    destruct (materialCount m <? 1); [exact HP|].
    destruct (topics m); [|exact HP].
    by apply loadTopics_preserves.
  - destruct (step m =? 4) eqn:H4; [|exact HP].
    apply renderStep4Generate_preserves;
      [exact IH | | by apply N.eqb_eq | exact HP].
    intros; by apply render_loading.
Qed.

End RenderPreserves.

End WizardFacts.

Lemma present_is_Some {A} (x : option A) : present x = true ↔ is_Some x.
Proof.
  destruct x; simpl; split; intros H; done.
Qed.

Lemma drawn_step m k : drawn m k = true → step m = k.
Proof.
  unfold drawn. intros H. apply andb_true_iff in H as [_ H]. by apply N.eqb_eq.
Qed.

(** Reading a field of a modal after assignments. *)
Ltac fields :=
  cbn [step topics selectedTopic editedOutline selectedPersona selectedLength
       customInstructionsText isLoading loadingStatus lastError
       materialsContent materialCount closed
       with_step with_topics with_selectedTopic with_editedOutline
       with_selectedPersona with_selectedLength with_customInstructionsText
       with_isLoading with_loadingStatus with_lastError with_materialsContent
       with_materialCount with_closed] in *.

Section WizardInvariants.

Variable settings : ThinkingToolSettings.
Variable session : ThinkingSession.
Variable suggest : jsstring -> M (list TopicSuggestion).

#[local] Abbreviation render' := (render settings session suggest).
#[local] Abbreviation handle' := (handle settings session suggest).
#[local] Abbreviation dispatch' := (dispatch settings session suggest).
#[local] Abbreviation run' := (run settings session suggest).

Lemma render_selectedPastStep1 fuel m w :
  selectedPastStep1 m → kept selectedPastStep1 (render' fuel m w).
Proof.
  apply render_preserves; unfold selectedPastStep1; intros; fields; auto.
Qed.

Lemma handle_selectedPastStep1 fuel a m w :
  enabled m a = true → selectedPastStep1 m →
  kept selectedPastStep1 (handle' fuel a m w).
Proof.
  intros Hen Hinv. destruct a; cbn [handle enabled] in *.
  - (* retry *)
    unfold bind.
    pose proof (render_selectedPastStep1 fuel (with_lastError None m) w Hinv) as H1.
    destruct (render' fuel (with_lastError None m) w) as [[[m1|e] w1]|]; [|done|done].
    destruct ((step _ =? 1) && isEmpty _); [|exact H1].
    apply loadTopics_preserves; try (intros; by apply render_selectedPastStep1);
      unfold selectedPastStep1; intros; fields; auto.
  - exact Hinv.
  - destruct (topics m !! i) as [t|]; [|exact Hinv].
    apply render_selectedPastStep1. intros _. by eexists.
  - destruct (trim value); [exact Hinv|].
    apply render_selectedPastStep1. intros _. by eexists.
  - apply render_selectedPastStep1.
    apply andb_true_iff in Hen as [Hd%drawn_step _].
    unfold selectedPastStep1. cbn [step with_selectedTopic with_topics]. rewrite Hd. lia.
  - exact Hinv.
  - destruct (step m =? 1) eqn:Hs.
    + destruct (selectedTopic m) eqn:Hsel; [|exact Hinv].
      apply render_selectedPastStep1. intros _.
      change (is_Some (selectedTopic m)). by rewrite Hsel.
    + apply render_selectedPastStep1. intros _.
      apply orb_true_iff in Hen as [Hen|Hen].
      * apply andb_true_iff in Hen as [Hen _]. apply andb_true_iff in Hen as [Hd%drawn_step _].
        rewrite Hd in Hs. discriminate Hs.
      * apply andb_true_iff in Hen as [_ Hp%present_is_Some].
        unfold commitOutline. destruct Hp as [sel Hsel]. rewrite Hsel.
        destruct (origin sel); by eexists.
  - exact Hinv.
  - destruct (_ <? _)%nat; [|exact Hinv]. by apply render_selectedPastStep1.
  - by apply render_selectedPastStep1.
  - apply render_selectedPastStep1.
    apply orb_true_iff in Hen as [Hen|Hd%drawn_step].
    + apply andb_true_iff in Hen as [Hd%drawn_step _].
      unfold selectedPastStep1. cbn [step with_step]. rewrite Hd. cbn. lia.
    + unfold selectedPastStep1 in *. cbn [step with_step selectedTopic].
      rewrite Hd in *. intros _. apply Hinv. lia.
  - by apply render_selectedPastStep1.
  - by apply render_selectedPastStep1.
  - exact Hinv.
  - apply render_selectedPastStep1. apply drawn_step in Hen.
    unfold selectedPastStep1 in *. cbn [step with_step selectedTopic].
    intros _. apply Hinv. rewrite Hen. lia.
Qed.

Lemma getMaterialsContent_pure w :
  ∃ content, getMaterialsContent session w = Some (Ok content, w).
Proof.
  unfold getMaterialsContent.
  destruct (materialNotePath session) as [[|c p]|]; try by eexists.
  unfold bind, getAbstractFileByPath.
  destruct (vault w !! (c :: p)) as [[parent content|]|]; by eexists.
Qed.

(** An invariant of [dispatch] that holds of the new modal holds after
    [onOpen] and after every run of actions. *)
Section Runs.

Variable P : GenerateArticleModal → Prop.
Hypothesis P_render : ∀ fuel m w, P m → kept P (render' fuel m w).
Hypothesis P_handle :
  ∀ fuel a m w, enabled m a = true → P m → kept P (handle' fuel a m w).

Lemma dispatch_kept fuel a m w : P m → kept P (dispatch' fuel a m w).
Proof.
  intros HP. unfold dispatch. destruct (enabled m a) eqn:Hen; [|exact HP].
  by apply P_handle.
Qed.

Lemma run_kept fuel actions m w : P m → kept P (run' fuel actions m w).
Proof.
  revert m w. induction actions as [|a actions IH]; intros m w HP; [exact HP|].
  cbn [run]. unfold bind.
  pose proof (dispatch_kept fuel a m w HP) as H.
  destruct (dispatch' fuel a m w) as [[[m1|e] w1]|]; [|done|done].
  by apply IH.
Qed.

Lemma onOpen_kept fuel m w :
  (∀ content, P (with_materialCount (countMaterials content)
                   (with_materialsContent content m))) →
  kept P (onOpen settings session suggest fuel m w).
Proof.
  intros HP. unfold onOpen, bind.
  destruct (getMaterialsContent_pure w) as [content ->].
  apply P_render, HP.
Qed.

End Runs.

End WizardInvariants.

(** C7 (a topic is required past step 1).  In every run of the modal, from
    its opening on, a step beyond 1 comes with a selected topic; on the
    screen of step 1 the Next button is disabled while nothing is selected;
    and a custom topic that is empty once trimmed changes nothing in the
    modal and calls no one: at most a notice is shown. *)
Theorem topic_required_past_step1 settings session suggest :
  (∀ fuel fuel' actions w m1 w1 m2 w2,
     onOpen settings session suggest fuel newModal w = Some (Ok m1, w1) →
     run settings session suggest fuel' actions m1 w1 = Some (Ok m2, w2) →
     1 < step m2 → is_Some (selectedTopic m2))
  ∧ (∀ m, step m = 1 → selectedTopic m = None → enabled m ClickNext = false)
  ∧ (∀ fuel m w value,
       trim value = [] →
       ∃ w', dispatch settings session suggest fuel (ClickCustom value) m w
             = Some (Ok m, w')
             ∧ (w' = w ∨ w' = logged [Noticed (js "주제를 입력해주세요.")] w)
             ∧ network w' = network w ∧ vault w' = vault w).
Proof.
  split; [|split].
  - intros fuel fuel' actions w m1 w1 m2 w2 Hopen Hrun.
    assert (Hrender : ∀ fuel m w, selectedPastStep1 m →
              kept selectedPastStep1 (render settings session suggest fuel m w))
      by (intros; by apply render_selectedPastStep1).
    assert (Hhandle : ∀ fuel a m w, enabled m a = true → selectedPastStep1 m →
              kept selectedPastStep1 (handle settings session suggest fuel a m w))
      by (intros; by apply handle_selectedPastStep1).
    assert (H1 : selectedPastStep1 m1).
    { pose proof (onOpen_kept settings session suggest selectedPastStep1 Hrender
                    fuel newModal w) as H.
      rewrite Hopen in H. apply H. intros content.
      unfold selectedPastStep1. fields. cbn. lia. }
    pose proof (run_kept settings session suggest selectedPastStep1 Hhandle
                  fuel' actions m1 w1 H1) as H2.
    rewrite Hrun in H2. exact H2.
  - intros m Hs Hsel. cbn [enabled]. unfold drawn. rewrite Hs, Hsel. cbn.
    by rewrite !andb_false_r.
  - intros fuel m w value Htrim. unfold dispatch.
    destruct (enabled m (ClickCustom value)).
    + cbn [handle]. rewrite Htrim. eexists. split; [reflexivity|].
      split; [by right|]. by split.
    + exists w. split; [reflexivity|]. split; [by left|]. by split.
Qed.


Section OutlineFloor.

Variable settings : ThinkingToolSettings.
Variable session : ThinkingSession.
Variable suggest : jsstring -> M (list TopicSuggestion).

Hypothesis suggest_floor :
  ∀ content w found w',
    suggest content w = Some (Ok found, w') →
    Forall (λ t, (2 ≤ length (outline t))%nat) found.

Lemma render_outlineFloor fuel m w :
  outlineFloor m → kept outlineFloor (render settings session suggest fuel m w).
Proof.
  apply render_preserves; unfold outlineFloor; intros; fields; try assumption.
  split; [tauto|]. eapply suggest_floor; eassumption.
Qed.

Lemma handle_outlineFloor fuel a m w :
  enabled m a = true → outlineFloor m →
  kept outlineFloor (handle settings session suggest fuel a m w).
Proof.
  intros Hen Hinv. pose proof Hinv as [Hsel Htopics].
  destruct a; cbn [handle enabled] in *.
  - unfold bind.
    pose proof (render_outlineFloor fuel (with_lastError None m) w
                  (conj Hsel Htopics)) as H1.
    destruct (render settings session suggest fuel (with_lastError None m) w)
      as [[[m1|e] w1]|]; [|done|done].
    destruct ((step _ =? 1) && isEmpty _); [|exact H1].
    apply loadTopics_preserves; try (intros; by apply render_outlineFloor);
      unfold outlineFloor; intros; fields; try assumption.
    split; [tauto|]. eapply suggest_floor; eassumption.
  - exact Hinv.
  - destruct (topics m !! i) as [t|] eqn:Ht; [|exact Hinv].
    apply render_outlineFloor. split; fields; [|exact Htopics].
    intros _. exact (Forall_lookup_1 _ _ _ _ Htopics Ht).
  - destruct (trim value); [exact Hinv|].
    apply render_outlineFloor. split; fields; [|exact Htopics].
    intros _. cbn [length outline]. lia.
  - apply render_outlineFloor. split; fields; [|by apply Forall_nil].
    by intros [? ?].
  - exact Hinv.
  - destruct (step m =? 1).
    + destruct (selectedTopic m) eqn:Hs; [|exact Hinv].
      apply render_outlineFloor. split; fields; [|exact Htopics].
      intros _. apply Hsel. first [by rewrite Hs | done].
    + apply render_outlineFloor. unfold commitOutline.
      destruct (selectedTopic m) as [sel|] eqn:Hs; [|exact Hinv].
      assert (Hlen : (2 ≤ length (editedOutline m))%nat)
        by (apply Hsel; first [by rewrite Hs | done]).
      destruct (origin sel); split; fields; try (intros _; exact Hlen);
        try exact Htopics.
      by apply Forall_insert.
  - split; fields; [|exact Htopics]. rewrite length_insert. exact Hsel.
  - destruct (2 <? length (editedOutline m))%nat eqn:Hlt; [|exact Hinv].
    apply render_outlineFloor. split; fields; [|exact Htopics].
    intros _. apply Nat.ltb_lt in Hlt.
    apply andb_true_iff in Hen as [_ Hp%present_is_Some].
    rewrite length_delete by exact Hp. lia.
  - apply render_outlineFloor. split; fields; [|exact Htopics].
    intros Hs. rewrite length_app. specialize (Hsel Hs). lia.
  - apply render_outlineFloor. exact Hinv.
  - apply render_outlineFloor. exact Hinv.
  - apply render_outlineFloor. exact Hinv.
  - exact Hinv.
  - apply render_outlineFloor. exact Hinv.
Qed.

End OutlineFloor.

(** C6, as the code has it.  A deletion asked for when the outline has
    exactly two entries is refused: the modal is unchanged and at most a
    notice is shown.  The Next button of step 2 does not look at the
    outline, so the floor of two entries past step 2 holds on condition
    that every suggested topic comes with at least two entries. *)
Theorem outline_floor settings session suggest :
  (∀ fuel m w index,
     length (editedOutline m) = 2%nat →
     ∃ w', dispatch settings session suggest fuel (ClickDelete index) m w
           = Some (Ok m, w')
           ∧ (w' = w
              ∨ w' = logged [Noticed (js "최소 2개 이상의 항목이 필요합니다.")] w))
  ∧ ((∀ content w found w',
        suggest content w = Some (Ok found, w') →
        Forall (λ t, (2 ≤ length (outline t))%nat) found) →
     ∀ fuel fuel' actions w m1 w1 m2 w2,
       onOpen settings session suggest fuel newModal w = Some (Ok m1, w1) →
       run settings session suggest fuel' actions m1 w1 = Some (Ok m2, w2) →
       2 < step m2 → (2 ≤ length (editedOutline m2))%nat).
Proof.
  split.
  - intros fuel m w index Hlen. unfold dispatch.
    destruct (enabled m (ClickDelete index)).
    + cbn [handle]. rewrite Hlen. cbn [Nat.ltb Nat.leb].
      eexists. split; [reflexivity|]. by right.
    + exists w. split; [reflexivity|]. by left.
  - intros Hfloor fuel fuel' actions w m1 w1 m2 w2 Hopen Hrun Hstep.
    set (P := λ m, selectedPastStep1 m ∧ outlineFloor m).
    assert (Hrender : ∀ fuel m w, P m →
              kept P (render settings session suggest fuel m w)).
    { intros f m w0 [HA HB].
      pose proof (render_selectedPastStep1 settings session suggest f m w0 HA) as H1.
      pose proof (render_outlineFloor settings session suggest Hfloor f m w0 HB) as H2.
      destruct (render settings session suggest f m w0) as [[[m'|e] w']|]; done. }
    assert (Hhandle : ∀ fuel a m w, enabled m a = true → P m →
              kept P (handle settings session suggest fuel a m w)).
    { intros f a m w0 Hen [HA HB].
      pose proof (handle_selectedPastStep1 settings session suggest f a m w0 Hen HA) as H1.
      pose proof (handle_outlineFloor settings session suggest Hfloor f a m w0 Hen HB) as H2.
      destruct (handle settings session suggest f a m w0) as [[[m'|e] w']|]; done. }
    assert (H1 : P m1).
    { pose proof (onOpen_kept settings session suggest P Hrender
                    fuel newModal w) as H.
      rewrite Hopen in H. apply H. intros content. split.
      - unfold selectedPastStep1. fields. cbn. lia.
      - split; fields; [by intros [? ?]|apply Forall_nil; done]. }
    pose proof (run_kept settings session suggest P Hhandle fuel' actions m1 w1 H1)
      as H2.
    rewrite Hrun in H2. destruct H2 as [HA [HB _]].
    apply HB, HA. lia.
Qed.

(** Runs a closed computation and names the modal and the world it ends in. *)
Ltac run_to m w r :=
  let v := eval vm_compute in r in
  lazymatch v with
  | Some (Ok ?a, ?b) => pose (m := a); pose (w := b)
  end.

Lemma outline_floor_witness :
  let suggest := suggestFixed [topicAB] in
  let w := worldWith notesVault [] in
  (∀ content w0 found w', suggest content w0 = Some (Ok found, w') →
                          Forall (λ t, (2 ≤ length (outline t))%nat) found)
  ∧ ∃ m1 w1 m2 w2,
      onOpen openaiSettings materialsSession suggest 3 newModal w = Some (Ok m1, w1)
      ∧ run openaiSettings materialsSession suggest 3
            [ClickTopic 0; ClickNext; ClickDelete 0; ClickDelete 0; ClickNext] m1 w1
        = Some (Ok m2, w2)
      ∧ 2 < step m2
      ∧ editedOutline m2 = [js "two"; js "three"]
      ∧ (2 ≤ length (editedOutline m2))%nat.
Proof.
  intros suggest w.
  assert (Hfloor : ∀ content w0 found w',
            suggest content w0 = Some (Ok found, w') →
            Forall (λ t, (2 ≤ length (outline t))%nat) found).
  { intros content w0 found w' H. injection H as <- _.
    apply Forall_cons. split; [cbn; lia|apply Forall_nil; done]. }
  split; [exact Hfloor|].
  run_to m1 w1 (onOpen openaiSettings materialsSession suggest 3 newModal w).
  run_to m2 w2 (run openaiSettings materialsSession suggest 3
                 [ClickTopic 0; ClickNext; ClickDelete 0; ClickDelete 0; ClickNext] m1 w1).
  exists m1, w1, m2, w2.
  assert (H1 : onOpen openaiSettings materialsSession suggest 3 newModal w
               = Some (Ok m1, w1)) by (vm_compute; reflexivity).
  assert (H2 : run openaiSettings materialsSession suggest 3
                   [ClickTopic 0; ClickNext; ClickDelete 0; ClickDelete 0; ClickNext]
                   m1 w1
               = Some (Ok m2, w2)) by (vm_compute; reflexivity).
  assert (H3 : 2 < step m2) by (vm_compute; reflexivity).
  split; [exact H1|]. split; [exact H2|]. split; [exact H3|].
  split; [vm_compute; reflexivity|].
  exact (proj2 (outline_floor openaiSettings materialsSession suggest)
           Hfloor _ _ _ _ _ _ _ _ H1 H2 H3).
Defined.

(** C6 fails on the code: a suggested topic whose outline has one entry is
    selected and carried through step 2 to step 3 with that one entry. *)
Lemma outline_floor_counterexample :
  let suggest := suggestFixed [topicShort] in
  let w := worldWith notesVault [] in
  ∃ m1 w1 m2 w2,
    onOpen openaiSettings materialsSession suggest 3 newModal w = Some (Ok m1, w1)
    ∧ run openaiSettings materialsSession suggest 3
          [ClickTopic 0; ClickNext; ClickNext] m1 w1
      = Some (Ok m2, w2)
    ∧ step m2 = 3
    ∧ editedOutline m2 = [js "only"]
    ∧ length (editedOutline m2) = 1%nat.
Proof.
  intros suggest w.
  eexists _, _, _, _.
  split; [vm_compute; reflexivity|]. split; [vm_compute; reflexivity|].
  split; [vm_compute; reflexivity|]. split; vm_compute; reflexivity.
Qed.

Lemma topic_required_past_step1_witness :
  let suggest := suggestFixed [topicAB] in
  let w := worldWith notesVault [] in
  ∃ m1 w1 m2 w2,
    onOpen openaiSettings materialsSession suggest 3 newModal w = Some (Ok m1, w1)
    ∧ run openaiSettings materialsSession suggest 3
          [ClickNext; ClickCustom (js "   "); ClickCustom (js " My topic ")] m1 w1
      = Some (Ok m2, w2)
    ∧ 1 < step m2
    ∧ step m2 = 2
    ∧ is_Some (selectedTopic m2).
Proof.
  intros suggest w.
  run_to m1 w1 (onOpen openaiSettings materialsSession suggest 3 newModal w).
  run_to m2 w2 (run openaiSettings materialsSession suggest 3
                 [ClickNext; ClickCustom (js "   "); ClickCustom (js " My topic ")] m1 w1).
  exists m1, w1, m2, w2.
  assert (H1 : onOpen openaiSettings materialsSession suggest 3 newModal w
               = Some (Ok m1, w1)) by (vm_compute; reflexivity).
  assert (H2 : run openaiSettings materialsSession suggest 3
                   [ClickNext; ClickCustom (js "   "); ClickCustom (js " My topic ")]
                   m1 w1
               = Some (Ok m2, w2)) by (vm_compute; reflexivity).
  assert (H3 : 1 < step m2) by (vm_compute; reflexivity).
  split; [exact H1|]. split; [exact H2|]. split; [exact H3|].
  split; [vm_compute; reflexivity|].
  exact (proj1 (topic_required_past_step1 openaiSettings materialsSession suggest)
           _ _ _ _ _ _ _ _ H1 H2 H3).
Defined.

(** [callAI] and the composer leave the vault as it is. *)
Lemma callAI_from_vault settings k attempt lastError prompt w r w' :
  callAI_from settings k attempt lastError prompt w = Some (r, w') →
  vault w' = vault w.
Proof.
  revert attempt lastError w. induction k as [|k IH]; intros attempt lastError w.
  - rewrite callAI_from_done. by intros [= _ <-].
  - rewrite callAI_from_step.
    destruct (attemptOn settings prompt (hd Pending (network w))) as [x|e].
    + intros [= _ <-]. unfold called.
      by destruct (keyOf settings).
    + intros H%IH. rewrite H. apply (vault_turn settings prompt attempt e w).
Qed.

Lemma generateArticle_vault settings content options w r w' :
  generateArticle settings content options w = Some (r, w') →
  vault w' = vault w.
Proof.
  unfold generateArticle, bind. rewrite emit_logged. unfold callAI.
  by intros H%callAI_from_vault.
Qed.

(** One press of the Generate button whose composer call fails. *)
Lemma generate_failure_step
        settings session suggest fuel m w selected c content e w1 :
  enabled m ClickGenerate = true →
  selectedTopic m = Some selected →
  materialsContent m = Some (c :: content) →
  generateArticle settings (c :: content) (optionsOf m selected) w
  = Some (Throw e, w1) →
  ∃ m', dispatch settings session suggest (S (S fuel)) ClickGenerate m w
        = Some (Ok m', w1)
        ∧ step m' = 3
        ∧ lastError m' = Some e
        ∧ isLoading m' = false
        ∧ closed m' = false
        ∧ selectedTopic m' = selectedTopic m
        ∧ editedOutline m' = editedOutline m
        ∧ topics m' = topics m
        ∧ selectedPersona m' = selectedPersona m
        ∧ selectedLength m' = selectedLength m
        ∧ vault w1 = vault w.
Proof.
  intros Hen Hsel Hmat Hgen.
  pose proof Hen as Hd. cbn [enabled] in Hd. unfold drawn in Hd.
  apply andb_true_iff in Hd as [Hd Hstep]. apply andb_true_iff in Hd as [Hc Hl].
  apply negb_true_iff in Hc, Hl.
  unfold dispatch. rewrite Hen. cbn [handle render]. unfold renderBody at 1.
  fields. rewrite Hl. change (4 =? 1) with false. change (4 =? 4) with true. cbv iota.
  unfold renderStep4Generate. fields. rewrite Hsel, Hmat.
  unfold bind at 1. unfold renderBody at 1. fields. unfold ret at 1.
  unfold bind at 1, logLength at 1, try_catch, bind at 1.
  fold (optionsOf m selected). fields.
  change (generateArticle settings (c :: content)
            {| topic := chosen selected; persona := selectedPersona m;
               length_ := selectedLength m;
               customInstructions :=
                 match customInstructionsText m with [] => None | i => Some i end |} w)
    with (generateArticle settings (c :: content) (optionsOf m selected) w).
  rewrite Hgen. unfold bind at 1, statusSince at 1.
  unfold renderBody. fields. change (3 =? 1) with false. change (3 =? 4) with false.
  cbv iota. unfold ret.
  eexists. split; [reflexivity|]. fields.
  repeat (split; [first [reflexivity | assumption]|]).
  by apply generateArticle_vault in Hgen.
Qed.

(** C8 (no materials, no synthesis).  When the material note counts fewer
    than one quote, opening the modal ends at once, whatever the synthesizer
    is, with the world exactly as it was: nothing was asked of anyone.  The
    modal is on step 1 with no topics, the only control on screen is the
    Close button, and pressing it closes the modal. *)
Theorem onOpen_without_materials settings session suggest fuel w content :
  getMaterialsContent session w = Some (Ok content, w) →
  countMaterials content < 1 →
  let opened := with_materialCount (countMaterials content)
                  (with_materialsContent content newModal) in
  onOpen settings session suggest (S fuel) newModal w = Some (Ok opened, w)
  ∧ step opened = 1 ∧ topics opened = [] ∧ lastError opened = None
  ∧ (∀ a, enabled opened a = true ↔ a = ClickClose)
  ∧ (∀ fuel', dispatch settings session suggest fuel' ClickClose opened w
              = Some (Ok (with_closed true opened), w))
  ∧ (∀ a, enabled (with_closed true opened) a = false).
Proof.
  intros Hread Hcount opened.
  assert (Hlt : (materialCount opened <? 1) = true) by (by apply N.ltb_lt).
  split.
  { unfold onOpen, bind. rewrite Hread. cbn [render]. unfold renderBody.
    fold opened. change (isLoading opened) with false. cbv iota.
    change (step opened =? 1) with true. cbv iota.
    unfold renderStep1Topics. by rewrite Hlt. }
  split; [reflexivity|]. split; [reflexivity|]. split; [reflexivity|].
  assert (Hclose : enabled opened ClickClose = true).
  { cbn [enabled]. unfold drawn. rewrite Hlt. reflexivity. }
  split; [|split].
  - intros a. split.
    + destruct a; cbn [enabled]; unfold drawn, topicsShown; rewrite ?Hlt;
        fields; cbn; try discriminate; try reflexivity.
      all: try (destruct key; discriminate).
    + by intros ->.
  - intros fuel'. unfold dispatch. by rewrite Hclose.
  - intros a. destruct a; cbn [enabled]; unfold drawn; fields; reflexivity.
Qed.

Lemma onOpen_without_materials_witness :
  let session := sessionAt (js "Notes/Empty - Materials.md") in
  let text := js "# Materials from [[Source]]

> [!info] Thinking Tool Session
" in
  let w := worldWith {[ js "Notes/Empty - Materials.md" := TFile (Some (js "Notes")) text ]}
                     [openaiSays (js "unused")] in
  getMaterialsContent session w = Some (Ok (Some text), w)
  ∧ countMaterials (Some text) < 1
  ∧ ∃ opened,
      onOpen openaiSettings session (suggestFixed [topicAB]) 1 newModal w
      = Some (Ok opened, w)
      ∧ enabled opened ClickClose = true
      ∧ enabled opened ClickRefresh = false.
Proof.
  intros session text w.
  assert (H1 : getMaterialsContent session w = Some (Ok (Some text), w))
    by (vm_compute; reflexivity).
  assert (H2 : countMaterials (Some text) < 1) by (vm_compute; reflexivity).
  split; [exact H1|]. split; [exact H2|].
  destruct (onOpen_without_materials openaiSettings session (suggestFixed [topicAB])
              0 w (Some text) H1 H2) as (Hopen & _ & _ & _ & Hen & _).
  eexists. split; [exact Hopen|]. split.
  - by apply Hen.
  - destruct (enabled _ ClickRefresh) eqn:Hr; [|reflexivity].
    apply Hen in Hr. discriminate Hr.
Defined.

Lemma topicsShown_count m : topicsShown m = true → 1 ≤ materialCount m.
Proof.
  unfold topicsShown. intros H. apply andb_true_iff in H as [H _].
  apply negb_true_iff, N.ltb_ge in H. exact H.
Qed.

Section MaterialsCounted.

Variable settings : ThinkingToolSettings.
Variable session : ThinkingSession.
Variable suggest : jsstring -> M (list TopicSuggestion).

Lemma render_materialsCounted fuel m w :
  materialsCounted m →
  kept materialsCounted (render settings session suggest fuel m w).
Proof.
  apply render_preserves; unfold materialsCounted; intros; fields; try assumption.
  match goal with H : _ ∧ _ |- _ => destruct H as [Hc Hs] end.
  split; [exact Hc|]. intros _. apply Hs.
  match goal with H : step _ = 4 |- _ => rewrite H end. reflexivity.
Qed.

Lemma handle_materialsCounted fuel a m w :
  enabled m a = true → materialsCounted m →
  kept materialsCounted (handle settings session suggest fuel a m w).
Proof.
  intros Hen Hinv. pose proof Hinv as [Hc Hs].
  destruct a; cbn [handle enabled] in *.
  - unfold bind.
    pose proof (render_materialsCounted fuel (with_lastError None m) w Hinv) as H1.
    destruct (render settings session suggest fuel (with_lastError None m) w)
      as [[[m1|e] w1]|]; [|done|done].
    destruct ((step _ =? 1) && isEmpty _); [|exact H1].
    apply loadTopics_preserves; try (intros; by apply render_materialsCounted);
      unfold materialsCounted; intros; fields; assumption.
  - exact Hinv.
  - destruct (topics m !! i); [|exact Hinv]. by apply render_materialsCounted.
  - destruct (trim value); [exact Hinv|].
    apply render_materialsCounted. split; fields; [exact Hc|]. intros _.
    apply andb_true_iff in Hen as [_ Hshown]. by apply topicsShown_count.
  - by apply render_materialsCounted.
  - exact Hinv.
  - destruct (step m =? 1) eqn:H1.
    + destruct (selectedTopic m); [|exact Hinv].
      apply render_materialsCounted. split; fields; [exact Hc|]. intros _.
      apply orb_true_iff in Hen as [Hen|Hen].
      * apply andb_true_iff in Hen as [Hen _]. apply andb_true_iff in Hen as [_ Hshown].
        by apply topicsShown_count.
      * apply andb_true_iff in Hen as [Hd%drawn_step _]. rewrite Hd in H1.
        discriminate H1.
    + apply render_materialsCounted.
      assert (Hcount : 1 ≤ materialCount m).
      { apply orb_true_iff in Hen as [Hen|Hen].
        - apply andb_true_iff in Hen as [Hen _]. apply andb_true_iff in Hen as [_ Hshown].
          by apply topicsShown_count.
        - apply andb_true_iff in Hen as [Hd%drawn_step _]. apply Hs. rewrite Hd.
          reflexivity. }
      unfold commitOutline. destruct (selectedTopic m) as [sel|].
      * destruct (origin sel); split; fields; try exact Hc; intros _; exact Hcount.
      * split; fields; [exact Hc|]. intros _; exact Hcount.
  - exact Hinv.
  - destruct (_ <? _)%nat; [|exact Hinv]. by apply render_materialsCounted.
  - by apply render_materialsCounted.
  - apply render_materialsCounted. split; fields; [exact Hc|].
    apply orb_true_iff in Hen as [Hen|Hd%drawn_step].
    + apply andb_true_iff in Hen as [Hd%drawn_step _]. rewrite Hd.
      change (2 =? 2) with true. cbv iota. intros H. by apply N.lt_irrefl in H.
    + rewrite Hd. change (3 =? 2) with false. cbv iota. intros _. apply Hs.
      rewrite Hd. reflexivity.
  - by apply render_materialsCounted.
  - by apply render_materialsCounted.
  - exact Hinv.
  - apply render_materialsCounted. split; fields; [exact Hc|]. intros _.
    apply drawn_step in Hen. apply Hs. rewrite Hen. reflexivity.
Qed.

(** In every run, the Generate button is on screen only with a topic
    selected and materials read. *)
Lemma generate_ready fuel fuel' actions w m1 w1 m w0 :
  onOpen settings session suggest fuel newModal w = Some (Ok m1, w1) →
  run settings session suggest fuel' actions m1 w1 = Some (Ok m, w0) →
  enabled m ClickGenerate = true →
  ∃ selected c content,
    selectedTopic m = Some selected ∧ materialsContent m = Some (c :: content).
Proof.
  intros Hopen Hrun Hen.
  set (P := λ m, selectedPastStep1 m ∧ materialsCounted m).
  assert (Hrender : ∀ fuel m w, P m →
            kept P (render settings session suggest fuel m w)).
  { intros f m0 w' [HA HB].
    pose proof (render_selectedPastStep1 settings session suggest f m0 w' HA) as H1.
    pose proof (render_materialsCounted f m0 w' HB) as H2.
    destruct (render settings session suggest f m0 w') as [[[m'|e] w'']|]; done. }
  assert (Hhandle : ∀ fuel a m w, enabled m a = true → P m →
            kept P (handle settings session suggest fuel a m w)).
  { intros f a m0 w' Hen' [HA HB].
    pose proof (handle_selectedPastStep1 settings session suggest f a m0 w' Hen' HA) as H1.
    pose proof (handle_materialsCounted f a m0 w' Hen' HB) as H2.
    destruct (handle settings session suggest f a m0 w') as [[[m'|e] w'']|]; done. }
  assert (H1 : P m1).
  { pose proof (onOpen_kept settings session suggest P Hrender fuel newModal w) as H.
    rewrite Hopen in H. apply H. intros content. split.
    - unfold selectedPastStep1. fields. cbn. lia.
    - split; fields; [reflexivity|]. cbn. lia. }
  pose proof (run_kept settings session suggest P Hhandle fuel' actions m1 w1 H1)
    as H2.
  rewrite Hrun in H2. destruct H2 as [HA [HB HC]].
  apply drawn_step in Hen.
  destruct (HA ltac:(rewrite Hen; reflexivity)) as [selected Hsel].
  specialize (HC ltac:(rewrite Hen; reflexivity)).
  exists selected.
  destruct (materialsContent m) as [[|c content]|].
  - rewrite HB in HC. by apply N.le_ngt in HC.
  - by exists c, content.
  - rewrite HB in HC. by apply N.le_ngt in HC.
Qed.

End MaterialsCounted.

(** C5 (a failed generation returns to the style step).  In every run of
    the modal, when the Generate button is pressed and the composer fails,
    the handler ends without throwing; the modal is back on step 3 with the
    message of the failure in [lastError], not loading and still open; its
    selections are as they were; and the vault is as it was, so that no
    note has been created. *)
Theorem generation_failure_returns_to_style
        settings session suggest fuel fuel' fuel'' actions w m1 w1 m w0 :
  onOpen settings session suggest fuel newModal w = Some (Ok m1, w1) →
  run settings session suggest fuel' actions m1 w1 = Some (Ok m, w0) →
  enabled m ClickGenerate = true →
  ∃ selected c content,
    selectedTopic m = Some selected
    ∧ materialsContent m = Some (c :: content)
    ∧ ∀ e w',
        generateArticle settings (c :: content) (optionsOf m selected) w0
        = Some (Throw e, w') →
        ∃ m', dispatch settings session suggest (S (S fuel'')) ClickGenerate m w0
              = Some (Ok m', w')
              ∧ step m' = 3
              ∧ lastError m' = Some e
              ∧ isLoading m' = false
              ∧ closed m' = false
              ∧ selectedTopic m' = selectedTopic m
              ∧ editedOutline m' = editedOutline m
              ∧ topics m' = topics m
              ∧ selectedPersona m' = selectedPersona m
              ∧ selectedLength m' = selectedLength m
              ∧ vault w' = vault w0.
Proof.
  intros Hopen Hrun Hen.
  destruct (generate_ready settings session suggest fuel fuel' actions w m1 w1 m w0
              Hopen Hrun Hen) as (selected & c & content & Hsel & Hmat).
  exists selected, c, content. split; [exact Hsel|]. split; [exact Hmat|].
  intros e w' Hgen.
  exact (generate_failure_step settings session suggest fuel'' m w0 selected c content
           e w' Hen Hsel Hmat Hgen).
Qed.

Lemma generation_failure_returns_to_style_witness :
  let suggest := suggestFixed [topicAB] in
  let w := worldWith notesVault [statusOnly 500; statusOnly 500; statusOnly 500] in
  ∃ m1 w1 m w0 m' w',
    onOpen openaiSettings materialsSession suggest 3 newModal w = Some (Ok m1, w1)
    ∧ run openaiSettings materialsSession suggest 3
          [ClickTopic 0; ClickNext; ClickNext; ClickPersona blog; ClickLength short]
          m1 w1
      = Some (Ok m, w0)
    ∧ enabled m ClickGenerate = true
    ∧ dispatch openaiSettings materialsSession suggest 3 ClickGenerate m w0
      = Some (Ok m', w')
    ∧ step m' = 3
    ∧ lastError m'
      = Some (js "AI 호출 실패 (3회 시도): OpenAI API 오류 (500): 알 수 없는 오류")
    ∧ requests (log w') = 3%nat
    ∧ vault w' = vault w0.
Proof.
  intros suggest w.
  run_to m1 w1 (onOpen openaiSettings materialsSession suggest 3 newModal w).
  run_to m w0
    (run openaiSettings materialsSession suggest 3
         [ClickTopic 0; ClickNext; ClickNext; ClickPersona blog; ClickLength short]
         m1 w1).
  assert (Hopen : onOpen openaiSettings materialsSession suggest 3 newModal w
                  = Some (Ok m1, w1)) by (vm_compute; reflexivity).
  assert (Hrun : run openaiSettings materialsSession suggest 3
                     [ClickTopic 0; ClickNext; ClickNext; ClickPersona blog;
                      ClickLength short] m1 w1
                 = Some (Ok m, w0)) by (vm_compute; reflexivity).
  assert (Hen : enabled m ClickGenerate = true) by (vm_compute; reflexivity).
  destruct (generation_failure_returns_to_style
              openaiSettings materialsSession suggest 3 3 1 _ w m1 w1 m w0
              Hopen Hrun Hen)
    as (selected & c & content & Hsel & Hmat & Hfail).
  vm_compute in Hsel. injection Hsel as <-.
  vm_compute in Hmat. injection Hmat as <- <-.
  match goal with
  | H : ∀ e w', generateArticle ?s ?mc ?o ?w0 = _ → _ |- _ =>
      let v := eval vm_compute in (generateArticle s mc o w0) in
      lazymatch v with
      | Some (Throw ?x, ?y) =>
          destruct (H x y ltac:(vm_compute; reflexivity))
            as (m' & Hd & Hstep & Herr & _ & _ & _ & _ & _ & _ & _ & Hvault);
          exists m1, w1, m, w0, m', y
      end
  end.
  split; [exact Hopen|]. split; [exact Hrun|]. split; [exact Hen|].
  split; [exact Hd|]. split; [exact Hstep|].
  split; [rewrite Herr; vm_compute; reflexivity|].
  split; [vm_compute; reflexivity | exact Hvault].
Defined.


(** ** Scenarios *)

(** With materials, opening the modal does call the synthesizer. *)
Example onOpen_with_materials :
  ∃ opened w',
    onOpen openaiSettings materialsSession (suggestFixed [topicAB]) 3 newModal
           (worldWith notesVault [])
    = Some (Ok opened, w')
    ∧ materialCount opened = 2
    ∧ topics opened = [topicAB]
    ∧ log w' = [Progress (js "소재 분석 중...")].
Proof.
  eexists _, _. split; [vm_compute; reflexivity|].
  split; [vm_compute; reflexivity|]. split; vm_compute; reflexivity.
Qed.

(** Scenario A: two quotes, a suggested topic selected, its outline edited
    down and up to three entries, style blog and length short, and a
    provider that answers with the article: the modal closes and the note
    holds the article inside the wrapper of [createArticleNote]. *)
Example scenario_A :
  ∃ m w',
    (opened <- onOpen openaiSettings materialsSession (suggestFixed [topicAB]) 3 newModal ;;
     run openaiSettings materialsSession (suggestFixed [topicAB]) 3
         [ClickTopic 0; ClickNext; ClickDelete 0; ClickDelete 0; ClickAdd; ClickNext;
          ClickPersona blog; ClickLength short; ClickGenerate] opened)
      (worldWith notesVault [openaiSays (js "ARTICLE:" ++ title topicAB)])
    = Some (Ok m, w')
    ∧ closed m = true
    ∧ length (editedOutline m) = 3%nat
    ∧ requests (log w') = 1%nat
    ∧ vault w' !! js "Notes/A-B- why- 1.md"
      = Some (TFile (Some (js "Notes"))
                    (noteBody (chosen (default {| origin := None; chosen := topicAB |}
                                               (selectedTopic m)))
                              (js "Source - Materials") (js "2026-01-02")
                              (js "ARTICLE:" ++ title topicAB))).
Proof.
  eexists _, _. split; [vm_compute; reflexivity|].
  split; [vm_compute; reflexivity|]. split; [vm_compute; reflexivity|].
  split; vm_compute; reflexivity.
Qed.

(** The synthesizer keeps the first five elements of a flat array, in
    their order, and fails on an empty array and on a response without
    brackets. *)
Example generateTopicSuggestions_truncates :
  ∃ w', generateTopicSuggestions openaiSettings (js "materials")
          (worldWith ∅ [openaiSays (js "Here: [1, 2, 3, 4, 5, 6, 7] done")])
        = Some (Ok [JNumber (js "1"); JNumber (js "2"); JNumber (js "3");
                    JNumber (js "4"); JNumber (js "5")], w').
Proof. eexists. vm_compute. reflexivity. Qed.

Example generateTopicSuggestions_empty :
  (∃ w', generateTopicSuggestions openaiSettings (js "materials")
           (worldWith ∅ [openaiSays (js "[]")])
         = Some (Throw parseFailure, w'))
  ∧ (∃ w', generateTopicSuggestions openaiSettings (js "materials")
             (worldWith ∅ [openaiSays (js "no topics")])
           = Some (Throw parseFailure, w')).
Proof. split; eexists; vm_compute; reflexivity. Qed.
(* ================================================================== *)
(** * Further properties of the code *)
(* ================================================================== *)

(** ** More on the retry loop *)

Lemma log_called settings prompt w :
  log (called settings prompt w) = log w ++ sent settings prompt.
Proof.
  unfold called, sent. destruct (keyOf settings); cbn [log answered logged].
  - by rewrite app_nil_r.
  - reflexivity.
Qed.

Lemma network_called settings prompt w :
  network (called settings prompt w) = drop (length (sent settings prompt)) (network w).
Proof.
  unfold called, sent. destruct (keyOf settings); cbn [network answered logged length].
  - reflexivity.
  - by destruct (network w).
Qed.

Lemma log_turn_sent settings prompt attempt e w :
  log (turn settings prompt attempt e w)
  = log w ++ announced attempt ++ sent settings prompt ++ failed attempt e.
Proof.
  unfold turn. cbn [log logged]. rewrite log_called. cbn [log logged].
  by rewrite <- !app_assoc.
Qed.

Lemma network_turn_sent settings prompt attempt e w :
  network (turn settings prompt attempt e w)
  = drop (length (sent settings prompt)) (network w).
Proof. unfold turn. cbn [network logged]. by rewrite network_called. Qed.

Lemma since_app w w' es : log w' = log w ++ es → since w w' = es.
Proof. unfold since. intros ->. by rewrite drop_app_length. Qed.

Lemma requests_sent settings prompt :
  requests (sent settings prompt) = length (sent settings prompt).
Proof. unfold sent. by destruct (keyOf settings). Qed.

Lemma waits_sent settings prompt : waits (sent settings prompt) = [].
Proof. unfold sent. by destruct (keyOf settings). Qed.

Lemma length_sent settings prompt : (length (sent settings prompt) ≤ 1)%nat.
Proof. unfold sent. destruct (keyOf settings); simpl; lia. Qed.

Lemma requests_announced attempt : requests (announced attempt) = 0%nat.
Proof. reflexivity. Qed.

Lemma waits_announced attempt : waits (announced attempt) = [].
Proof. reflexivity. Qed.

Lemma requests_failed attempt e : requests (failed attempt e) = 0%nat.
Proof. unfold failed, backoff. by destruct (attempt <? MAX_RETRIES). Qed.

Lemma waits_failed attempt e :
  waits (failed attempt e)
  = if attempt <? MAX_RETRIES then [RETRY_DELAY * 2 ^ (attempt - 1)] else [].
Proof. unfold failed, backoff. by destruct (attempt <? MAX_RETRIES). Qed.

(** The four ways a call of [callAI] can go, by the attempt that
    succeeds, if any. *)
Lemma callAI_cases settings prompt w :
  (∃ r, attemptOn settings prompt (outcome 0 w) = Ok r
        ∧ callAI settings prompt w
          = Some (Ok r, called settings prompt (logged (announced 1) w)))
  ∨ (∃ e1 r, attemptOn settings prompt (outcome 0 w) = Throw e1
             ∧ attemptOn settings prompt (outcome 1 w) = Ok r
             ∧ callAI settings prompt w
               = Some (Ok r, called settings prompt
                               (logged (announced 2) (turn settings prompt 1 e1 w))))
  ∨ (∃ e1 e2 r, attemptOn settings prompt (outcome 0 w) = Throw e1
                ∧ attemptOn settings prompt (outcome 1 w) = Throw e2
                ∧ attemptOn settings prompt (outcome 2 w) = Ok r
                ∧ callAI settings prompt w
                  = Some (Ok r, called settings prompt
                                  (logged (announced 3)
                                     (turn settings prompt 2 e2
                                        (turn settings prompt 1 e1 w)))))
  ∨ (∃ e1 e2 e3, attemptOn settings prompt (outcome 0 w) = Throw e1
                 ∧ attemptOn settings prompt (outcome 1 w) = Throw e2
                 ∧ attemptOn settings prompt (outcome 2 w) = Throw e3
                 ∧ callAI settings prompt w
                   = Some (Throw (exhausted (Some e3)),
                           turn settings prompt 3 e3
                             (turn settings prompt 2 e2
                                (turn settings prompt 1 e1 w)))).
Proof.
  unfold callAI. change (N.to_nat MAX_RETRIES) with 3%nat.
  destruct (attemptOn settings prompt (outcome 0 w)) as [r|e1] eqn:H1.
  { left. exists r. split; [reflexivity|]. by apply callAI_from_success. }
  right. rewrite (callAI_from_failure _ _ _ _ _ _ e1 H1).
  destruct (attemptOn settings prompt (outcome 1 w)) as [r|e2] eqn:H2.
  { left. exists e1, r. split; [reflexivity|]. split; [reflexivity|].
    apply callAI_from_success. by rewrite outcome_turn. }
  right. rewrite (callAI_from_failure _ _ _ _ _ _ e2) by (by rewrite outcome_turn).
  destruct (attemptOn settings prompt (outcome 2 w)) as [r|e3] eqn:H3.
  { left. exists e1, e2, r. split; [reflexivity|]. split; [reflexivity|].
    split; [reflexivity|].
    apply callAI_from_success. by rewrite !outcome_turn. }
  right. exists e1, e2, e3. split; [reflexivity|]. split; [reflexivity|].
  split; [reflexivity|].
  rewrite (callAI_from_failure _ _ _ _ _ _ e3) by (by rewrite !outcome_turn).
  reflexivity.
Qed.

(** The events of a call of [callAI], in each of the four cases. *)
Lemma since_called settings prompt attempt w0 w es :
  log w = log w0 ++ es →
  since w0 (called settings prompt (logged (announced attempt) w))
  = es ++ announced attempt ++ sent settings prompt.
Proof.
  intros Hw. apply since_app. rewrite log_called. cbn [log logged].
  rewrite Hw. by rewrite <- !app_assoc.
Qed.

Lemma log_turn_since settings prompt attempt e w0 w es :
  log w = log w0 ++ es →
  log (turn settings prompt attempt e w)
  = log w0 ++ (es ++ announced attempt ++ sent settings prompt ++ failed attempt e).
Proof. intros Hw. rewrite log_turn_sent, Hw. by rewrite <- !app_assoc. Qed.
Lemma attemptOn_missing_key settings prompt o :
  keyOf settings = [] →
  attemptOn settings prompt o = Throw (missingKey (aiProvider settings)).
Proof.
  unfold attemptOn, keyOf, callProvider, missingKey,
    callGeminiWithTimeout, callOpenAIWithTimeout, callAnthropicWithTimeout.
  destruct (aiProvider settings); intros ->; reflexivity.
Qed.

Lemma sent_with_key settings prompt :
  keyOf settings ≠ [] → sent settings prompt = [Requested (aiProvider settings) prompt].
Proof. unfold sent. by destruct (keyOf settings). Qed.

Lemma sent_without_key settings prompt : keyOf settings = [] → sent settings prompt = [].
Proof. unfold sent. by intros ->. Qed.

Lemma vault_called settings prompt w : vault (called settings prompt w) = vault w.
Proof. unfold called. by destruct (keyOf settings). Qed.

(** Counting over the events of a call. *)
Ltac count_events :=
  cbn [app];
  rewrite ?requests_app, ?waits_app, ?requests_sent, ?waits_sent,
    ?requests_announced, ?waits_announced, ?requests_failed, ?waits_failed.

(** X1 (the first success ends the loop).  When the attempts before
    attempt [n + 1] fail, with any errors, and attempt [n + 1] succeeds,
    [callAI] returns the result of that attempt: it has sent [n + 1]
    requests and consumed as many outcomes of the network, it has waited
    1000 ms and 2000 ms after the first and the second failure and not
    otherwise, and it has left the vault alone. *)
Theorem callAI_first_success settings prompt w n r :
  (n < 3)%nat →
  (∀ i, (i < n)%nat → ∃ e, attemptOn settings prompt (outcome i w) = Throw e) →
  attemptOn settings prompt (outcome n w) = Ok r →
  ∃ w', callAI settings prompt w = Some (Ok r, w')
        ∧ requests (since w w') = S n
        ∧ waits (since w w') = take n [1000; 2000]
        ∧ network w' = drop (S n) (network w)
        ∧ vault w' = vault w.
Proof.
  intros Hn Hfail Hok.
  assert (Hk : keyOf settings ≠ []).
  { intros Hk. rewrite attemptOn_missing_key in Hok by done. discriminate Hok. }
  assert (Hlen : length (sent settings prompt) = 1%nat)
    by (by rewrite sent_with_key).
  destruct (callAI_cases settings prompt w)
    as [(r0 & H0 & ->)|[(e1 & r1 & H0 & H1 & ->)
       |[(e1 & e2 & r2 & H0 & H1 & H2 & ->)|(e1 & e2 & e3 & H0 & H1 & H2 & _)]]].
  - destruct n as [|n].
    + assert (r0 = r) as -> by congruence. eexists. split; [reflexivity|].
      rewrite (since_called _ _ _ w w []) by (by rewrite app_nil_r).
      rewrite network_called, vault_called. cbn [network vault logged].
      count_events. rewrite Hlen. done.
    + destruct (Hfail 0%nat ltac:(lia)) as [e He]. congruence.
  - destruct n as [|[|n]].
    + congruence.
    + assert (r1 = r) as -> by congruence. eexists. split; [reflexivity|].
      rewrite (since_called _ _ _ w _ _ (log_turn_since _ _ _ _ w w [] ltac:(by rewrite app_nil_r))).
      rewrite network_called, vault_called. cbn [network vault logged].
      rewrite network_turn_sent, vault_turn, drop_drop.
      count_events. rewrite Hlen. done.
    + destruct (Hfail 1%nat ltac:(lia)) as [e He]. congruence.
  - destruct n as [|[|[|n]]]; [congruence| |  |lia].
    + congruence.
    + assert (r2 = r) as -> by congruence. eexists. split; [reflexivity|].
      rewrite (since_called _ _ _ w _ _
                 (log_turn_since _ _ _ _ w _ _
                    (log_turn_since _ _ _ _ w w [] ltac:(by rewrite app_nil_r)))).
      rewrite network_called, vault_called. cbn [network vault logged].
      rewrite !network_turn_sent, !vault_turn, !drop_drop.
      count_events. rewrite Hlen. done.
  - destruct n as [|[|[|n]]]; [congruence|congruence|congruence|lia].
Qed.

Lemma callAI_first_success_witness :
  let settings := settingsFor gemini (js "key") in
  let said := Responded {| status := 200; text := [];
                json := Some (JObject [(js "candidates",
                  JArray [JObject [(js "content",
                    JObject [(js "parts",
                      JArray [JObject [(js "text", JString (js "draft"))]])])]])]) |} in
  let w2 := worldWith ∅ [geminiBlocked; said; Pending] in
  (1 < 3)%nat
  ∧ attemptOn settings (js "prompt") (outcome 1 w2) = Ok (js "draft")
  ∧ ∃ w', callAI settings (js "prompt") w2 = Some (Ok (js "draft"), w')
          ∧ requests (since w2 w') = 2%nat
          ∧ waits (since w2 w') = [1000]
          ∧ network w' = [Pending].
Proof.
  intros settings said w2.
  assert (H1 : attemptOn settings (js "prompt") (outcome 1 w2) = Ok (js "draft"))
    by (vm_compute; reflexivity).
  split; [lia|]. split; [exact H1|].
  destruct (callAI_first_success settings (js "prompt") w2 1 (js "draft")) as
    (w' & Hcall & Hreq & Hwait & Hnet & _).
  - lia.
  - intros i Hi. assert (i = 0%nat) as -> by lia. eexists. vm_compute. reflexivity.
  - exact H1.
  - exists w'. split; [exact Hcall|]. split; [exact Hreq|]. split; [exact Hwait|].
    exact Hnet.
Defined.

Lemma callAI_throws_exhausted settings prompt w e w' :
  callAI settings prompt w = Some (Throw e, w') → ∃ last, e = exhausted (Some last).
Proof.
  destruct (callAI_cases settings prompt w)
    as [(r0 & H0 & ->)|[(e1 & r1 & H0 & H1 & ->)
       |[(e1 & e2 & r2 & H0 & H1 & H2 & ->)|(e1 & e2 & e3 & H0 & H1 & H2 & ->)]]];
    intros [= <- <-]. by exists e3.
Qed.

(** X2 (bounds of a call).  Every call of [callAI] comes to an end.  It
    sends at most three requests and consumes as many outcomes of the
    network; it waits at most twice, 1000 ms and then 2000 ms, and never
    after the last attempt; it leaves the vault as it was; and an error it
    throws is always the aggregated one, thrown after both waits, never the
    bare error of a provider. *)
Theorem callAI_bounds settings prompt w :
  ∃ r w', callAI settings prompt w = Some (r, w')
          ∧ (requests (since w w') ≤ 3)%nat
          ∧ network w' = drop (requests (since w w')) (network w)
          ∧ vault w' = vault w
          ∧ match r with
            | Ok _ => waits (since w w') ∈ [[]; [1000]; [1000; 2000]]
            | Throw e => waits (since w w') = [1000; 2000]
                         ∧ ∃ last, e = exhausted (Some last)
            end.
Proof.
  pose proof (length_sent settings prompt) as Hlen.
  destruct (callAI_cases settings prompt w)
    as [(r0 & H0 & ->)|[(e1 & r1 & H0 & H1 & ->)
       |[(e1 & e2 & r2 & H0 & H1 & H2 & ->)|(e1 & e2 & e3 & H0 & H1 & H2 & ->)]]];
    eexists _, _; (split; [reflexivity|]).
  - rewrite (since_called _ _ _ w w []) by (by rewrite app_nil_r).
    rewrite network_called, vault_called. cbn [network vault logged].
    count_events. cbn [app Nat.add].
    split; [lia|]. split; [reflexivity|]. split; [reflexivity|].
    apply list_elem_of_here.
  - rewrite (since_called _ _ _ w _ _ (log_turn_since _ _ _ _ w w [] ltac:(by rewrite app_nil_r))).
    rewrite network_called, vault_called. cbn [network vault logged].
    rewrite network_turn_sent, vault_turn, drop_drop.
    count_events. cbn [app Nat.add].
    split; [lia|]. split; [f_equal; lia|]. split; [reflexivity|].
    apply list_elem_of_further, list_elem_of_here.
  - rewrite (since_called _ _ _ w _ _
               (log_turn_since _ _ _ _ w _ _
                  (log_turn_since _ _ _ _ w w [] ltac:(by rewrite app_nil_r)))).
    rewrite network_called, vault_called. cbn [network vault logged].
    rewrite !network_turn_sent, !vault_turn, !drop_drop.
    count_events. cbn [app Nat.add].
    split; [lia|]. split; [f_equal; lia|]. split; [reflexivity|].
    apply list_elem_of_further, list_elem_of_further, list_elem_of_here.
  - rewrite (since_app w _ _
               (log_turn_since _ _ _ _ w _ _
                  (log_turn_since _ _ _ _ w _ _
                     (log_turn_since _ _ _ _ w w [] ltac:(by rewrite app_nil_r))))).
    rewrite !network_turn_sent, !vault_turn, !drop_drop.
    count_events. cbn [app Nat.add].
    split; [lia|]. split; [f_equal; lia|]. split; [reflexivity|].
    split; [reflexivity|]. by exists e3.
Qed.

(** X3 (no key, no request).  When the key of the configured provider is
    empty, [callAI] sends no request at all and consumes nothing of the
    network; it still goes through its three attempts, with the waits of
    1000 ms and 2000 ms, and throws the aggregated error that carries the
    message of the missing key. *)
Theorem callAI_without_key settings prompt w :
  keyOf settings = [] →
  ∃ w', callAI settings prompt w
        = Some (Throw (js "AI 호출 실패 (3회 시도): "
                       ++ missingKey (aiProvider settings)), w')
        ∧ requests (since w w') = 0%nat
        ∧ network w' = network w
        ∧ waits (since w w') = [1000; 2000]
        ∧ vault w' = vault w.
Proof.
  intros Hk.
  pose proof (attemptOn_missing_key settings prompt) as Hmiss.
  pose proof (sent_without_key settings prompt Hk) as Hsent.
  eexists. split.
  { rewrite (callAI_three_failures settings prompt w _ _ _
               (Hmiss _ Hk) (Hmiss _ Hk) (Hmiss _ Hk)).
    rewrite exhausted_message. do 3 f_equal.
    destruct (aiProvider settings); vm_compute; reflexivity. }
  rewrite (since_app w _ _
             (log_turn_since _ _ _ _ w _ _
                (log_turn_since _ _ _ _ w _ _
                   (log_turn_since _ _ _ _ w w [] ltac:(by rewrite app_nil_r))))).
  rewrite !network_turn_sent, !vault_turn, Hsent.
  count_events. done.
Qed.

Lemma callAI_without_key_witness :
  let settings :=
    {| aiProvider := anthropic; openaiApiKey := js "sk-openai";
       anthropicApiKey := []; geminiApiKey := js "g-key";
       openaiModel := js "gpt-4o"; anthropicModel := js "claude-sonnet-4-20250514";
       geminiModel := js "gemini-2.5-flash-preview-05-20";
       outputLanguage := js "English" |} in
  let w := worldWith ∅ [openaiSays (js "never read")] in
  keyOf settings = []
  ∧ ∃ w', callAI settings (js "prompt") w
          = Some (Throw (js "AI 호출 실패 (3회 시도): Anthropic API 키가 설정되지 않았습니다. 설정에서 API 키를 입력해주세요."), w')
          ∧ requests (since w w') = 0%nat
          ∧ network w' = [openaiSays (js "never read")].
Proof.
  intros settings w.
  assert (Hk : keyOf settings = []) by reflexivity.
  split; [exact Hk|].
  destruct (callAI_without_key settings (js "prompt") w Hk)
    as (w' & Hcall & Hreq & Hnet & _).
  exists w'. split; [|split; [exact Hreq | exact Hnet]].
  rewrite Hcall. vm_compute. reflexivity.
Defined.
(** ** More on the parser and the synthesizer *)

Lemma closings_app s t : closings (s ++ t) = (closings s + closings t)%nat.
Proof. unfold closings. by rewrite filter_app, length_app. Qed.

Lemma closings_suffix r s : r `suffix_of` s → (closings r ≤ closings s)%nat.
Proof. intros [pre ->]. rewrite closings_app. lia. Qed.

Lemma closings_cons c s :
  closings (c :: s) = ((if (c =? 93)%N then 1 else 0) + closings s)%nat.
Proof.
  unfold closings. rewrite filter_cons.
  destruct (c =? 93) eqn:Hc.
  - apply N.eqb_eq in Hc. by rewrite decide_True.
  - apply N.eqb_neq in Hc. by rewrite decide_False.
Qed.

Lemma closings_none s : 93 ∉ s → closings s = 0%nat.
Proof.
  induction s as [|c s IH]; [done|].
  rewrite not_elem_of_cons, closings_cons. intros [Hc Hs].
  rewrite IH by done. apply not_eq_sym, N.eqb_neq in Hc. by rewrite Hc.
Qed.

Lemma skip_ws_suffix s : skip_ws s `suffix_of` s.
Proof.
  induction s as [|c t IH]; simpl; [done|].
  destruct (is_ws c); [by apply suffix_cons_r | done].
Qed.

Lemma next_suffix s c t : next s = Some (c, t) → (c :: t) `suffix_of` s.
Proof.
  unfold next. pose proof (skip_ws_suffix s) as H.
  destruct (skip_ws s) as [|c' t']; [done|]. by intros [= <- <-].
Qed.

Lemma closes_suffix c s t : closes c s = Some t → (c :: t) `suffix_of` s.
Proof.
  unfold closes. destruct (next s) as [[c' t']|] eqn:Hn; [|done].
  destruct (c' =? c) eqn:Hc; [|done]. intros [= <-].
  apply N.eqb_eq in Hc as <-. by apply next_suffix.
Qed.

Lemma closes_closings c s t :
  closes c s = Some t → (closings (c :: t) ≤ closings s)%nat.
Proof. intros H%closes_suffix. by apply closings_suffix. Qed.

Lemma strip_prefix_suffix p s r : strip_prefix p s = Some r → r `suffix_of` s.
Proof.
  revert s. induction p as [|a p IH]; intros [|b s]; simpl; try done.
  - by intros [= <-].
  - by intros [= <-].
  - destruct (a =? b); [|done]. intros H%IH. by apply suffix_cons_r.
Qed.

Lemma prepend_inv c o x r :
  prepend c o = Some (x, r) → ∃ x', o = Some (x', r).
Proof. destruct o as [[x' r']|]; simpl; [|done]. intros [= _ <-]. by eexists. Qed.

Lemma parse_chars_suffix s x r : parse_chars s = Some (x, r) → r `suffix_of` s.
Proof.
  remember (length s) as n eqn:Hn. revert s x r Hn.
  induction n as [n IH] using lt_wf_ind. intros s x r Hn.
  destruct s as [|c t]; [done|]. cbn [parse_chars].
  destruct (c =? 34).
  { intros [= _ <-]. by apply suffix_cons_r. }
  destruct (c =? 92).
  - destruct t as [|e t']; [done|].
    destruct (escape e).
    + intros (x' & H')%prepend_inv. subst n.
      pose proof (IH (length t') ltac:(simpl; lia) t' x' r eq_refl H').
      by do 2 apply suffix_cons_r.
    + destruct (e =? 117); [|done].
      destruct t' as [|h1 [|h2 [|h3 [|h4 t4]]]]; try done.
      destruct (hex_val h1), (hex_val h2), (hex_val h3), (hex_val h4); try done.
      intros (x' & H')%prepend_inv. subst n.
      pose proof (IH (length t4) ltac:(simpl; lia) t4 x' r eq_refl H').
      by do 6 apply suffix_cons_r.
  - destruct (c <? 32); [done|].
    intros (x' & H')%prepend_inv. subst n.
    pose proof (IH (length t) ltac:(simpl; lia) t x' r eq_refl H').
    by apply suffix_cons_r.
Qed.

Lemma digits_suffix s d r : digits s = (d, r) → r `suffix_of` s.
Proof.
  revert d r. induction s as [|c t IH]; intros d r; simpl.
  - by intros [= <- <-].
  - destruct (is_digit c).
    + destruct (digits t) as [d' r'] eqn:Ht. intros [= <- <-].
      apply suffix_cons_r. by eapply IH.
    + by intros [= <- <-].
Qed.

Lemma sign_of_suffix s sign s1 : sign_of s = (sign, s1) → s1 `suffix_of` s.
Proof.
  unfold sign_of. destruct s as [|c t]; [by intros [= _ <-]|].
  destruct (c =? 45); intros [= _ <-]; [by apply suffix_cons_r | done].
Qed.

Lemma integer_suffix s int r : integer s = Some (int, r) → r `suffix_of` s.
Proof.
  unfold integer. destruct (digits s) as [d r'] eqn:Hd.
  apply digits_suffix in Hd.
  destruct d as [|c [|c' d]]; [done| |].
  - by intros [= _ <-].
  - destruct (c =? 48); [done|]. by intros [= _ <-].
Qed.

Lemma fraction_suffix s f r : fraction s = Some (f, r) → r `suffix_of` s.
Proof.
  unfold fraction. destruct s as [|c t]; [by intros [= _ <-]|].
  destruct (c =? 46); [|by intros [= _ <-]].
  destruct (digits t) as [d r'] eqn:Hd. apply digits_suffix in Hd.
  destruct d; [done|]. intros [= _ <-]. by apply suffix_cons_r.
Qed.

Lemma exponent_suffix s x r : exponent s = Some (x, r) → r `suffix_of` s.
Proof.
  unfold exponent. destruct s as [|e t]; [by intros [= _ <-]|].
  destruct ((e =? 101) || (e =? 69)); [|by intros [= _ <-]].
  destruct (match t with
            | c :: u => if (c =? 43) || (c =? 45) then ([c], u) else ([], t)
            | [] => ([], t)
            end) as [sg t'] eqn:Hsg.
  assert (Ht : t' `suffix_of` t).
  { destruct t as [|c u]; [by injection Hsg as _ <-|].
    destruct ((c =? 43) || (c =? 45)); injection Hsg as _ <-;
      [by apply suffix_cons_r | done]. }
  destruct (digits t') as [d r'] eqn:Hd. apply digits_suffix in Hd.
  destruct d; [done|]. intros [= _ <-].
  apply suffix_cons_r. by etrans.
Qed.

Lemma parse_number_suffix s x r : parse_number s = Some (x, r) → r `suffix_of` s.
Proof.
  unfold parse_number.
  destruct (sign_of s) as [sign s1] eqn:H1. apply sign_of_suffix in H1.
  destruct (integer s1) as [[int s2]|] eqn:H2; [|done]. apply integer_suffix in H2.
  destruct (fraction s2) as [[f s3]|] eqn:H3; [|done]. apply fraction_suffix in H3.
  destruct (exponent s3) as [[e s4]|] eqn:H4; [|done]. apply exponent_suffix in H4.
  intros [= _ <-]. by repeat (etrans; [eassumption|]).
Qed.

(** A parser that returns a value has read at least one closing bracket
    for each array in it. *)
Lemma parsers_closings fuel :
  (∀ s v r, parse_value fuel s = POk v r →
            (closings r + arrays v ≤ closings s)%nat)
  ∧ (∀ s vs r, parse_elems fuel s = POk vs r →
               (closings r + S (list_sum (map arrays vs)) ≤ closings s)%nat)
  ∧ (∀ s fs r, parse_members fuel s = POk fs r →
               (closings r + list_sum (map (λ kv, match kv with (_, x) => arrays x end) fs)
                ≤ closings s)%nat).
Proof.
  induction fuel as [|f (IHv & IHe & IHm)].
  { repeat split; intros; discriminate. }
  split; [|split]; intros s.
  - intros v r. cbn [parse_value].
    destruct (next s) as [[c t]|] eqn:Hn; [|done].
    apply next_suffix, closings_suffix in Hn. rewrite closings_cons in Hn.
    destruct (c =? 91).
    { destruct (closes 93 t) as [t'|] eqn:Hc.
      - intros [= <- <-]. apply closes_closings in Hc.
        rewrite closings_cons in Hc. simpl in *. lia.
      - destruct (parse_elems f t) as [vs r'| |] eqn:He; simpl; [|done|done].
        intros [= <- <-]. apply IHe in He. simpl. lia. }
    destruct (c =? 123).
    { destruct (closes 125 t) as [t'|] eqn:Hc.
      - intros [= <- <-]. apply closes_closings in Hc.
        rewrite closings_cons in Hc. simpl in *. lia.
      - destruct (parse_members f t) as [fs r'| |] eqn:He; simpl; [|done|done].
        intros [= <- <-]. apply IHm in He. simpl. lia. }
    destruct (c =? 34).
    { destruct (parse_chars t) as [[x r']|] eqn:Hp; simpl; [|done].
      intros [= <- <-]. apply parse_chars_suffix, closings_suffix in Hp. simpl. lia. }
    destruct ((c =? 45) || is_digit c).
    { destruct (parse_number (c :: t)) as [[x r']|] eqn:Hp; simpl; [|done].
      intros [= <- <-]. apply parse_number_suffix, closings_suffix in Hp.
      rewrite closings_cons in Hp. simpl. lia. }
    destruct (strip_prefix (js "true") (c :: t)) as [r'|] eqn:H1.
    { intros [= <- <-]. apply strip_prefix_suffix, closings_suffix in H1.
      rewrite closings_cons in H1. simpl. lia. }
    destruct (strip_prefix (js "false") (c :: t)) as [r'|] eqn:H2.
    { intros [= <- <-]. apply strip_prefix_suffix, closings_suffix in H2.
      rewrite closings_cons in H2. simpl. lia. }
    destruct (strip_prefix (js "null") (c :: t)) as [r'|] eqn:H3; [|done].
    intros [= <- <-]. apply strip_prefix_suffix, closings_suffix in H3.
    rewrite closings_cons in H3. simpl. lia.
  - intros vs r. cbn [parse_elems].
    destruct (parse_value f s) as [v r0| |] eqn:Hv; [|done|done].
    apply IHv in Hv.
    destruct (closes 44 r0) as [r'|] eqn:Hc.
    { apply closes_closings in Hc. rewrite closings_cons in Hc.
      destruct (parse_elems f r') as [vs' r''| |] eqn:He; simpl; [|done|done].
      intros [= <- <-]. apply IHe in He. simpl in *. lia. }
    destruct (closes 93 r0) as [r'|] eqn:Hc'; [|done].
    intros [= <- <-]. apply closes_closings in Hc'.
    rewrite closings_cons in Hc'. simpl in *. lia.
  - intros fs r. cbn [parse_members].
    destruct (closes 34 s) as [t|] eqn:H1; [|done].
    apply closes_closings in H1. rewrite closings_cons in H1.
    destruct (parse_chars t) as [[k r0]|] eqn:H2; [|done].
    apply parse_chars_suffix, closings_suffix in H2.
    destruct (closes 58 r0) as [r1|] eqn:H3; [|done].
    apply closes_closings in H3. rewrite closings_cons in H3.
    destruct (parse_value f r1) as [v r2| |] eqn:Hv; [|done|done].
    apply IHv in Hv.
    destruct (closes 44 r2) as [r3|] eqn:H4.
    { apply closes_closings in H4. rewrite closings_cons in H4.
      destruct (parse_members f r3) as [fs' r''| |] eqn:He; simpl; [|done|done].
      intros [= <- <-]. apply IHm in He. simpl in *. lia. }
    destruct (closes 125 r2) as [r3|] eqn:H5; [|done].
    intros [= <- <-]. apply closes_closings in H5.
    rewrite closings_cons in H5. simpl in *. lia.
Qed.

Lemma JSON_parse_closings s v r :
  JSON_parse s = POk v r → (arrays v ≤ closings s)%nat.
Proof.
  unfold JSON_parse.
  destruct (parse_value (2 * length s + 2) s) as [v' r'| |] eqn:Hp; [|done|done].
  destruct (skip_ws r'); [|done]. intros [= <- <-].
  apply (proj1 (parsers_closings _)) in Hp. lia.
Qed.

Lemma list_sum_zero (l : list nat) : list_sum l = 0%nat → Forall (λ n, n = 0%nat) l.
Proof.
  induction l as [|n l IH]; simpl; intros H; [by apply Forall_nil|].
  apply Forall_cons. split; [lia|]. apply IH. lia.
Qed.
Lemma until_close_prefix s m : until_close s = Some m → ∃ post, s = m ++ post.
Proof.
  revert m. induction s as [|c t IH]; intros m; simpl; [done|].
  destruct (c =? 93).
  - intros [= <-]. by exists t.
  - destruct (until_close t) as [m'|]; simpl; [|done].
    intros [= <-]. destruct (IH m' eq_refl) as [post ->]. by exists post.
Qed.

Lemma until_close_None s : until_close s = None → 93 ∉ s.
Proof.
  induction s as [|c t IH]; simpl; [intros _; apply not_elem_of_nil|].
  destruct (c =? 93) eqn:Hc; [done|].
  destruct (until_close t); simpl; [done|]. intros _.
  apply N.eqb_neq in Hc. rewrite not_elem_of_cons. split; [congruence | by apply IH].
Qed.

(** X4 (what the pattern of the synthesizer matches).  The match of
    [/\[[\s\S]*?\]/] begins at the first opening bracket of the response and
    ends at the first closing bracket after it, whatever brackets were
    opened in between; there is no match only when no closing bracket
    follows an opening one. *)
Theorem match_brackets_leftmost s :
  match match_brackets s with
  | Some m =>
      ∃ pre body post, s = pre ++ m ++ post ∧ m = 91 :: body ++ [93]
                       ∧ (91 ∉ pre) ∧ (93 ∉ body)
  | None => ∀ pre post, s = pre ++ 91 :: post → 93 ∉ post
  end.
Proof.
  induction s as [|c t IH]; cbn [match_brackets].
  { intros pre post H. by destruct pre. }
  destruct (c =? 91) eqn:Hc.
  - apply N.eqb_eq in Hc as ->.
    destruct (until_close t) as [m|] eqn:Hm.
    + destruct (until_close_shape _ _ Hm) as (body & -> & Hb).
      destruct (until_close_prefix _ _ Hm) as [post ->].
      exists [], body, post. split; [reflexivity|]. split; [reflexivity|].
      split; [apply not_elem_of_nil | exact Hb].
    + apply until_close_None in Hm.
      destruct (match_brackets t) as [m|].
      * destruct IH as (pre & body & post & -> & -> & _ & _).
        exfalso. apply Hm. rewrite elem_of_app. right.
        rewrite elem_of_app. left. rewrite elem_of_cons. right.
        rewrite elem_of_app. right. apply list_elem_of_here.
      * intros pre post H. destruct pre as [|c pre].
        -- injection H as <-. exact Hm.
        -- injection H as _ ->. by eapply IH.
  - apply N.eqb_neq in Hc.
    destruct (match_brackets t) as [m|].
    + destruct IH as (pre & body & post & -> & -> & Hpre & Hb).
      exists (c :: pre), body, post. split; [reflexivity|]. split; [reflexivity|].
      split; [|exact Hb]. rewrite not_elem_of_cons. split; [congruence | exact Hpre].
    + intros pre post H. destruct pre as [|c' pre].
      * injection H as ? _. congruence.
      * injection H as _ ->. by eapply IH.
Qed.

Lemma match_brackets_leftmost_witness :
  match_brackets (js "a[ b") = None ∧ 93 ∉ js " b".
Proof.
  assert (Hm : match_brackets (js "a[ b") = None) by (vm_compute; reflexivity).
  split; [exact Hm|].
  pose proof (match_brackets_leftmost (js "a[ b")) as H. rewrite Hm in H.
  apply (H (js "a") (js " b")). vm_compute. reflexivity.
Defined.

(** The ways [generateTopicSuggestions] ends, read off its code. *)
Lemma generateTopicSuggestions_inv settings content w r w1 :
  generateTopicSuggestions settings content w = Some (r, w1) →
  let prompt := topicsPrompt (or_else (outputLanguage settings) (js "한국어")) content in
  let w0 := logged [Progress (js "소재 분석 중...")] w in
  (∃ e, callAI settings prompt w0 = Some (Throw e, w1) ∧ r = Throw e)
  ∨ (∃ response jsonMatch t ts,
       callAI settings prompt w0 = Some (Ok response, w1)
       ∧ match_brackets response = Some jsonMatch
       ∧ JSON_parse jsonMatch = POk (JArray (t :: ts)) []
       ∧ r = Ok (take 5 (t :: ts)))
  ∨ (∃ response w' error,
       callAI settings prompt w0 = Some (Ok response, w')
       ∧ r = Throw parseFailure
       ∧ w1 = logged [ConsoleError [js "Failed to parse topic suggestions:";
                                    error; response]] w').
Proof.
  intros Hrun prompt w0. unfold parseFailure.
  unfold generateTopicSuggestions in Hrun. cbv zeta in Hrun.
  unfold bind at 1 in Hrun. rewrite emit_logged in Hrun.
  fold prompt w0 in Hrun. unfold bind at 1 in Hrun.
  destruct (callAI settings prompt w0) as [[[response|e] w']|]; [| |discriminate Hrun].
  2:{ left. exists e. injection Hrun as <- <-. split; reflexivity. }
  right. unfold try_catch in Hrun.
  assert (Hfail : ∀ error,
            (emit (ConsoleError [js "Failed to parse topic suggestions:"; error; response]) ;;
             throw (js "주제 제안 파싱 실패: AI 응답 형식이 올바르지 않습니다.")) w'
            = Some (r, w1) →
            r = Throw (js "주제 제안 파싱 실패: AI 응답 형식이 올바르지 않습니다.")
            ∧ w1 = logged [ConsoleError [js "Failed to parse topic suggestions:";
                                         error; response]] w').
  { intros error H. unfold bind in H. rewrite emit_logged in H.
    unfold throw in H. injection H as <- <-. split; reflexivity. }
  destruct (match_brackets response) as [jsonMatch|] eqn:Hm.
  2:{ right. exists response, w', (js "유효한 주제를 생성하지 못했습니다.").
      split; [reflexivity|]. apply Hfail. exact Hrun. }
  pose proof (JSON_parse_decides jsonMatch) as Hdec.
  destruct (JSON_parse jsonMatch) as [v rest| |] eqn:Hp; [| |done].
  2:{ right. exists response, w', (js "SyntaxError").
      split; [reflexivity|]. apply Hfail. exact Hrun. }
  assert (rest = []) as ->.
  { unfold JSON_parse in Hp.
    destruct (parse_value _ jsonMatch); [|done|done].
    destruct (skip_ws _); [|done]. by injection Hp as _ <-. }
  destruct v as [|b|lexeme|str|[|t ts]|fields].
  6:{ left. exists response, jsonMatch, t, ts. injection Hrun as <- <-.
      split; [reflexivity|]. split; [exact Hm|]. split; [exact Hp | reflexivity]. }
  all: right; exists response, w', (js "유효한 주제를 생성하지 못했습니다.").
  all: split; [reflexivity|]; apply Hfail; exact Hrun.
Qed.

(** X5 (the outcomes of the synthesizer).  [generateTopicSuggestions]
    always comes to an end.  What it returns has between one and five
    elements.  What it throws is the aggregated error of [callAI] or its
    own parse failure: a missing match, a [SyntaxError] of [JSON.parse], a
    value that is no array and an empty array all surface as that one
    message. *)
Theorem generateTopicSuggestions_outcomes settings content w :
  ∃ r w', generateTopicSuggestions settings content w = Some (r, w')
          ∧ match r with
            | Ok found => (1 ≤ length found ≤ 5)%nat
            | Throw e => e = parseFailure ∨ ∃ last, e = exhausted (Some last)
            end.
Proof.
  destruct (generateTopicSuggestions_returns settings content w) as (r & w' & Hrun).
  exists r, w'. split; [exact Hrun|].
  destruct (generateTopicSuggestions_inv settings content w r w' Hrun)
    as [(e & Hcall & ->)|[(response & jsonMatch & t & ts & _ & _ & _ & ->)
       |(response & w0 & error & _ & -> & _)]].
  - right. exact (callAI_throws_exhausted settings _ _ _ _ Hcall).
  - rewrite length_take. cbn [length]. lia.
  - left. reflexivity.
Qed.

(** X6 (no nested array ever comes back).  Whatever the provider
    answers, the value [generateTopicSuggestions] returns is the first five
    elements of the array that [JSON.parse] read from the matched text, and
    no element of it holds an array: the match ends at the first closing
    bracket, so the text has a single one.  A topic whose outline is a list
    is thus never returned. *)
Theorem generateTopicSuggestions_flat settings content w found w' :
  generateTopicSuggestions settings content w = Some (Ok found, w') →
  ∃ response jsonMatch all,
    match_brackets response = Some jsonMatch
    ∧ closings jsonMatch = 1%nat
    ∧ JSON_parse jsonMatch = POk (JArray all) []
    ∧ found = take 5 all
    ∧ Forall (λ v, arrays v = 0%nat) all
    ∧ Forall (λ v, ∀ fields k xs,
                v = JObject fields → field k fields ≠ Some (JArray xs)) found.
Proof.
  intros Hrun.
  destruct (generateTopicSuggestions_inv settings content w _ _ Hrun)
    as [(e & _ & [=])|[(response & jsonMatch & t & ts & _ & Hm & Hp & [= ->])
       |(response & w0 & error & _ & [=] & _)]].
  exists response, jsonMatch, (t :: ts).
  assert (Hone : closings jsonMatch = 1%nat).
  { destruct (match_brackets_shape _ _ Hm) as (body & -> & Hb).
    rewrite closings_cons, closings_app, (closings_none body Hb). reflexivity. }
  assert (Hflat : Forall (λ v, arrays v = 0%nat) (t :: ts)).
  { pose proof (JSON_parse_closings _ _ _ Hp) as Hle.
    rewrite Hone in Hle. cbn [arrays] in Hle.
    assert (Hsum : list_sum (map arrays (t :: ts)) = 0%nat) by lia.
    apply list_sum_zero in Hsum. rewrite Forall_forall in Hsum.
    apply Forall_forall. intros v Hv. apply Hsum.
    apply list_elem_of_fmap. by exists v. }
  split; [exact Hm|]. split; [exact Hone|]. split; [exact Hp|].
  split; [reflexivity|]. split; [exact Hflat|].
  apply Forall_forall. intros v Hv fields k xs -> Hk.
  assert (Hin : JObject fields ∈ t :: ts) by (apply (subseteq_take 5); exact Hv).
  rewrite Forall_forall in Hflat. specialize (Hflat _ Hin). cbn [arrays] in Hflat.
  apply list_sum_zero in Hflat. rewrite Forall_forall in Hflat.
  clear Hin Hv. revert Hflat Hk.
  induction fields as [|[k' x] fields IH]; intros Hflat Hk; [discriminate Hk|].
  cbn [field] in Hk.
  destruct (field k fields) as [v'|] eqn:Hf.
  - injection Hk as ->. apply IH; [|reflexivity].
    intros n Hn. apply Hflat. simpl. by apply list_elem_of_further.
  - destruct (eqs k k'); [|discriminate Hk]. injection Hk as ->.
    specialize (Hflat (arrays (JArray xs)) ltac:(simpl; apply list_elem_of_here)).
    simpl in Hflat. lia.
Qed.

Lemma generateTopicSuggestions_flat_witness :
  let w := worldWith ∅ [openaiSays (jq "Topics: [{`title`:`T`,`outline`:`a, b`}, 2] end")] in
  ∃ found w',
    generateTopicSuggestions openaiSettings (js "materials") w = Some (Ok found, w')
    ∧ found = [JObject [(js "title", JString (js "T"));
                        (js "outline", JString (js "a, b"))];
               JNumber (js "2")]
    ∧ Forall (λ v, arrays v = 0%nat) found.
Proof.
  intros w.
  match eval vm_compute in (generateTopicSuggestions openaiSettings (js "materials") w) with
  | Some (Ok ?a, ?b) => pose (found := a); pose (w' := b)
  end.
  assert (Hrun : generateTopicSuggestions openaiSettings (js "materials") w
                 = Some (Ok found, w')) by (vm_compute; reflexivity).
  exists found, w'. split; [exact Hrun|]. split; [vm_compute; reflexivity|].
  destruct (generateTopicSuggestions_flat openaiSettings (js "materials") w found w' Hrun)
    as (response & jsonMatch & all & _ & _ & _ & Hfound & Hflat & _).
  rewrite Hfound. by apply Forall_take.
Defined.
(** ** More on the clients *)





Lemma not_requested_announced attempt p q : Requested p q ∉ announced attempt.
Proof. unfold announced. rewrite not_elem_of_cons. split; [done|apply not_elem_of_nil]. Qed.

Lemma not_requested_failed attempt e p q : Requested p q ∉ failed attempt e.
Proof.
  unfold failed, backoff. destruct (attempt <? MAX_RETRIES);
    rewrite ?not_elem_of_cons; repeat split; try done; apply not_elem_of_nil.
Qed.

Lemma requested_sent settings prompt p q :
  Requested p q ∈ sent settings prompt → p = aiProvider settings ∧ q = prompt.
Proof.
  unfold sent. destruct (keyOf settings); [by intros ?%elem_of_nil|].
  intros H%list_elem_of_singleton. by injection H as -> ->.
Qed.

(** X8 (every attempt sends the same request).  All the requests of a
    call of [callAI] go to the provider of the settings and carry the
    prompt as it was given: a retry repeats the request, it does not alter
    it. *)
Theorem callAI_same_request settings prompt w r w' :
  callAI settings prompt w = Some (r, w') →
  ∀ p q, Requested p q ∈ since w w' → p = aiProvider settings ∧ q = prompt.
Proof.
  intros Hrun p q.
  assert (Hturn : ∀ es attempt e,
            (Requested p q ∈ es → p = aiProvider settings ∧ q = prompt) →
            Requested p q ∈ es ++ announced attempt ++ sent settings prompt
                               ++ failed attempt e →
            p = aiProvider settings ∧ q = prompt).
  { intros es attempt e Hes. rewrite !elem_of_app.
    intros [H|[H|[H|H]]];
      [by apply Hes | by apply not_requested_announced in H
      | by apply requested_sent in H | by apply not_requested_failed in H]. }
  assert (Hlast : ∀ es attempt,
            (Requested p q ∈ es → p = aiProvider settings ∧ q = prompt) →
            Requested p q ∈ es ++ announced attempt ++ sent settings prompt →
            p = aiProvider settings ∧ q = prompt).
  { intros es attempt Hes. rewrite !elem_of_app.
    intros [H|[H|H]];
      [by apply Hes | by apply not_requested_announced in H
      | by apply requested_sent in H]. }
  assert (Hnil : Requested p q ∈ [] → p = aiProvider settings ∧ q = prompt)
    by (by intros ?%elem_of_nil).
  revert Hrun.
  destruct (callAI_cases settings prompt w)
    as [(r0 & H0 & ->)|[(e1 & r1 & H0 & H1 & ->)
       |[(e1 & e2 & r2 & H0 & H1 & H2 & ->)|(e1 & e2 & e3 & H0 & H1 & H2 & ->)]]];
    intros [= <- <-].
  - rewrite (since_called _ _ _ w w []) by (by rewrite app_nil_r).
    by apply Hlast.
  - rewrite (since_called _ _ _ w _ _ (log_turn_since _ _ _ _ w w [] ltac:(by rewrite app_nil_r))).
    apply Hlast. by apply Hturn.
  - rewrite (since_called _ _ _ w _ _
               (log_turn_since _ _ _ _ w _ _
                  (log_turn_since _ _ _ _ w w [] ltac:(by rewrite app_nil_r)))).
    apply Hlast. apply Hturn. by apply Hturn.
  - rewrite (since_app w _ _
               (log_turn_since _ _ _ _ w _ _
                  (log_turn_since _ _ _ _ w _ _
                     (log_turn_since _ _ _ _ w w [] ltac:(by rewrite app_nil_r))))).
    apply Hturn. apply Hturn. by apply Hturn.
Qed.

Lemma callAI_same_request_witness :
  let w := worldWith ∅ [statusOnly 500; openaiSays (js "draft")] in
  ∃ w', callAI openaiSettings (js "prompt") w = Some (Ok (js "draft"), w')
        ∧ Requested openai (js "prompt") ∈ since w w'
        ∧ ∀ p q, Requested p q ∈ since w w' → p = openai ∧ q = js "prompt".
Proof.
  intros w.
  match eval vm_compute in (callAI openaiSettings (js "prompt") w) with
  | Some (_, ?b) => pose (w' := b)
  end.
  assert (Hrun : callAI openaiSettings (js "prompt") w = Some (Ok (js "draft"), w'))
    by (vm_compute; reflexivity).
  exists w'. split; [exact Hrun|]. split.
  - vm_compute. apply list_elem_of_further, list_elem_of_here.
  - exact (callAI_same_request openaiSettings (js "prompt") w _ w' Hrun).
Defined.
(** ** More on the note writer *)

Lemma getMaterialsContent_spec session w :
  getMaterialsContent session w
  = Some (Ok match materialNotePath session with
             | None | Some [] => None
             | Some notePath =>
                 match vault w !! notePath with
                 | Some (TFile _ content) => Some content
                 | _ => None
                 end
             end, w).
Proof.
  unfold getMaterialsContent.
  destruct (materialNotePath session) as [[|c p]|]; try reflexivity.
  unfold bind, getAbstractFileByPath.
  destruct (vault w !! (c :: p)) as [[parent content|]|]; reflexivity.
Qed.

(** X9 (an article note is added, nothing else changes).  When
    [createArticleNote] returns a path, the vault has gained the file at
    that path and is otherwise as it was: every other entry is untouched,
    the vault has one entry more, the material note reads as before, and
    nothing was sent or logged. *)
Theorem createArticleNote_adds_one session content topic w path w' :
  createArticleNote session content topic w = Some (Ok (Some path), w') →
  vault w !! path = None
  ∧ is_Some (vault w' !! path)
  ∧ (∀ p, p ≠ path → vault w' !! p = vault w !! p)
  ∧ size (vault w') = S (size (vault w))
  ∧ (∃ read, getMaterialsContent session w = Some (Ok (Some read), w)
             ∧ getMaterialsContent session w' = Some (Ok (Some read), w'))
  ∧ log w' = log w ∧ network w' = network w.
Proof.
  intros Hrun.
  destruct (materialNotePath session) as [[|c notePath]|] eqn:Hs;
    try (unfold createArticleNote in Hrun; rewrite Hs in Hrun; discriminate Hrun).
  destruct (vault w !! (c :: notePath)) as [[parent text|]|] eqn:Hfile;
    try (unfold createArticleNote in Hrun; rewrite Hs in Hrun;
         unfold bind, getAbstractFileByPath in Hrun; rewrite Hfile in Hrun;
         discriminate Hrun).
  destruct (createArticleNote_spec session content topic w (c :: notePath)
              parent text Hs ltac:(done) Hfile) as (k & Hfree & _ & Heq).
  cbn zeta in *. rewrite Heq in Hrun.
  destruct (writable w); [|discriminate Hrun].
  injection Hrun as <- <-. unfold created. cbn [vault log network].
  split; [exact Hfree|].
  split; [rewrite lookup_insert_eq; by eexists|].
  split; [intros p Hp; by rewrite lookup_insert_ne|].
  split; [by rewrite map_size_insert_None|].
  split; [|by split].
  exists text. rewrite !getMaterialsContent_spec, Hs. cbn [vault].
  rewrite lookup_insert_ne by (intros Heq'; rewrite Heq' in Hfree; congruence).
  by rewrite Hfile.
Qed.

Lemma createArticleNote_adds_one_witness :
  let w := worldWith notesVault [] in
  ∃ path w',
    createArticleNote materialsSession (js "text") topicAB w = Some (Ok (Some path), w')
    ∧ path = js "Notes/A-B- why- 1.md"
    ∧ vault w' !! js "Notes/A-B- why-.md"
      = Some (TFile (Some (js "Notes")) (js "an older article"))
    ∧ size (vault w') = 3%nat.
Proof.
  intros w.
  match eval vm_compute in (createArticleNote materialsSession (js "text") topicAB w) with
  | Some (Ok (Some ?a), ?b) => pose (path := a); pose (w' := b)
  end.
  assert (Hrun : createArticleNote materialsSession (js "text") topicAB w
                 = Some (Ok (Some path), w')) by (vm_compute; reflexivity).
  exists path, w'. split; [exact Hrun|]. split; [vm_compute; reflexivity|].
  destruct (createArticleNote_adds_one materialsSession (js "text") topicAB w path w' Hrun)
    as (_ & _ & Hframe & Hsize & _).
  split.
  - rewrite Hframe by (vm_compute; discriminate). vm_compute. reflexivity.
  - rewrite Hsize. vm_compute. reflexivity.
Defined.

(** X10 (when no article note is written).  [createArticleNote] never
    throws.  It returns [null] exactly when the material note of the
    session cannot be read (no session note, or no file at its path) or the
    vault refuses the write; the vault is then as it was, and only the
    refused write is logged. *)
Theorem createArticleNote_null session content topic w :
  ∃ r w', createArticleNote session content topic w = Some (Ok r, w')
          ∧ (r = None ↔ getMaterialsContent session w = Some (Ok None, w)
                         ∨ writable w = false)
          ∧ (r = None → vault w' = vault w ∧ network w' = network w)
          ∧ (getMaterialsContent session w = Some (Ok None, w) → w' = w).
Proof.
  rewrite getMaterialsContent_spec.
  destruct (materialNotePath session) as [[|c notePath]|] eqn:Hs.
  1,3: unfold createArticleNote; rewrite Hs; exists None, w;
       split; [reflexivity|]; split; [split; [by left|done]|]; by split.
  destruct (vault w !! (c :: notePath)) as [[parent text|]|] eqn:Hfile.
  2,3: unfold createArticleNote; rewrite Hs;
       unfold bind, getAbstractFileByPath; rewrite Hfile; exists None, w;
       split; [reflexivity|]; split; [split; [by left|done]|]; by split.
  destruct (createArticleNote_spec session content topic w (c :: notePath)
              parent text Hs ltac:(done) Hfile) as (k & _ & _ & ->).
  destruct (writable w) eqn:Hw; eexists _, _; (split; [reflexivity|]).
  - split; [|by split]. split; [done|]. by intros [[=]|[=]].
  - split; [split; [by right|done]|]. split; [by intros _|]. by intros [=].
Qed.

Lemma createArticleNote_null_witness :
  let w := worldWith notesVault [] in
  getMaterialsContent noSession w = Some (Ok None, w)
  ∧ createArticleNote noSession (js "text") topicAB w = Some (Ok None, w).
Proof.
  intros w.
  assert (H : getMaterialsContent noSession w = Some (Ok None, w)) by reflexivity.
  split; [exact H|].
  destruct (createArticleNote_null noSession (js "text") topicAB w)
    as (r & w' & Hrun & Hr & _ & Hw).
  rewrite Hrun, (Hw H), (proj2 Hr (or_introl H)). reflexivity.
Defined.

(** ** File names *)

Lemma strip_prefix_app p s : strip_prefix p (p ++ s) = Some s.
Proof.
  induction p as [|a p IH]; simpl; [reflexivity|]. by rewrite N.eqb_refl.
Qed.

Lemma strip_md_app s : strip_md (s ++ js ".md") = s.
Proof.
  unfold strip_md. rewrite reverse_app, strip_prefix_app. apply reverse_involutive.
Qed.

Lemma split_no_sep sep s : sep ∉ s → split sep s = [s].
Proof.
  induction s as [|c s IH]; [reflexivity|].
  rewrite not_elem_of_cons. intros [Hc Hs]. cbn [split].
  apply not_eq_sym, N.eqb_neq in Hc. rewrite Hc, IH by done. reflexivity.
Qed.

Lemma split_nonempty sep s : split sep s ≠ [].
Proof.
  destruct s as [|c s]; [done|]. cbn [split].
  destruct (c =? sep); [done|]. by destruct (split sep s).
Qed.

Lemma split_length_sep sep s t : (2 ≤ length (split sep (s ++ sep :: t)))%nat.
Proof.
  induction s as [|c s IH]; cbn [app split].
  - rewrite N.eqb_refl. pose proof (split_nonempty sep t).
    destruct (split sep t); [done|]. simpl. lia.
  - destruct (c =? sep); [simpl; lia|].
    destruct (split sep (s ++ sep :: t)) as [|seg segs]; simpl in *; lia.
Qed.

Lemma last_split_app sep s t :
  last (split sep (s ++ sep :: t)) = last (split sep t).
Proof.
  induction s as [|c s IH]; cbn [app split].
  - rewrite N.eqb_refl. pose proof (split_nonempty sep t).
    by destruct (split sep t).
  - pose proof (split_length_sep sep s t) as Hlen.
    destruct (c =? sep).
    + rewrite <- IH.
      destruct (split sep (s ++ sep :: t)); [simpl in Hlen; lia | reflexivity].
    + rewrite <- IH.
      destruct (split sep (s ++ sep :: t)) as [|seg [|seg' segs]];
        [simpl in Hlen; lia | simpl in Hlen; lia | reflexivity].
Qed.

(** X11 (the backlink names the material note).  For a material note
    at [dir/name.md], or at [name.md] in the root, the name that
    [createArticleNote] puts in the two backlinks of an article is [name]:
    the path without its final [.md] and without its folders. *)
Theorem materialBasenameOf_path dir name :
  ch "/" ∉ name →
  materialBasenameOf (dir ++ js "/" ++ name ++ js ".md") = name
  ∧ materialBasenameOf (name ++ js ".md") = name.
Proof.
  intros Hname. unfold materialBasenameOf. split.
  - change (js "/") with [ch "/"].
    replace (dir ++ [ch "/"] ++ name ++ js ".md")
      with ((dir ++ ch "/" :: name) ++ js ".md") by (by rewrite <- app_assoc).
    rewrite strip_md_app, last_split_app, split_no_sep by done. done.
  - rewrite strip_md_app, split_no_sep by done. done.
Qed.

Lemma materialBasenameOf_path_witness :
  (ch "/" ∉ js "Source - Materials")
  ∧ materialBasenameOf (js "Notes/2026" ++ js "/" ++ js "Source - Materials" ++ js ".md")
    = js "Source - Materials".
Proof.
  assert (H : ch "/" ∉ js "Source - Materials").
  { intros Hin. vm_compute in Hin.
    repeat (apply elem_of_cons in Hin as [Hin|Hin]; [discriminate Hin|]).
    by apply elem_of_nil in Hin. }
  split; [exact H|].
  exact (proj1 (materialBasenameOf_path (js "Notes/2026") (js "Source - Materials") H)).
Defined.

(** X12 (a clean title is the file name).  A title of at most 50 code
    units without any of the nine forbidden characters is the base name of
    the article note as it stands. *)
Theorem baseNameOf_clean t :
  (∀ c, c ∈ t → forbidden c = false) → (length t ≤ 50)%nat →
  baseNameOf t = t.
Proof.
  intros Hsafe Hlen. unfold baseNameOf, slice0.
  rewrite take_ge by (by rewrite length_map).
  induction t as [|c t IH]; [reflexivity|].
  cbn [map]. rewrite (Hsafe c) by apply list_elem_of_here.
  f_equal. apply IH.
  - intros c' Hc'. apply Hsafe. by apply list_elem_of_further.
  - simpl in Hlen. lia.
Qed.

Lemma baseNameOf_clean_witness :
  (length (js "글쓰기의 힘 - part 2") ≤ 50)%nat
  ∧ baseNameOf (js "글쓰기의 힘 - part 2") = js "글쓰기의 힘 - part 2".
Proof.
  assert (Hlen : (length (js "글쓰기의 힘 - part 2") ≤ 50)%nat)
    by (vm_compute; lia).
  split; [exact Hlen|].
  apply baseNameOf_clean; [|exact Hlen].
  assert (Hall : forallb (λ c, negb (forbidden c)) (js "글쓰기의 힘 - part 2") = true)
    by (vm_compute; reflexivity).
  intros c Hc%list_elem_of_In.
  apply negb_true_iff. exact (proj1 (forallb_forall _ _) Hall c Hc).
Defined.
(** ** More on the wizard *)

(** A property of the modal that no assignment of a handler can break,
    other than one to the materials, or one of the persona [custom], is
    kept by every handler. *)
Section HandlePreserves.

Variable settings : ThinkingToolSettings.
Variable session : ThinkingSession.
Variable suggest : jsstring -> M (list TopicSuggestion).
Variable P : GenerateArticleModal → Prop.

Hypothesis P_step : ∀ m v, P m → P (with_step v m).
Hypothesis P_topics : ∀ m v, P m → P (with_topics v m).
Hypothesis P_selectedTopic : ∀ m v, P m → P (with_selectedTopic v m).
Hypothesis P_editedOutline : ∀ m v, P m → P (with_editedOutline v m).
Hypothesis P_selectedPersona :
  ∀ m key, key ≠ custom → P m → P (with_selectedPersona key m).
Hypothesis P_selectedLength : ∀ m v, P m → P (with_selectedLength v m).
Hypothesis P_customInstructionsText :
  ∀ m v, P m → P (with_customInstructionsText v m).
Hypothesis P_isLoading : ∀ m v, P m → P (with_isLoading v m).
Hypothesis P_loadingStatus : ∀ m v, P m → P (with_loadingStatus v m).
Hypothesis P_lastError : ∀ m v, P m → P (with_lastError v m).
Hypothesis P_closed : ∀ m, P m → P (with_closed true m).

Lemma render_frame fuel m w :
  P m → kept P (render settings session suggest fuel m w).
Proof. apply render_preserves; eauto. Qed.

Lemma handle_frame fuel a m w :
  enabled m a = true → P m → kept P (handle settings session suggest fuel a m w).
Proof.
  intros Hen HP. destruct a; cbn [handle enabled] in *.
  - unfold bind.
    pose proof (render_frame fuel (with_lastError None m) w (P_lastError _ _ HP)) as H1.
    destruct (render settings session suggest fuel (with_lastError None m) w)
      as [[[m1|e] w1]|]; [|done|done].
    destruct ((step _ =? 1) && isEmpty _); [|exact H1].
    apply loadTopics_preserves; eauto using render_frame.
  - by apply P_closed.
  - destruct (topics m !! i) as [t|]; [|exact HP].
    by apply render_frame, P_editedOutline, P_selectedTopic.
  - destruct (trim value); [exact HP|].
    by apply render_frame, P_step, P_editedOutline, P_selectedTopic.
  - by apply render_frame, P_selectedTopic, P_topics.
  - by apply P_closed.
  - destruct (step m =? 1).
    + destruct (selectedTopic m); [|exact HP]. by apply render_frame, P_step.
    + apply render_frame, P_step. unfold commitOutline.
      destruct (selectedTopic m) as [selected|]; [|exact HP].
      destruct (origin selected); [apply P_topics|]; by apply P_selectedTopic.
  - by apply P_editedOutline.
  - destruct (_ <? _)%nat; [|exact HP]. by apply render_frame, P_editedOutline.
  - by apply render_frame, P_editedOutline.
  - by apply render_frame, P_step.
  - apply render_frame, P_selectedPersona; [|exact HP].
    apply andb_true_iff in Hen as [_ Hkey]. by destruct key.
  - by apply render_frame, P_selectedLength.
  - by apply P_customInstructionsText.
  - by apply render_frame, P_step.
Qed.

Lemma run_frame fuel actions m w :
  P m → kept P (run settings session suggest fuel actions m w).
Proof.
  apply (run_kept settings session suggest P).
  intros f a m0 w0. apply handle_frame.
Qed.

End HandlePreserves.

(** X14 (the persona of the class [custom] is out of reach).  The modal
    opens with the essay persona and the style screen offers six personas,
    [custom] not among them: in every run of the modal the selected persona
    is one of the six, so the composer is never asked for the [custom]
    style. *)
Theorem persona_never_custom settings session suggest fuel fuel' actions w m1 w1 m w0 :
  onOpen settings session suggest fuel newModal w = Some (Ok m1, w1) →
  run settings session suggest fuel' actions m1 w1 = Some (Ok m, w0) →
  selectedPersona m ≠ custom
  ∧ ∀ selected, persona (optionsOf m selected) ≠ custom.
Proof.
  intros Hopen Hrun.
  set (P := λ m : GenerateArticleModal, selectedPersona m ≠ custom).
  assert (H1 : kept P (onOpen settings session suggest fuel newModal w)).
  { apply onOpen_kept; [|done].
    intros f m0 w' HP. by apply (render_frame settings session suggest P). }
  rewrite Hopen in H1.
  assert (H2 : kept P (run settings session suggest fuel' actions m1 w1)).
  { by apply (run_frame settings session suggest P). }
  rewrite Hrun in H2. split; [exact H2|]. intros selected. exact H2.
Qed.

Lemma persona_never_custom_witness :
  let suggest := suggestFixed [topicAB] in
  let w := worldWith notesVault [] in
  ∃ m1 w1 m w0,
    onOpen openaiSettings materialsSession suggest 3 newModal w = Some (Ok m1, w1)
    ∧ run openaiSettings materialsSession suggest 3
          [ClickTopic 0; ClickNext; ClickNext; ClickPersona custom;
           ClickPersona twitter; ClickPersona custom] m1 w1
      = Some (Ok m, w0)
    ∧ selectedPersona m = twitter
    ∧ selectedPersona m ≠ custom.
Proof.
  intros suggest w.
  run_to m1 w1 (onOpen openaiSettings materialsSession suggest 3 newModal w).
  run_to m w0 (run openaiSettings materialsSession suggest 3
                 [ClickTopic 0; ClickNext; ClickNext; ClickPersona custom;
                  ClickPersona twitter; ClickPersona custom] m1 w1).
  exists m1, w1, m, w0.
  assert (H1 : onOpen openaiSettings materialsSession suggest 3 newModal w
               = Some (Ok m1, w1)) by (vm_compute; reflexivity).
  assert (H2 : run openaiSettings materialsSession suggest 3
                   [ClickTopic 0; ClickNext; ClickNext; ClickPersona custom;
                    ClickPersona twitter; ClickPersona custom] m1 w1
               = Some (Ok m, w0)) by (vm_compute; reflexivity).
  split; [exact H1|]. split; [exact H2|]. split; [vm_compute; reflexivity|].
  exact (proj1 (persona_never_custom openaiSettings materialsSession suggest
                  3 3 _ w m1 w1 m w0 H1 H2)).
Defined.

(** X15 (the materials are read once).  The modal reads the material
    note when it opens and never again: in every run, whatever is clicked,
    the materials it holds and their count are those read at the opening,
    and these are what a later generation is given. *)
Theorem materials_read_once settings session suggest fuel fuel' actions w m1 w1 m w0 :
  onOpen settings session suggest fuel newModal w = Some (Ok m1, w1) →
  run settings session suggest fuel' actions m1 w1 = Some (Ok m, w0) →
  ∃ content,
    getMaterialsContent session w = Some (Ok content, w)
    ∧ materialsContent m = content
    ∧ materialCount m = countMaterials content.
Proof.
  intros Hopen Hrun.
  destruct (getMaterialsContent_pure session w) as [content Hread].
  exists content. split; [exact Hread|].
  set (P := λ m : GenerateArticleModal,
              materialsContent m = content ∧ materialCount m = countMaterials content).
  assert (Hrender : ∀ f m0 w', P m0 → kept P (render settings session suggest f m0 w'))
    by (intros f m0 w' HP; by apply (render_frame settings session suggest P)).
  assert (H1 : P m1).
  { unfold onOpen, bind in Hopen. rewrite Hread in Hopen.
    pose proof (Hrender fuel
                  (with_materialCount (countMaterials content)
                     (with_materialsContent content newModal)) w
                  ltac:(by split)) as H.
    by rewrite Hopen in H. }
  assert (H2 : kept P (run settings session suggest fuel' actions m1 w1))
    by (by apply (run_frame settings session suggest P)).
  by rewrite Hrun in H2.
Qed.

Lemma materials_read_once_witness :
  let suggest := suggestFixed [topicAB] in
  let w := worldWith notesVault [] in
  ∃ m1 w1 m w0,
    onOpen openaiSettings materialsSession suggest 3 newModal w = Some (Ok m1, w1)
    ∧ run openaiSettings materialsSession suggest 3
          [ClickTopic 0; ClickNext; ClickAdd; ClickNext; ClickBack; ClickBack; ClickRefresh]
          m1 w1
      = Some (Ok m, w0)
    ∧ materialsContent m = Some materialsNote
    ∧ materialCount m = 2.
Proof.
  intros suggest w.
  run_to m1 w1 (onOpen openaiSettings materialsSession suggest 3 newModal w).
  run_to m w0 (run openaiSettings materialsSession suggest 3
                 [ClickTopic 0; ClickNext; ClickAdd; ClickNext; ClickBack; ClickBack;
                  ClickRefresh] m1 w1).
  exists m1, w1, m, w0.
  assert (H1 : onOpen openaiSettings materialsSession suggest 3 newModal w
               = Some (Ok m1, w1)) by (vm_compute; reflexivity).
  assert (H2 : run openaiSettings materialsSession suggest 3
                   [ClickTopic 0; ClickNext; ClickAdd; ClickNext; ClickBack; ClickBack;
                    ClickRefresh] m1 w1
               = Some (Ok m, w0)) by (vm_compute; reflexivity).
  split; [exact H1|]. split; [exact H2|].
  destruct (materials_read_once openaiSettings materialsSession suggest
              3 3 _ w m1 w1 m w0 H1 H2) as (content & Hread & Hc & Hn).
  vm_compute in Hread. injection Hread as <-.
  split; [rewrite Hc; vm_compute; reflexivity|].
  rewrite Hn. vm_compute. reflexivity.
Defined.

Lemma countMaterials_content content :
  1 ≤ countMaterials content → ∃ c s, content = Some (c :: s).
Proof.
  destruct content as [[|c s]|]; cbn; [lia| |lia]. intros _. by exists c, s.
Qed.

(** With a synthesizer that fails, [render] on the first step with no
    topics calls it again, and again. *)
Lemma render_failing_suggest settings session suggest c s :
  (∀ content w, ∃ e w', suggest content w = Some (Throw e, w')) →
  ∀ fuel m w,
    isLoading m = false → step m = 1 → topics m = [] →
    1 ≤ materialCount m → materialsContent m = Some (c :: s) →
    render settings session suggest fuel m w = None.
Proof.
  intros Hfail. induction fuel as [|fuel IH]; intros m w Hl Hstep Htopics Hcount Hmat;
    [reflexivity|].
  cbn [render]. unfold renderBody. rewrite Hl, Hstep. cbn [N.eqb Pos.eqb].
  unfold renderStep1Topics.
  apply N.ltb_ge in Hcount. rewrite Hcount, Htopics.
  unfold loadTopics. rewrite Hmat. unfold bind at 1.
  destruct fuel as [|fuel]; [reflexivity|].
  cbn [render]. unfold renderBody at 1. fields. unfold ret at 1.
  unfold bind at 1, logLength at 1, bind at 1, settle at 1.
  destruct (Hfail (c :: s) w) as (e & w' & ->).
  unfold bind at 1, statusSince at 1.
  apply IH; fields; try done. by apply N.ltb_ge.
Qed.

(** X16 (a failing synthesis is retried without end).  When the
    synthesizer fails, [loadTopics] stores the error and draws the modal
    again; the first step, finding no topics, starts [loadTopics] again.  So
    with materials to work on and a synthesizer that fails every time, the
    work started by opening the modal has no end: each failure is followed
    by the next call of the synthesizer. *)
Theorem failing_synthesis_never_settles settings session suggest w content :
  (∀ c w0, ∃ e w1, suggest c w0 = Some (Throw e, w1)) →
  getMaterialsContent session w = Some (Ok content, w) →
  1 ≤ countMaterials content →
  ∀ fuel, onOpen settings session suggest fuel newModal w = None.
Proof.
  intros Hfail Hread Hcount fuel.
  destruct (countMaterials_content content Hcount) as (c & s & ->).
  unfold onOpen, bind. rewrite Hread.
  by apply (render_failing_suggest settings session suggest c s Hfail).
Qed.

Lemma failing_synthesis_never_settles_witness :
  let suggest := λ _ : jsstring, throw (A := list TopicSuggestion) parseFailure in
  let w := worldWith notesVault [] in
  getMaterialsContent materialsSession w = Some (Ok (Some materialsNote), w)
  ∧ 1 ≤ countMaterials (Some materialsNote)
  ∧ onOpen openaiSettings materialsSession suggest 1000 newModal w = None.
Proof.
  intros suggest w.
  assert (H1 : getMaterialsContent materialsSession w = Some (Ok (Some materialsNote), w))
    by (vm_compute; reflexivity).
  assert (H2 : 1 ≤ countMaterials (Some materialsNote)) by (vm_compute; discriminate).
  split; [exact H1|]. split; [exact H2|].
  apply (failing_synthesis_never_settles openaiSettings materialsSession suggest w
           (Some materialsNote)); [|exact H1|exact H2].
  intros c w0. by eexists _, _.
Defined.
Lemma createArticleNote_None_vault session content topic w w' :
  createArticleNote session content topic w = Some (Ok None, w') →
  vault w' = vault w.
Proof.
  intros Hrun.
  destruct (materialNotePath session) as [[|c notePath]|] eqn:Hs;
    try (unfold createArticleNote in Hrun; rewrite Hs in Hrun;
         by injection Hrun as <-).
  destruct (vault w !! (c :: notePath)) as [[parent text|]|] eqn:Hfile;
    try (unfold createArticleNote in Hrun; rewrite Hs in Hrun;
         unfold bind, getAbstractFileByPath in Hrun; rewrite Hfile in Hrun;
         by injection Hrun as <-).
  destruct (createArticleNote_spec session content topic w (c :: notePath)
              parent text Hs ltac:(done) Hfile) as (k & _ & _ & Heq).
  cbn zeta in *. rewrite Heq in Hrun.
  destruct (writable w); [discriminate Hrun|]. by injection Hrun as <-.
Qed.

(** One press of the Generate button whose article cannot be written. *)
Lemma generate_note_failure_step
      settings session suggest fuel m w selected c content article w1 w2 :
  enabled m ClickGenerate = true →
  selectedTopic m = Some selected →
  materialsContent m = Some (c :: content) →
  generateArticle settings (c :: content) (optionsOf m selected) w
  = Some (Ok article, w1) →
  createArticleNote session article (chosen selected) w1 = Some (Ok None, w2) →
  ∃ m', dispatch settings session suggest (S (S fuel)) ClickGenerate m w
        = Some (Ok m', w2)
        ∧ step m' = 3
        ∧ lastError m' = Some (js "노트 생성에 실패했습니다.")
        ∧ isLoading m' = false
        ∧ closed m' = false
        ∧ selectedTopic m' = selectedTopic m
        ∧ editedOutline m' = editedOutline m
        ∧ selectedPersona m' = selectedPersona m
        ∧ selectedLength m' = selectedLength m.
Proof.
  intros Hen Hsel Hmat Hgen Hnote.
  pose proof Hen as Hd. cbn [enabled] in Hd. unfold drawn in Hd.
  apply andb_true_iff in Hd as [Hd Hstep]. apply andb_true_iff in Hd as [Hc Hl].
  apply negb_true_iff in Hc, Hl.
  unfold dispatch. rewrite Hen. cbn [handle render]. unfold renderBody at 1.
  fields. rewrite Hl. change (4 =? 1) with false. change (4 =? 4) with true. cbv iota.
  unfold renderStep4Generate. fields. rewrite Hsel, Hmat.
  unfold bind at 1. unfold renderBody at 1. fields. unfold ret at 1.
  unfold bind at 1, logLength at 1, try_catch, bind at 1. fields.
  change (generateArticle settings (c :: content)
            {| topic := chosen selected; persona := selectedPersona m;
               length_ := selectedLength m;
               customInstructions :=
                 match customInstructionsText m with [] => None | i => Some i end |} w)
    with (generateArticle settings (c :: content) (optionsOf m selected) w).
  rewrite Hgen. unfold bind at 1. rewrite Hnote.
  unfold throw at 1. unfold bind at 1, statusSince at 1.
  unfold renderBody. fields. change (3 =? 1) with false. change (3 =? 4) with false.
  cbv iota. unfold ret.
  eexists. split; [reflexivity|]. fields.
  repeat (split; [first [reflexivity | assumption]|]). reflexivity.
Qed.

(** X17 (an article that cannot be written).  In every run of the
    modal, when the Generate button is pressed, the composer returns an
    article and [createArticleNote] returns [null], the modal goes back to
    step 3 with the message of the failed note in [lastError], open and not
    loading, its selections as they were; the vault is as it was, and the
    article is kept nowhere. *)
Theorem note_failure_returns_to_style
        settings session suggest fuel fuel' fuel'' actions w m1 w1 m w0 :
  onOpen settings session suggest fuel newModal w = Some (Ok m1, w1) →
  run settings session suggest fuel' actions m1 w1 = Some (Ok m, w0) →
  enabled m ClickGenerate = true →
  ∃ selected c content,
    selectedTopic m = Some selected
    ∧ materialsContent m = Some (c :: content)
    ∧ ∀ article w' w'',
        generateArticle settings (c :: content) (optionsOf m selected) w0
        = Some (Ok article, w') →
        createArticleNote session article (chosen selected) w' = Some (Ok None, w'') →
        ∃ m', dispatch settings session suggest (S (S fuel'')) ClickGenerate m w0
              = Some (Ok m', w'')
              ∧ step m' = 3
              ∧ lastError m' = Some (js "노트 생성에 실패했습니다.")
              ∧ isLoading m' = false
              ∧ closed m' = false
              ∧ selectedTopic m' = selectedTopic m
              ∧ editedOutline m' = editedOutline m
              ∧ selectedPersona m' = selectedPersona m
              ∧ selectedLength m' = selectedLength m
              ∧ vault w'' = vault w0.
Proof.
  intros Hopen Hrun Hen.
  destruct (generate_ready settings session suggest fuel fuel' actions w m1 w1 m w0
              Hopen Hrun Hen) as (selected & c & content & Hsel & Hmat).
  exists selected, c, content. split; [exact Hsel|]. split; [exact Hmat|].
  intros article w' w'' Hgen Hnote.
  destruct (generate_note_failure_step settings session suggest fuel'' m w0 selected
              c content article w' w'' Hen Hsel Hmat Hgen Hnote)
    as (m' & Hd & H1 & H2 & H3 & H4 & H5 & H6 & H7 & H8).
  exists m'. repeat (split; [assumption|]).
  apply createArticleNote_None_vault in Hnote.
  apply generateArticle_vault in Hgen. congruence.
Qed.

Lemma note_failure_returns_to_style_witness :
  let suggest := suggestFixed [topicAB] in
  let w := readOnly (worldWith notesVault [openaiSays (js "ARTICLE")]) in
  ∃ m1 w1 m w0 m' w'',
    onOpen openaiSettings materialsSession suggest 3 newModal w = Some (Ok m1, w1)
    ∧ run openaiSettings materialsSession suggest 3
          [ClickTopic 0; ClickNext; ClickNext] m1 w1
      = Some (Ok m, w0)
    ∧ enabled m ClickGenerate = true
    ∧ dispatch openaiSettings materialsSession suggest 3 ClickGenerate m w0
      = Some (Ok m', w'')
    ∧ step m' = 3
    ∧ lastError m' = Some (js "노트 생성에 실패했습니다.")
    ∧ requests (log w'') = 1%nat
    ∧ vault w'' = vault w0.
Proof.
  intros suggest w.
  run_to m1 w1 (onOpen openaiSettings materialsSession suggest 3 newModal w).
  run_to m w0
    (run openaiSettings materialsSession suggest 3
         [ClickTopic 0; ClickNext; ClickNext] m1 w1).
  assert (Hopen : onOpen openaiSettings materialsSession suggest 3 newModal w
                  = Some (Ok m1, w1)) by (vm_compute; reflexivity).
  assert (Hrun : run openaiSettings materialsSession suggest 3
                     [ClickTopic 0; ClickNext; ClickNext] m1 w1
                 = Some (Ok m, w0)) by (vm_compute; reflexivity).
  assert (Hen : enabled m ClickGenerate = true) by (vm_compute; reflexivity).
  destruct (note_failure_returns_to_style
              openaiSettings materialsSession suggest 3 3 1 _ w m1 w1 m w0
              Hopen Hrun Hen)
    as (selected & c & content & Hsel & Hmat & Hfail).
  vm_compute in Hsel. injection Hsel as <-.
  vm_compute in Hmat. injection Hmat as <- <-.
  match goal with
  | H : ∀ article w' w'', generateArticle ?s ?mc ?o ?w0 = _ → _ |- _ =>
      let v := eval vm_compute in (generateArticle s mc o w0) in
      lazymatch v with
      | Some (Ok ?x, ?y) =>
          let v2 := eval vm_compute in
              (createArticleNote materialsSession x (chosen (Build_Selection (Some 0%nat) topicAB)) y) in
          lazymatch v2 with
          | Some (Ok None, ?z) =>
              destruct (H x y z ltac:(vm_compute; reflexivity)
                          ltac:(vm_compute; reflexivity))
                as (m' & Hd & Hstep & Herr & _ & _ & _ & _ & _ & _ & Hvault);
              exists m1, w1, m, w0, m', z
          end
      end
  end.
  split; [exact Hopen|]. split; [exact Hrun|]. split; [exact Hen|].
  split; [exact Hd|]. split; [exact Hstep|]. split; [exact Herr|].
  split; [vm_compute; reflexivity | exact Hvault].
Defined.



Lemma with_step_same m : with_step (step m) m = m.
Proof. by destruct m. Qed.

Lemma drawn_inv m k :
  drawn m k = true → closed m = false ∧ isLoading m = false ∧ step m = k.
Proof.
  unfold drawn. intros H. apply andb_true_iff in H as [H Hs].
  apply andb_true_iff in H as [Hc Hl].
  apply negb_true_iff in Hc, Hl. by apply N.eqb_eq in Hs.
Qed.

Lemma topicsShown_inv m :
  topicsShown m = true → (materialCount m <? 1) = false ∧ topics m ≠ [].
Proof.
  unfold topicsShown. intros H. apply andb_true_iff in H as [Hc Ht].
  apply negb_true_iff in Hc. split; [exact Hc|]. by destruct (topics m).
Qed.

(** [render] only draws when there is nothing to load or to generate. *)
Lemma render_draws settings session suggest fuel m w :
  isLoading m = true
  ∨ step m = 2 ∨ step m = 3
  ∨ (step m = 1 ∧ ((materialCount m <? 1) = true ∨ topics m ≠ [])) →
  render settings session suggest (S fuel) m w = Some (Ok m, w).
Proof.
  cbn [render]. unfold renderBody.
  intros [Hl|H]; [by rewrite Hl|].
  destruct (isLoading m); [reflexivity|].
  destruct H as [->|[->|[-> H]]]; [reflexivity|reflexivity|].
  cbn [N.eqb Pos.eqb]. unfold renderStep1Topics.
  destruct H as [->|H]; [reflexivity|].
  destruct (materialCount m <? 1); [reflexivity|]. by destruct (topics m).
Qed.

(** X19 (back and forth between the first two steps).  From the
    outline screen, Back and then Next bring the modal to the very state it
    was in: the topics, the selection and the outline being edited are
    kept, and the synthesizer is not asked again. *)
Theorem back_next_round_trip settings session suggest fuel m w :
  drawn m 2 = true → present (selectedTopic m) = true → topicsShown m = true →
  run settings session suggest (S fuel) [ClickBack; ClickNext] m w
  = Some (Ok m, w)
  ∧ dispatch settings session suggest (S fuel) ClickBack m w
    = Some (Ok (with_step 1 m), w).
Proof.
  intros Hd Hsel Hshown.
  destruct (drawn_inv _ _ Hd) as (Hc & Hl & Hstep).
  destruct (topicsShown_inv _ Hshown) as (Hcount & Htopics).
  assert (Hback : dispatch settings session suggest (S fuel) ClickBack m w
                  = Some (Ok (with_step 1 m), w)).
  { unfold dispatch. cbn [enabled]. rewrite Hd, Hsel. cbn [andb orb handle].
    rewrite Hstep. cbn [N.eqb Pos.eqb].
    apply render_draws. right. right. right. fields. by split; [|right]. }
  split; [|exact Hback].
  cbn [run]. unfold bind at 1. rewrite Hback.
  unfold bind, dispatch. cbn [enabled].
  unfold drawn at 1, topicsShown. fields.
  rewrite Hc, Hl, Hcount, Hsel. destruct (topics m) as [|t ts] eqn:Ht; [done|].
  cbn [negb andb orb isEmpty N.eqb Pos.eqb handle]. fields. cbn [N.eqb Pos.eqb].
  destruct (selectedTopic m) as [selected|]; [|discriminate Hsel].
  rewrite render_draws by (right; left; reflexivity).
  unfold ret. do 2 f_equal. destruct m. cbn in *. by subst.
Qed.

Lemma back_next_round_trip_witness :
  let suggest := suggestFixed [topicAB] in
  let w := worldWith notesVault [] in
  ∃ m w0,
    (opened <- onOpen openaiSettings materialsSession suggest 3 newModal ;;
     run openaiSettings materialsSession suggest 3
         [ClickTopic 0; ClickNext; ClickAdd; InputOutline 3 (js "four")] opened) w
    = Some (Ok m, w0)
    ∧ drawn m 2 = true
    ∧ editedOutline m = [js "one"; js "two"; js "three"; js "four"]
    ∧ run openaiSettings materialsSession suggest 1 [ClickBack; ClickNext] m w0
      = Some (Ok m, w0).
Proof.
  intros suggest w.
  run_to m w0
    ((opened <- onOpen openaiSettings materialsSession suggest 3 newModal ;;
      run openaiSettings materialsSession suggest 3
          [ClickTopic 0; ClickNext; ClickAdd; InputOutline 3 (js "four")] opened) w).
  exists m, w0.
  assert (H1 : drawn m 2 = true) by (vm_compute; reflexivity).
  assert (H2 : present (selectedTopic m) = true) by (vm_compute; reflexivity).
  assert (H3 : topicsShown m = true) by (vm_compute; reflexivity).
  split; [vm_compute; reflexivity|]. split; [exact H1|].
  split; [vm_compute; reflexivity|].
  exact (proj1 (back_next_round_trip openaiSettings materialsSession suggest 0 m w0
                  H1 H2 H3)).
Defined.

(** X20 (on the style screen only Generate reaches the world).  On
    step 3 every control other than the Generate button changes the modal
    alone: the world is left exactly as it was.  The retry button of the
    error banner is one of them: after a failed generation it only clears
    the message, and does not generate again. *)
Theorem style_screen_is_local settings session suggest fuel a m w :
  step m = 3 → a ≠ ClickGenerate →
  ∃ m', dispatch settings session suggest (S fuel) a m w = Some (Ok m', w)
        ∧ (step m' = 2 ∨ step m' = 3)
        ∧ selectedTopic m' = selectedTopic m
        ∧ editedOutline m' = editedOutline m
        ∧ materialsContent m' = materialsContent m
        ∧ (a = ClickRetry → enabled m a = true → m' = with_lastError None m).
Proof.
  intros Hstep Ha. unfold dispatch.
  destruct (enabled m a) eqn:Hen.
  2:{ exists m. split; [reflexivity|]. split; [by right|]. by repeat split. }
  assert (Hoff : ∀ k, k ≠ 3 → drawn m k = false).
  { intros k Hk. unfold drawn. rewrite Hstep.
    apply not_eq_sym, N.eqb_neq in Hk. rewrite Hk. by rewrite andb_false_r. }
  destruct a; cbn [enabled] in Hen;
    rewrite ?(Hoff 1), ?(Hoff 2) in Hen by done; try discriminate Hen;
    cbn [handle].
  - (* retry *)
    unfold bind. rewrite render_draws by (right; right; left; exact Hstep).
    fields. rewrite Hstep. cbn [N.eqb Pos.eqb andb]. unfold ret.
    eexists. split; [reflexivity|]. fields. split; [by right|]. by repeat split.
  - (* back *)
    rewrite Hstep. cbn [N.eqb Pos.eqb].
    rewrite render_draws by (right; left; reflexivity).
    eexists. split; [reflexivity|]. fields. split; [by left|]. by repeat split.
  - rewrite render_draws by (right; right; left; exact Hstep).
    eexists. split; [reflexivity|]. fields. split; [by right|]. by repeat split.
  - rewrite render_draws by (right; right; left; exact Hstep).
    eexists. split; [reflexivity|]. fields. split; [by right|]. by repeat split.
  - unfold ret.
    eexists. split; [reflexivity|]. fields. split; [by right|]. by repeat split.
  - done.
Qed.

Lemma style_screen_is_local_witness :
  let suggest := suggestFixed [topicAB] in
  let w := worldWith notesVault [statusOnly 500; statusOnly 500; statusOnly 500;
                                 openaiSays (js "never asked")] in
  ∃ m w0,
    (opened <- onOpen openaiSettings materialsSession suggest 3 newModal ;;
     run openaiSettings materialsSession suggest 3
         [ClickTopic 0; ClickNext; ClickNext; ClickGenerate] opened) w
    = Some (Ok m, w0)
    ∧ step m = 3
    ∧ present (lastError m) = true
    ∧ dispatch openaiSettings materialsSession suggest 1 ClickRetry m w0
      = Some (Ok (with_lastError None m), w0)
    ∧ network w0 = [openaiSays (js "never asked")].
Proof.
  intros suggest w.
  run_to m w0
    ((opened <- onOpen openaiSettings materialsSession suggest 3 newModal ;;
      run openaiSettings materialsSession suggest 3
          [ClickTopic 0; ClickNext; ClickNext; ClickGenerate] opened) w).
  exists m, w0.
  assert (H1 : step m = 3) by (vm_compute; reflexivity).
  assert (H2 : ClickRetry ≠ ClickGenerate) by discriminate.
  assert (H3 : enabled m ClickRetry = true) by (vm_compute; reflexivity).
  split; [vm_compute; reflexivity|]. split; [exact H1|].
  split; [vm_compute; reflexivity|].
  split; [|vm_compute; reflexivity].
  destruct (style_screen_is_local openaiSettings materialsSession suggest 0
              ClickRetry m w0 H1 H2) as (m' & Hd & _ & _ & _ & _ & Hretry).
  rewrite Hd. by rewrite (Hretry eq_refl H3).
Defined.
(** X21 (Refresh asks for new topics).  On the first step, Refresh
    drops the topics and the selection and calls the synthesizer once more
    on the materials read at the opening; when it answers, its topics are
    the ones shown, nothing is selected and the error banner is gone.  The
    outline last edited is left in place. *)
Theorem refresh_replaces_topics settings session suggest fuel m w c s found w' :
  drawn m 1 = true → topicsShown m = true →
  materialsContent m = Some (c :: s) →
  suggest (c :: s) w = Some (Ok found, w') → found ≠ [] →
  ∃ m', dispatch settings session suggest (S (S fuel)) ClickRefresh m w
        = Some (Ok m', w')
        ∧ topics m' = found
        ∧ selectedTopic m' = None
        ∧ lastError m' = None
        ∧ isLoading m' = false
        ∧ step m' = 1
        ∧ closed m' = false
        ∧ editedOutline m' = editedOutline m.
Proof.
  intros Hd Hshown Hmat Hsuggest Hfound.
  destruct (drawn_inv _ _ Hd) as (Hc & Hl & Hstep).
  destruct (topicsShown_inv _ Hshown) as (Hcount & _).
  unfold dispatch. cbn [enabled]. rewrite Hd, Hshown. cbn [andb handle].
  cbn [render]. unfold renderBody at 1. fields. rewrite Hl, Hstep.
  cbn [N.eqb Pos.eqb]. unfold renderStep1Topics. fields. rewrite Hcount.
  unfold loadTopics. fields. rewrite Hmat.
  unfold bind at 1. unfold renderBody at 1. fields. unfold ret at 1.
  unfold bind at 1, logLength at 1, bind at 1, settle at 1. rewrite Hsuggest.
  unfold bind at 1, statusSince at 1.
  unfold renderBody. fields. rewrite Hstep. cbn [N.eqb Pos.eqb].
  unfold renderStep1Topics. fields. rewrite Hcount.
  destruct found as [|t ts]; [done|]. unfold ret.
  eexists. split; [reflexivity|]. fields. by repeat split.
Qed.

Lemma refresh_replaces_topics_witness :
  let w := worldWith notesVault [] in
  ∃ m w0 m' w',
    (opened <- onOpen openaiSettings materialsSession (suggestFixed [topicAB]) 3 newModal ;;
     run openaiSettings materialsSession (suggestFixed [topicAB]) 3
         [ClickTopic 0] opened) w
    = Some (Ok m, w0)
    ∧ present (selectedTopic m) = true
    ∧ dispatch openaiSettings materialsSession (suggestFixed [topicShort; topicAB]) 2
               ClickRefresh m w0
      = Some (Ok m', w')
    ∧ topics m' = [topicShort; topicAB]
    ∧ selectedTopic m' = None.
Proof.
  intros w.
  run_to m w0
    ((opened <- onOpen openaiSettings materialsSession (suggestFixed [topicAB]) 3 newModal ;;
      run openaiSettings materialsSession (suggestFixed [topicAB]) 3
          [ClickTopic 0] opened) w).
  assert (H1 : drawn m 1 = true) by (vm_compute; reflexivity).
  assert (H2 : topicsShown m = true) by (vm_compute; reflexivity).
  match eval vm_compute in (materialsContent m) with
  | Some (?c :: ?s) =>
      assert (H3 : materialsContent m = Some (c :: s)) by (vm_compute; reflexivity);
      match eval vm_compute in (suggestFixed [topicShort; topicAB] (c :: s) w0) with
      | Some (_, ?w') =>
          assert (H4 : suggestFixed [topicShort; topicAB] (c :: s) w0
                       = Some (Ok [topicShort; topicAB], w'))
            by (vm_compute; reflexivity);
          destruct (refresh_replaces_topics openaiSettings materialsSession
                      (suggestFixed [topicShort; topicAB]) 0 m w0 c s _ w'
                      H1 H2 H3 H4 ltac:(discriminate))
            as (m' & Hd & Ht & Hs & _);
          exists m, w0, m', w'
      end
  end.
  split; [vm_compute; reflexivity|]. split; [vm_compute; reflexivity|].
  split; [exact Hd|]. split; [exact Ht | exact Hs].
Defined.

(** X22 (an edited outline is written into the suggestion).  Next on
    the outline screen assigns the edited outline to the selected topic
    object.  When that is one of the suggested topics, the list of topics
    holds the edit from then on: going back to the first step and selecting
    the same topic again brings up the edited outline, not the one the
    synthesizer suggested.  Title, description and the other topics are as
    they were. *)
Theorem edited_outline_persists settings session suggest fuel m w selected i :
  drawn m 2 = true → selectedTopic m = Some selected →
  origin selected = Some i → (i < length (topics m))%nat →
  (materialCount m <? 1) = false →
  ∃ m', run settings session suggest (S fuel)
            [ClickNext; ClickBack; ClickBack; ClickTopic i] m w
        = Some (Ok m', w)
        ∧ step m' = 1
        ∧ editedOutline m' = editedOutline m
        ∧ topics m' !! i = Some {| title := title (chosen selected);
                                   description := description (chosen selected);
                                   outline := editedOutline m |}
        ∧ (∀ j, j ≠ i → topics m' !! j = topics m !! j).
Proof.
  intros Hd Hsel Horigin Hi Hcount.
  destruct (drawn_inv _ _ Hd) as (Hc & Hl & Hstep).
  set (t := {| title := title (chosen selected);
               description := description (chosen selected);
               outline := editedOutline m |}).
  set (m1 := with_step 3 (with_topics (<[i := t]> (topics m))
               (with_selectedTopic (Some {| origin := Some i; chosen := t |}) m))).
  assert (Hlook : <[i := t]> (topics m) !! i = Some t)
    by (by apply list_lookup_insert_eq).
  assert (Hne : <[i := t]> (topics m) ≠ []).
  { intros Hnil. rewrite Hnil in Hlook. discriminate Hlook. }
  assert (H1 : dispatch settings session suggest (S fuel) ClickNext m w
               = Some (Ok m1, w)).
  { unfold dispatch. cbn [enabled]. rewrite Hd, Hsel. cbn [present andb orb].
    rewrite orb_true_r. cbn [handle]. rewrite Hstep. cbn [N.eqb Pos.eqb].
    unfold commitOutline. rewrite Hsel, Horigin. fields.
    apply render_draws. right. right. left. reflexivity. }
  assert (H2 : dispatch settings session suggest (S fuel) ClickBack m1 w
               = Some (Ok (with_step 2 m1), w)).
  { unfold dispatch. cbn [enabled]. unfold drawn, m1. fields.
    rewrite Hc, Hl. cbn [negb andb orb N.eqb Pos.eqb handle]. fields.
    cbn [N.eqb Pos.eqb].
    apply render_draws. right. left. reflexivity. }
  assert (H3 : dispatch settings session suggest (S fuel) ClickBack (with_step 2 m1) w
               = Some (Ok (with_step 1 m1), w)).
  { unfold dispatch. cbn [enabled]. unfold drawn, m1. fields.
    rewrite Hc, Hl. cbn [negb andb orb N.eqb Pos.eqb present handle]. fields.
    cbn [N.eqb Pos.eqb].
    apply render_draws. right. right. right. fields. by split; [|right]. }
  assert (H4 : dispatch settings session suggest (S fuel) (ClickTopic i) (with_step 1 m1) w
               = Some (Ok (with_editedOutline (editedOutline m)
                             (with_selectedTopic (Some {| origin := Some i; chosen := t |})
                                (with_step 1 m1))), w)).
  { unfold dispatch. cbn [enabled]. unfold drawn, topicsShown, m1. fields.
    rewrite Hc, Hl, Hcount, Hlook.
    destruct (<[i := t]> (topics m)) as [|t0 ts] eqn:Hts; [done|].
    cbn [negb andb isEmpty N.eqb Pos.eqb present handle]. fields. rewrite Hlook.
    apply render_draws. right. right. right. fields. by split; [|right]. }
  eexists. split.
  { cbn [run]. unfold bind at 1. rewrite H1.
    unfold bind at 1. rewrite H2. unfold bind at 1. rewrite H3.
    unfold bind at 1. rewrite H4. reflexivity. }
  unfold m1. fields. split; [reflexivity|]. split; [reflexivity|].
  split; [exact Hlook|]. intros j Hj. by apply list_lookup_insert_ne.
Qed.

Lemma edited_outline_persists_witness :
  let suggest := suggestFixed [topicAB] in
  let w := worldWith notesVault [] in
  ∃ m w0 m',
    (opened <- onOpen openaiSettings materialsSession suggest 3 newModal ;;
     run openaiSettings materialsSession suggest 3
         [ClickTopic 0; ClickNext; ClickDelete 0; InputOutline 0 (js "mine")] opened) w
    = Some (Ok m, w0)
    ∧ drawn m 2 = true
    ∧ run openaiSettings materialsSession suggest 1
          [ClickNext; ClickBack; ClickBack; ClickTopic 0] m w0
      = Some (Ok m', w0)
    ∧ editedOutline m' = [js "mine"; js "three"]
    ∧ outline <$> topics m' !! 0%nat = Some [js "mine"; js "three"]
    ∧ outline topicAB = [js "one"; js "two"; js "three"].
Proof.
  intros suggest w.
  run_to m w0
    ((opened <- onOpen openaiSettings materialsSession suggest 3 newModal ;;
      run openaiSettings materialsSession suggest 3
          [ClickTopic 0; ClickNext; ClickDelete 0; InputOutline 0 (js "mine")] opened) w).
  assert (H1 : drawn m 2 = true) by (vm_compute; reflexivity).
  assert (H2 : selectedTopic m = Some {| origin := Some 0%nat; chosen := topicAB |})
    by (vm_compute; reflexivity).
  assert (H3 : (0 < length (topics m))%nat) by (vm_compute; lia).
  assert (H4 : (materialCount m <? 1) = false) by (vm_compute; reflexivity).
  destruct (edited_outline_persists openaiSettings materialsSession suggest 0 m w0
              _ 0%nat H1 H2 eq_refl H3 H4) as (m' & Hrun & _ & Hout & Htop & _).
  exists m, w0, m'.
  split; [vm_compute; reflexivity|]. split; [exact H1|]. split; [exact Hrun|].
  split; [rewrite Hout; vm_compute; reflexivity|].
  split; [rewrite Htop; vm_compute; reflexivity|]. vm_compute. reflexivity.
Defined.
(** ** Material notes *)

Example materialBlock_two_lines :
  materialBlock (js "line one" ++ [10] ++ js "line two") (js "Notes/Source.md") []
  = [10] ++ js "> [!quote] [[Source]]" ++ [10]
    ++ js "> line one" ++ [10]
    ++ js "> line two" ++ [10]
    ++ js ">" ++ [10]
    ++ js "> **My Thought**: _No thought added_" ++ [10; 10]
    ++ js "---" ++ [10; 10].
Proof. vm_compute. reflexivity. Qed.

Lemma appendMaterial_spec session quote sourcePath thought w notePath parent old :
  materialNotePath session = Some notePath → notePath ≠ [] →
  vault w !! notePath = Some (TFile parent old) →
  appendMaterial session quote sourcePath thought w
  = if writable w
    then Some (Ok (),
               logged [Noticed (js "Material added!")]
                 {| vault := <[notePath := TFile parent
                                 (old ++ materialBlock quote sourcePath thought)]> (vault w);
                    writable := writable w; network := network w;
                    now := now w; log := log w |})
    else Some (Throw (js "Failed to write file."), w).
Proof.
  intros Hs Hne Hfile. unfold appendMaterial. rewrite Hs.
  destruct notePath as [|c notePath]; [done|].
  unfold bind at 1, getAbstractFileByPath at 1. rewrite Hfile.
  unfold bind at 1, vault_read at 1. rewrite Hfile.
  unfold bind, vault_modify. destruct (writable w); cbn [negb]; [|reflexivity].
  rewrite Hfile. by rewrite emit_logged.
Qed.

(** X23 (materials are appended).  With the material note of the
    session in the vault and a vault that takes the write, [appendMaterial]
    puts the new block after the text the note had: what was collected
    before is kept as it was, no other entry of the vault changes, and the
    user is told. *)
Theorem appendMaterial_appends session quote sourcePath thought w notePath parent old :
  materialNotePath session = Some notePath → notePath ≠ [] →
  vault w !! notePath = Some (TFile parent old) →
  writable w = true →
  ∃ w', appendMaterial session quote sourcePath thought w = Some (Ok (), w')
        ∧ vault w' !! notePath
          = Some (TFile parent (old ++ materialBlock quote sourcePath thought))
        ∧ getMaterialsContent session w'
          = Some (Ok (Some (old ++ materialBlock quote sourcePath thought)), w')
        ∧ (∀ p, p ≠ notePath → vault w' !! p = vault w !! p)
        ∧ size (vault w') = size (vault w)
        ∧ log w' = log w ++ [Noticed (js "Material added!")]
        ∧ network w' = network w.
Proof.
  intros Hs Hne Hfile Hw.
  rewrite (appendMaterial_spec session quote sourcePath thought w notePath parent old
             Hs Hne Hfile), Hw.
  eexists. split; [reflexivity|]. cbn [vault log network logged].
  split; [by rewrite lookup_insert_eq|].
  split.
  { rewrite getMaterialsContent_spec, Hs. cbn [vault logged].
    rewrite lookup_insert_eq. by destruct notePath. }
  split; [intros p Hp; by rewrite lookup_insert_ne|].
  split; [|done].
  rewrite <- !size_dom. f_equal. apply dom_insert_lookup_L. by rewrite Hfile.
Qed.

Lemma appendMaterial_appends_witness :
  let w := worldWith notesVault [] in
  ∃ w', appendMaterial materialsSession (js "Quote C") (js "Notes/Source.md") (js "third") w
        = Some (Ok (), w')
        ∧ vault w' !! js "Notes/Source - Materials.md"
          = Some (TFile (Some (js "Notes"))
                    (materialsNote ++ [10] ++ js "> [!quote] [[Source]]" ++ [10]
                     ++ js "> Quote C" ++ [10] ++ js ">" ++ [10]
                     ++ js "> **My Thought**: third" ++ [10; 10] ++ js "---" ++ [10; 10]))
        ∧ vault w' !! js "Notes/A-B- why-.md"
          = Some (TFile (Some (js "Notes")) (js "an older article")).
Proof.
  intros w.
  destruct (appendMaterial_appends materialsSession (js "Quote C") (js "Notes/Source.md")
              (js "third") w (js "Notes/Source - Materials.md") (Some (js "Notes"))
              materialsNote)
    as (w' & Hrun & Hnote & _ & Hframe & _).
  - reflexivity.
  - vm_compute. discriminate.
  - vm_compute. reflexivity.
  - reflexivity.
  - exists w'. split; [exact Hrun|]. split.
    + rewrite Hnote. vm_compute. reflexivity.
    + rewrite Hframe by (vm_compute; discriminate). vm_compute. reflexivity.
Defined.

(** X24 (when nothing is appended).  Without a material note to read
    (no session note, or no file at its path) [appendMaterial] returns at
    once: nothing is written and the user is not told.  With a vault that
    refuses the write it throws; the note is as it was, and no notice is
    shown.  In both cases the world is exactly as before. *)
Theorem appendMaterial_nothing_written session quote sourcePath thought w :
  getMaterialsContent session w = Some (Ok None, w) ∨ writable w = false →
  ∃ r, appendMaterial session quote sourcePath thought w = Some (r, w)
       ∧ (r = Ok () ↔ getMaterialsContent session w = Some (Ok None, w)).
Proof.
  rewrite getMaterialsContent_spec.
  destruct (materialNotePath session) as [[|c notePath]|] eqn:Hs.
  1,3: intros _; exists (Ok ()); unfold appendMaterial; rewrite Hs; by split.
  destruct (vault w !! (c :: notePath)) as [[parent old|]|] eqn:Hfile.
  2,3: intros _; exists (Ok ()); unfold appendMaterial; rewrite Hs;
       unfold bind, getAbstractFileByPath; rewrite Hfile; by split.
  intros [[=]|Hw].
  rewrite (appendMaterial_spec session quote sourcePath thought w (c :: notePath)
             parent old Hs ltac:(done) Hfile), Hw.
  eexists. split; [reflexivity|]. split; intros [=].
Qed.

Lemma appendMaterial_nothing_written_witness :
  let w := worldWith notesVault [] in
  getMaterialsContent noSession w = Some (Ok None, w)
  ∧ appendMaterial noSession (js "Quote") (js "Notes/Source.md") (js "thought") w
    = Some (Ok (), w)
  ∧ ThoughtModal.clickAdd noSession (js "Quote") (js "Notes/Source.md") (js "thought") w
    = Some (Ok true, w).
Proof.
  intros w.
  assert (H : getMaterialsContent noSession w = Some (Ok None, w)) by reflexivity.
  split; [exact H|].
  destruct (appendMaterial_nothing_written noSession (js "Quote") (js "Notes/Source.md")
              (js "thought") w (or_introl H)) as (r & Hrun & Hr).
  apply Hr in H. subst r. split; [exact Hrun|].
  unfold ThoughtModal.clickAdd, bind. by rewrite Hrun.
Defined.
(** ** Counting the materials of a note *)

Lemma strip_prefix_app_sep q a sep b :
  sep ∉ q →
  strip_prefix q (a ++ sep :: b) = (λ r, r ++ sep :: b) <$> strip_prefix q a.
Proof.
  revert a. induction q as [|x q IH]; intros a Hq; [reflexivity|].
  rewrite not_elem_of_cons in Hq. destruct Hq as [Hx Hq].
  destruct a as [|y a]; cbn [app strip_prefix].
  - apply not_eq_sym, N.eqb_neq in Hx. by rewrite Hx.
  - destruct (x =? y); [by apply IH | reflexivity].
Qed.

Lemma strip_prefix_shorter q s r :
  strip_prefix q s = Some r → (length q ≤ length s)%nat.
Proof. intros H%strip_prefix_length. lia. Qed.

Lemma quote_at_other c s : c ≠ 62 → quote_at (c :: s) = None.
Proof.
  intros Hc. unfold quote_at.
  destruct c as [|p]; [reflexivity|].
  do 6 (destruct p as [p|p|]; try reflexivity). done.
Qed.

Lemma newline_not_in_marker : 10 ∉ js "[!quote]".
Proof.
  intros Hin. vm_compute in Hin.
  repeat (apply elem_of_cons in Hin as [Hin|Hin]; [discriminate Hin|]).
  by apply elem_of_nil in Hin.
Qed.

Section AfterNewline.

(** A text that begins with a line feed and a [>]: no match of the pattern
    that begins before it can reach into it. *)
Variable t' : jsstring.
#[local] Abbreviation t := (10 :: 62 :: t').

Lemma quote_after_spaces_app r :
  quote_after_spaces (r ++ t) = quote_after_spaces r.
Proof.
  induction r as [|c r IH].
  - vm_compute. reflexivity.
  - cbn [app quote_after_spaces]. destruct (is_space c); [by rewrite IH|].
    change (c :: r ++ t) with ((c :: r) ++ 10 :: 62 :: t').
    rewrite strip_prefix_app_sep by apply newline_not_in_marker.
    by destruct (strip_prefix (js "[!quote]") (c :: r)).
Qed.

Lemma quote_at_app c s : quote_at ((c :: s) ++ t) = quote_at (c :: s).
Proof.
  destruct (decide (c = 62)) as [->|Hc].
  - cbn [app quote_at]. by rewrite quote_after_spaces_app.
  - cbn [app]. by rewrite !quote_at_other.
Qed.

Lemma quote_after_spaces_length r n :
  quote_after_spaces r = Some n → (n ≤ length r)%nat.
Proof.
  revert n. induction r as [|c r IH]; intros n; cbn [quote_after_spaces]; [done|].
  destruct (is_space c).
  - destruct (quote_after_spaces r) as [k|]; [|done]. intros [= <-].
    specialize (IH k eq_refl). simpl. lia.
  - destruct (strip_prefix (js "[!quote]") (c :: r)) as [x|] eqn:Hp; [|done].
    intros [= <-]. by apply strip_prefix_shorter in Hp.
Qed.

Lemma quote_at_length s n : quote_at s = Some n → (n ≤ length s)%nat.
Proof.
  destruct s as [|c s]; [done|].
  destruct (decide (c = 62)) as [->|Hc]; [|by rewrite quote_at_other].
  cbn [quote_at]. destruct (quote_after_spaces s) as [k|] eqn:Hk; [|done].
  intros [= <-]. apply quote_after_spaces_length in Hk. simpl. lia.
Qed.

Lemma count_quotes_app s skip :
  (skip ≤ length s)%nat →
  count_quotes skip (s ++ t) = count_quotes skip s + count_quotes 0 t.
Proof.
  set (rest := count_quotes 0 t).
  revert skip. induction s as [|c s IH]; intros skip Hskip.
  - simpl in Hskip. assert (skip = 0%nat) as -> by lia. reflexivity.
  - change ((c :: s) ++ t) with (c :: (s ++ t)).
    cbn [count_quotes]. destruct skip as [|k].
    + change (c :: s ++ t) with ((c :: s) ++ t). rewrite quote_at_app.
      destruct (quote_at (c :: s)) as [len|] eqn:Hq.
      * apply quote_at_length in Hq. rewrite IH by (simpl in Hq; lia). lia.
      * apply IH. lia.
    + apply IH. simpl in Hskip. lia.
Qed.

End AfterNewline.

Lemma materialBlock_head quote sourcePath thought :
  ∃ rest, materialBlock quote sourcePath thought
          = js "
> [!quote] [[" ++ rest.
Proof. by eexists. Qed.

Lemma count_quotes_head rest :
  count_quotes 0 (js "
> [!quote] [[" ++ rest) = 1 + count_quotes 0 rest.
Proof. vm_compute. reflexivity. Qed.

Lemma head_after_newline rest :
  js "
> [!quote] [[" ++ rest = 10 :: 62 :: (js " [!quote] [[" ++ rest).
Proof. vm_compute. reflexivity. Qed.

Lemma countMaterials_count s : countMaterials (Some s) = count_quotes 0 s.
Proof. by destruct s. Qed.

(** X25 (an appended material is counted).  The count the wizard takes
    of a material note grows with every material appended: the count of the
    note after [appendMaterial] is the count it had plus the count of the
    new block, which is at least one.  A session whose note had no quote
    thus leaves the empty state of the wizard with its first material. *)
Theorem appendMaterial_counted session quote sourcePath thought w notePath parent old :
  materialNotePath session = Some notePath → notePath ≠ [] →
  vault w !! notePath = Some (TFile parent old) →
  writable w = true →
  ∃ w' read,
    appendMaterial session quote sourcePath thought w = Some (Ok (), w')
    ∧ getMaterialsContent session w' = Some (Ok (Some read), w')
    ∧ countMaterials (Some read)
      = countMaterials (Some old)
        + countMaterials (Some (materialBlock quote sourcePath thought))
    ∧ 1 ≤ countMaterials (Some (materialBlock quote sourcePath thought))
    ∧ countMaterials (Some old) < countMaterials (Some read).
Proof.
  intros Hs Hne Hfile Hw.
  rewrite (appendMaterial_spec session quote sourcePath thought w notePath parent old
             Hs Hne Hfile), Hw.
  eexists _, (old ++ materialBlock quote sourcePath thought).
  split; [reflexivity|]. split.
  { rewrite getMaterialsContent_spec, Hs. cbn [vault logged].
    rewrite lookup_insert_eq. by destruct notePath. }
  destruct (materialBlock_head quote sourcePath thought) as [rest ->].
  rewrite !countMaterials_count.
  assert (Hblock : 1 ≤ count_quotes 0 (js "
> [!quote] [[" ++ rest)) by (rewrite count_quotes_head; lia).
  assert (Hsum : count_quotes 0 (old ++ js "
> [!quote] [[" ++ rest)
                 = count_quotes 0 old + count_quotes 0 (js "
> [!quote] [[" ++ rest)).
  { rewrite head_after_newline. apply count_quotes_app. lia. }
  split; [exact Hsum|]. split; [exact Hblock|]. rewrite Hsum. lia.
Qed.

Lemma appendMaterial_counted_witness :
  let text := js "# Materials from [[Source]]

> [!info] Thinking Tool Session
" in
  let session := sessionAt (js "Notes/Empty - Materials.md") in
  let w := worldWith {[ js "Notes/Empty - Materials.md" := TFile (Some (js "Notes")) text ]}
                     [] in
  countMaterials (Some text) = 0
  ∧ ∃ w' read,
      appendMaterial session (js "Quote") (js "Notes/Source.md") [] w = Some (Ok (), w')
      ∧ getMaterialsContent session w' = Some (Ok (Some read), w')
      ∧ countMaterials (Some read) = 1.
Proof.
  intros text session w.
  split; [vm_compute; reflexivity|].
  destruct (appendMaterial_counted session (js "Quote") (js "Notes/Source.md") [] w
              (js "Notes/Empty - Materials.md") (Some (js "Notes")) text)
    as (w' & read & Hrun & Hread & Hcount & _).
  - reflexivity.
  - vm_compute. discriminate.
  - vm_compute. reflexivity.
  - reflexivity.
  - exists w', read. split; [exact Hrun|]. split; [exact Hread|].
    rewrite Hcount. vm_compute. reflexivity.
Defined.
(** ** Lines and names *)

Lemma split_cons_sep sep s : split sep (sep :: s) = [] :: split sep s.
Proof. cbn [split]. by rewrite N.eqb_refl. Qed.

Lemma split_app_sep sep a b :
  sep ∉ a → split sep (a ++ sep :: b) = a :: split sep b.
Proof.
  induction a as [|c a IH]; [intros _; apply split_cons_sep|].
  rewrite not_elem_of_cons. intros [Hc Ha]. cbn [app split].
  apply not_eq_sym, N.eqb_neq in Hc. rewrite Hc, IH by done. reflexivity.
Qed.

Lemma split_segments sep s : Forall (λ seg, sep ∉ seg) (split sep s).
Proof.
  induction s as [|c s IH]; cbn [split].
  - apply Forall_cons. split; [apply not_elem_of_nil | apply Forall_nil; done].
  - destruct (c =? sep) eqn:Hc.
    + apply Forall_cons. split; [apply not_elem_of_nil | exact IH].
    + destruct (split sep s) as [|seg segs].
      * apply Forall_cons. split; [|apply Forall_nil; done].
        apply N.eqb_neq in Hc. rewrite not_elem_of_cons. split; [congruence|].
        apply not_elem_of_nil.
      * apply Forall_cons in IH as [Hseg Hsegs]. apply Forall_cons. split; [|exact Hsegs].
        apply N.eqb_neq in Hc. rewrite not_elem_of_cons. split; [congruence | exact Hseg].
Qed.

(** Lines joined with a line feed and a prefix come apart again as the
    lines, each with the prefix. *)
Lemma split_join_prefixed sep p xs :
  sep ∉ p → xs ≠ [] → Forall (λ x, sep ∉ x) xs →
  split sep (p ++ join (sep :: p) xs) = map (p ++.) xs.
Proof.
  intros Hp Hne Hxs. induction xs as [|x xs IH]; [done|].
  apply Forall_cons in Hxs as [Hx Hxs].
  destruct xs as [|y ys].
  - cbn [join map]. apply split_no_sep. rewrite not_elem_of_app. by split.
  - change (join (sep :: p) (x :: y :: ys))
      with (x ++ (sep :: p) ++ join (sep :: p) (y :: ys)).
    rewrite app_assoc. change ((sep :: p) ++ ?r) with (sep :: (p ++ r)).
    rewrite split_app_sep by (rewrite not_elem_of_app; by split).
    rewrite IH by done. reflexivity.
Qed.

(** X26 (a quote of several lines stays in the callout).  In the block
    [appendMaterial] writes, the quote stands between the line of the
    [quote] marker and the line of the lone [>]; its lines are the lines of
    the selected text, in order, each one behind a [>] and a space.  No line
    of the selection is left outside the callout. *)
Theorem materialBlock_quote_lines quote sourcePath thought :
  ∃ body,
    materialBlock quote sourcePath thought
    = [10] ++ js "> [!quote] [[" ++ basenameOf sourcePath ++ js "]]" ++ [10]
      ++ body ++ [10]
      ++ js ">" ++ [10]
      ++ js "> **My Thought**: " ++ or_else thought (js "_No thought added_")
      ++ [10; 10] ++ js "---" ++ [10; 10]
    ∧ split 10 body = map (js "> " ++.) (split 10 quote)
    ∧ length (split 10 body) = length (split 10 quote).
Proof.
  exists (js "> " ++ join (10 :: js "> ") (split 10 quote)).
  assert (Hlines : split 10 (js "> " ++ join (10 :: js "> ") (split 10 quote))
                   = map (js "> " ++.) (split 10 quote)).
  { apply split_join_prefixed; [|apply split_nonempty|apply split_segments].
    intros Hin. vm_compute in Hin.
    repeat (apply elem_of_cons in Hin as [Hin|Hin]; [discriminate Hin|]).
    by apply elem_of_nil in Hin. }
  split; [|split; [exact Hlines|by rewrite Hlines, length_map]].
  unfold materialBlock.
  change (js "
> ") with (10 :: js "> ").
  change (js "
> [!quote] [[") with ([10] ++ js "> [!quote] [[").
  change (js "]]
> ") with (js "]]" ++ [10] ++ js "> ").
  change (js "
>
> **My Thought**: ") with ([10] ++ js ">" ++ [10] ++ js "> **My Thought**: ").
  change (js "

---

") with ([10; 10] ++ js "---" ++ [10; 10]).
  by rewrite <- !app_assoc.
Qed.

Lemma strip_md_cases s : strip_md s = s ∨ s = strip_md s ++ js ".md".
Proof.
  unfold strip_md.
  destruct (strip_prefix (reverse (js ".md")) (reverse s)) as [r|] eqn:Hr; [|by left].
  right. apply strip_prefix_suffix in Hr as Hsuf.
  assert (Heq : reverse s = reverse (js ".md") ++ r).
  { clear Hsuf. revert Hr. generalize (reverse s) as x. generalize (reverse (js ".md")) as q.
    induction q as [|a q IH]; intros [|b x]; simpl; try done.
    - by intros [= <-].
    - by intros [= <-].
    - destruct (a =? b) eqn:Hab; [|done]. apply N.eqb_eq in Hab as ->.
      intros H%IH. by rewrite H. }
  apply (f_equal reverse) in Heq.
  by rewrite reverse_involutive, reverse_app, reverse_involutive in Heq.
Qed.

Lemma slash_not_in_md : ch "/" ∉ reverse (js ".md").
Proof.
  intros Hin. vm_compute in Hin.
  repeat (apply elem_of_cons in Hin as [Hin|Hin]; [discriminate Hin|]).
  by apply elem_of_nil in Hin.
Qed.

Lemma strip_md_after_slash pre l :
  strip_md (pre ++ ch "/" :: l) = pre ++ ch "/" :: strip_md l.
Proof.
  unfold strip_md. rewrite reverse_app, reverse_cons, <- app_assoc.
  change ([ch "/"] ++ reverse pre) with (ch "/" :: reverse pre).
  rewrite strip_prefix_app_sep by apply slash_not_in_md.
  destruct (strip_prefix (reverse (js ".md")) (reverse l)) as [r|]; cbn [fmap option_fmap option_map].
  - rewrite reverse_app, reverse_cons, reverse_involutive, <- app_assoc. reflexivity.
  - reflexivity.
Qed.

Lemma strip_md_no_sep sep s : sep ∉ s → sep ∉ strip_md s.
Proof.
  intros Hs. destruct (strip_md_cases s) as [->|Heq]; [exact Hs|].
  intros Hin. apply Hs. rewrite Heq. rewrite elem_of_app. by left.
Qed.

(** X27 (one name for the source).  The name of the source note that
    [ThoughtModal] shows after [From:] and the name [appendMaterial] writes
    into the link of the block are computed in two different orders (the
    last segment of the path, then without its [.md]; the path without its
    [.md], then its last segment): they are the same name for every path. *)
Theorem sourceBasename_agrees sourcePath :
  ThoughtModal.sourceBasename sourcePath = basenameOf sourcePath.
Proof.
  unfold ThoughtModal.sourceBasename, basenameOf.
  destruct (decide (ch "/" ∈ sourcePath)) as [Hin|Hout].
  - apply list_elem_of_split_r in Hin as (pre & l & -> & Hl).
    rewrite strip_md_after_slash, !last_split_app.
    rewrite !split_no_sep by (try apply strip_md_no_sep; exact Hl). reflexivity.
  - rewrite !split_no_sep by (try apply strip_md_no_sep; exact Hout). reflexivity.
Qed.

(** X28 (the preview of the selection).  The preview that [ThoughtModal]
    draws is the selected text itself when that has at most 200 code units,
    and otherwise its first 200 code units followed by three dots: it never
    exceeds 203 code units, and the text handed to [appendMaterial] is the
    whole selection in both cases. *)
Theorem preview_bounded selectedText :
  (length (ThoughtModal.preview selectedText) ≤ 203)%nat
  ∧ ((length selectedText ≤ 200)%nat → ThoughtModal.preview selectedText = selectedText)
  ∧ ((200 < length selectedText)%nat →
     ThoughtModal.preview selectedText = take 200 selectedText ++ js "..."
     ∧ length (ThoughtModal.preview selectedText) = 203%nat).
Proof.
  unfold ThoughtModal.preview, slice0.
  destruct (200 <? length selectedText)%nat eqn:Hlen.
  - apply Nat.ltb_lt in Hlen. rewrite length_app, length_take.
    change (length (js "...")) with 3%nat.
    split; [lia|]. split; [lia|]. intros _. split; [reflexivity|lia].
  - apply Nat.ltb_ge in Hlen. split; [lia|]. split; [done|lia].
Qed.

Lemma preview_bounded_witness :
  let long := js "0123456789" ++ concat (replicate 20 (js "abcdefghij")) in
  (200 < length long)%nat
  ∧ length (ThoughtModal.preview long) = 203%nat
  ∧ ThoughtModal.preview (js "short") = js "short".
Proof.
  intros long.
  assert (H : (200 < length long)%nat) by (vm_compute; lia).
  split; [exact H|].
  split; [exact (proj2 (proj2 (proj2 (preview_bounded long)) H))|].
  apply (proj1 (proj2 (preview_bounded (js "short")))). vm_compute. lia.
Defined.
(** X29 (a topic of one's own).  On the first step, a custom title
    that is not empty once trimmed becomes the selected topic, with the
    trimmed title, the fixed description and the default outline of four
    entries, and the modal moves to step 2 without asking anyone.  The topic
    is no member of the suggested list: Next on the outline screen writes
    the edited outline into it and leaves the suggested topics as they
    were. *)
Theorem custom_topic_flow settings session suggest fuel m w value c rest :
  drawn m 1 = true → topicsShown m = true → trim value = c :: rest →
  ∃ m1 m2,
    dispatch settings session suggest (S fuel) (ClickCustom value) m w = Some (Ok m1, w)
    ∧ step m1 = 2
    ∧ selectedTopic m1
      = Some {| origin := None;
                chosen := {| title := c :: rest;
                             description := js "사용자 직접 입력 주제";
                             outline := [js "서론"; js "본론 1"; js "본론 2"; js "결론"] |} |}
    ∧ editedOutline m1 = [js "서론"; js "본론 1"; js "본론 2"; js "결론"]
    ∧ topics m1 = topics m
    ∧ dispatch settings session suggest (S fuel) ClickNext m1 w = Some (Ok m2, w)
    ∧ step m2 = 3
    ∧ topics m2 = topics m
    ∧ (title ∘ chosen) <$> selectedTopic m2 = Some (c :: rest)
    ∧ (outline ∘ chosen) <$> selectedTopic m2 = Some (editedOutline m1).
Proof.
  intros Hd Hshown Htrim.
  destruct (drawn_inv _ _ Hd) as (Hc & Hl & Hstep).
  set (t := {| title := c :: rest;
               description := js "사용자 직접 입력 주제";
               outline := [js "서론"; js "본론 1"; js "본론 2"; js "결론"] |}).
  set (m1 := with_step 2 (with_editedOutline (outline t)
               (with_selectedTopic (Some {| origin := None; chosen := t |}) m))).
  assert (H1 : dispatch settings session suggest (S fuel) (ClickCustom value) m w
               = Some (Ok m1, w)).
  { unfold dispatch. cbn [enabled]. rewrite Hd, Hshown. cbn [andb handle].
    rewrite Htrim. apply render_draws. right. left. reflexivity. }
  set (t2 := {| title := c :: rest;
                description := js "사용자 직접 입력 주제";
                outline := editedOutline m1 |}).
  exists m1, (with_step 3 (with_selectedTopic (Some {| origin := None; chosen := t2 |}) m1)).
  split; [exact H1|]. split; [reflexivity|]. split; [reflexivity|].
  split; [reflexivity|]. split; [reflexivity|].
  split; [|by repeat split].
  unfold dispatch. cbn [enabled]. unfold drawn, m1. fields.
  rewrite Hc, Hl. cbn [negb andb orb N.eqb Pos.eqb present handle]. fields.
  cbn [N.eqb Pos.eqb]. unfold commitOutline. fields. cbn [origin chosen].
  apply render_draws. right. right. left. reflexivity.
Qed.

Lemma custom_topic_flow_witness :
  let suggest := suggestFixed [topicAB] in
  let w := worldWith notesVault [] in
  ∃ m w0 m1 m2,
    onOpen openaiSettings materialsSession suggest 3 newModal w = Some (Ok m, w0)
    ∧ trim (js "  My own topic ") = js "My own topic"
    ∧ dispatch openaiSettings materialsSession suggest 1 (ClickCustom (js "  My own topic "))
               m w0
      = Some (Ok m1, w0)
    ∧ dispatch openaiSettings materialsSession suggest 1 ClickNext m1 w0 = Some (Ok m2, w0)
    ∧ step m2 = 3
    ∧ topics m2 = [topicAB].
Proof.
  intros suggest w.
  run_to m w0 (onOpen openaiSettings materialsSession suggest 3 newModal w).
  assert (H1 : drawn m 1 = true) by (vm_compute; reflexivity).
  assert (H2 : topicsShown m = true) by (vm_compute; reflexivity).
  match eval vm_compute in (trim (js "  My own topic ")) with
  | ?c :: ?rest =>
      assert (H3 : trim (js "  My own topic ") = c :: rest) by (vm_compute; reflexivity);
      destruct (custom_topic_flow openaiSettings materialsSession suggest 0 m w0
                  (js "  My own topic ") c rest H1 H2 H3)
        as (m1 & m2 & Hc & _ & _ & _ & _ & Hn & Hs & Ht & _)
  end.
  exists m, w0, m1, m2.
  split; [vm_compute; reflexivity|]. split; [vm_compute; reflexivity|].
  split; [exact Hc|]. split; [exact Hn|]. split; [exact Hs|].
  rewrite Ht. vm_compute. reflexivity.
Defined.
